(** * The scaffolding core of the React architecture scaffolder (server.ts)

    A shallow embedding of [resolveSafeTarget], [ensureDirectory],
    [ensureFile] and [scaffoldProject], together with the POSIX flavour of
    the [node:path] functions and of the two [node:fs/promises] calls they
    rely on, and the properties of the scaffolding engine proved over it. *)

From Stdlib Require Import String Ascii.
From stdpp Require Import gmap strings list pretty.

Open Scope string_scope.

(** ** Strings as JavaScript uses them *)

Module Js.

(** [c === CHAR_FORWARD_SLASH] *)
Definition isSlash (c : ascii) : bool := Ascii.eqb c "/".
Arguments isSlash : simpl never.

(** [s.split('/')]: always at least one piece. *)
Fixpoint split (s : string) : list string :=
  match s with
  | EmptyString => [""]
  | String c s' =>
      if isSlash c then "" :: split s'
      else match split s' with
           | x :: xs => String c x :: xs
           | [] => [String c ""]
           end
  end.

(** [s.startsWith(p)]. *)
Definition startsWith (s p : string) : bool := String.prefix p s.

(** [s.endsWith('/')], i.e. the last code unit is a slash. *)
Fixpoint endsWithSlash (s : string) : bool :=
  match s with
  | EmptyString => false
  | String c EmptyString => isSlash c
  | String _ s' => endsWithSlash s'
  end.

(** No slash occurs in [s]. *)
Fixpoint slashFree (s : string) : bool :=
  match s with
  | EmptyString => true
  | String c s' => negb (isSlash c) && slashFree s'
  end.

(** [c === '\u0000'] *)
Definition isNul (c : ascii) : bool := Ascii.eqb c Ascii.zero.
Arguments isNul : simpl never.

(** [!s.includes('\u0000')]: the test [node:fs] makes on every path it is
    given, before any system call. *)
Fixpoint nulFree (s : string) : bool :=
  match s with
  | EmptyString => true
  | String c s' => negb (isNul c) && nulFree s'
  end.

End Js.

(** ** [node:path], POSIX flavour

    [normalizeString], [resolve], [normalize], [join], [relative],
    [isAbsolute] and [dirname] follow lib/path.js of Node.  The character
    loops of [normalizeString] and [relative] are written over the list of
    slash-separated segments, which is what those loops compute; [dirname]
    is written over the characters. *)

Module path.

Definition isAbsolute (p : string) : bool :=
  match p with
  | String c _ => Js.isSlash c
  | EmptyString => false
  end.

(** One segment of [normalizeString]; [res] is the stack of segments kept
    so far, most recent first. *)
Definition normalizeStep (allowAboveRoot : bool) (res : list string) (seg : string)
  : list string :=
  if String.eqb seg "" || String.eqb seg "." then res
  else if String.eqb seg ".." then
    match res with
    | l :: res' =>
        if String.eqb l ".." then (if allowAboveRoot then ".." :: res else res)
        else res'
    | [] => if allowAboveRoot then [".."] else []
    end
  else seg :: res.

Definition normalizeSegments (allowAboveRoot : bool) (segs : list string) : list string :=
  rev (fold_left (normalizeStep allowAboveRoot) segs []).

Definition normalizeString (p : string) (allowAboveRoot : bool) : string :=
  String.concat "/" (normalizeSegments allowAboveRoot (Js.split p)).

(** The right-to-left loop of [resolve]: [args] is given last argument
    first, with the working directory at the very end. *)
Fixpoint resolveLoop (args : list string) (resolvedPath : string) : string * bool :=
  match args with
  | [] => (resolvedPath, false)
  | p :: rest =>
      if String.eqb p "" then resolveLoop rest resolvedPath
      else
        let resolvedPath := p +:+ "/" +:+ resolvedPath in
        if isAbsolute p then (resolvedPath, true) else resolveLoop rest resolvedPath
  end.

Definition resolve (cwd : string) (args : list string) : string :=
  let '(resolvedPath, resolvedAbsolute) := resolveLoop (rev (cwd :: args)) "" in
  let resolvedPath := normalizeString resolvedPath (negb resolvedAbsolute) in
  if resolvedAbsolute then "/" +:+ resolvedPath
  else if String.eqb resolvedPath "" then "." else resolvedPath.

Definition normalize (p : string) : string :=
  if String.eqb p "" then "."
  else
    let isAbs := isAbsolute p in
    let trailingSeparator := Js.endsWithSlash p in
    let p := normalizeString p (negb isAbs) in
    if String.eqb p "" then
      if isAbs then "/" else if trailingSeparator then "./" else "."
    else
      let p := if trailingSeparator then p +:+ "/" else p in
      if isAbs then "/" +:+ p else p.

Definition join (args : list string) : string :=
  match filter (λ a, a ≠ "") args with
  | [] => "."
  | parts => normalize (String.concat "/" parts)
  end.

(** The segments of a path: the non-empty pieces between slashes. *)
Definition segments (p : string) : list string :=
  filter (λ s, s ≠ "") (Js.split p).

(** Drop the longest common prefix of two segment lists. *)
Fixpoint stripCommon (from to : list string) : list string * list string :=
  match from, to with
  | f :: from', t :: to' =>
      if String.eqb f t then stripCommon from' to' else (from, to)
  | _, _ => (from, to)
  end.

Definition relative (cwd : string) (from to : string) : string :=
  if String.eqb from to then ""
  else
    let from := resolve cwd [from] in
    let to := resolve cwd [to] in
    if String.eqb from to then ""
    else
      let '(up, down) := stripCommon (segments from) (segments to) in
      String.concat "/" (map (λ _, "..") up ++ down)%list.

Fixpoint dropWhile (f : ascii → bool) (l : list ascii) : list ascii :=
  match l with
  | c :: l' => if f c then dropWhile f l' else l
  | [] => []
  end.

Definition dirname (p : string) : string :=
  match p with
  | EmptyString => "."
  | String c0 t =>
      let hasRoot := Js.isSlash c0 in
      (* scan from the end down to index 1: trailing slashes, then the
         last segment; what is left ends with the slash at index [end] *)
      let r := dropWhile (λ c, negb (Js.isSlash c))
                 (dropWhile Js.isSlash (rev (list_ascii_of_string t))) in
      match r with
      | [] => if hasRoot then "/" else "."
      | _ :: r' =>
          if hasRoot && bool_decide (r' = []) then "//"
          else String c0 (string_of_list_ascii (rev r'))
      end
  end.

End path.

(** ** Data model of server.ts *)

Inductive PatternType := layered | feature | atomic | clean.

Record FileEntry := { path : string; content : string }.

Record PatternDefinition := {
  label : string;
  directories : list string;
  files : list FileEntry;
}.

Record ScaffoldResult := {
  resolvedTarget : string;
  createdDirs : list string;
  createdFiles : list string;
  skippedFiles : list string;
  resultLabel : string;   (* the field [label] of the result *)
}.

(** ** Exceptions

    Every value thrown in this code is an instance of a JavaScript [Error]:
    the ones the code builds with [new Error(msg)], and the errors with
    which the promises of [node:fs] reject, which carry a [code]: the system
    errors, and the [TypeError] for a path that holds a NUL character. *)

Record JsError := {
  name : string;            (* the constructor's name *)
  code : option string;     (* the [code] property, when there is one *)
  message : string;
}.

Definition newError (msg : string) : JsError :=
  {| name := "Error"; code := None; message := msg |}.

Definition isErrnoException (error : JsError) : bool :=
  bool_decide (is_Some (code error)).

Inductive Outcome (A : Type) : Type :=
  | Returned (a : A)
  | Thrown (e : JsError).
Arguments Returned {A} a.
Arguments Thrown {A} e.

(** ** The disk and the two [node:fs] calls

    A disk maps the segments of an absolute path to what is there; the root
    directory is always there.  The calls fail with a system error for a
    structural reason (something is in the way) or for a reason of the
    host's that depends on the call and its path only (permissions, quota,
    name length, ...), which the host decides.

    Two limits of this disk.  It holds directories and regular files only:
    there is no symbolic link, so a path names the entry it spells, and what
    is said of where entries are is said of path names ([server.ts] resolves
    no link either, and the specification leaves symlink escapes out of
    scope as a known limitation).  And the two calls take the path they are
    given as an absolute path in normal form, reading its segments as they
    stand: this is what [server.ts] hands them whenever [baseDir] is
    absolute, since every path it passes comes out of [path.resolve] or
    [path.join]; a relative path, which Node would resolve against the
    working directory, is outside of what the model describes. *)

Inductive Node := Dir | File (bytes : string).

Abbreviation Disk := (gmap (list string) Node).

Inductive Syscall := Mkdir | Open | Write.

(** What the host alone decides; pre-existence is not among them. *)
Inductive HostErrno := EACCES | EPERM | EROFS | ENOSPC | EDQUOT | ENAMETOOLONG | EIO | EMFILE.

Inductive Errno := EEXIST | ENOTDIR | ENOENT | EISDIR | HostFault (e : HostErrno).

Global Instance HostErrno_eq_dec : EqDecision HostErrno.
Proof. solve_decision. Defined.

Global Instance Errno_eq_dec : EqDecision Errno.
Proof. solve_decision. Defined.

Definition errnoCode (e : Errno) : string :=
  match e with
  | EEXIST => "EEXIST"
  | ENOTDIR => "ENOTDIR"
  | ENOENT => "ENOENT"
  | EISDIR => "EISDIR"
  | HostFault EACCES => "EACCES"
  | HostFault EPERM => "EPERM"
  | HostFault EROFS => "EROFS"
  | HostFault ENOSPC => "ENOSPC"
  | HostFault EDQUOT => "EDQUOT"
  | HostFault ENAMETOOLONG => "ENAMETOOLONG"
  | HostFault EIO => "EIO"
  | HostFault EMFILE => "EMFILE"
  end.

Record Host := {
  cwd : string;                                     (* [process.cwd()] *)
  fault : Syscall → string → option HostErrno;      (* host-side failures *)
  uvMessage : Errno → Syscall → string → string;    (* text of a system error *)
  invalidPathMessage : string → string;             (* text of ERR_INVALID_ARG_VALUE *)
  written : string → string → string;               (* what a failing write left *)
}.

(** An asynchronous computation over the disk: awaited calls run one after
    the other, and what was written before an exception stays written. *)
Definition Async (A : Type) : Type := Disk → Outcome A * Disk.

Global Instance Async_ret : MRet Async := λ A a d, (Returned a, d).

Global Instance Async_bind : MBind Async := λ A B k m d,
  match m d with
  | (Returned a, d') => k a d'
  | (Thrown e, d') => (Thrown e, d')
  end.

Definition throw {A} (e : JsError) : Async A := λ d, (Thrown e, d).

Definition tryCatch {A} (body : Async A) (handler : JsError → Async A) : Async A := λ d,
  match body d with
  | (Thrown e, d') => handler e d'
  | r => r
  end.

Definition liftOutcome {A} (o : Outcome A) : Async A := λ d, (o, d).

Section Server.

Context (host : Host) (PATTERNS : PatternType → PatternDefinition).

Definition uvException (e : Errno) (sc : Syscall) (p : string) : JsError :=
  {| name := "Error"; code := Some (errnoCode e); message := uvMessage host e sc p |}.

(** The [TypeError] with which [node:fs] rejects a path that holds a NUL
    character ([getValidatedPath]). *)
Definition invalidPath (p : string) : JsError :=
  {| name := "TypeError"; code := Some "ERR_INVALID_ARG_VALUE";
     message := invalidPathMessage host p |}.

(** [mkdir -p] below [pre]: a file in the way is EEXIST when it sits at
    the requested path itself and ENOTDIR when it sits above it. *)
Fixpoint mkdirp (d : Disk) (pre rest : list string) : Errno + Disk :=
  match rest with
  | [] => inr d
  | s :: rest' =>
      let q := (pre ++ [s])%list in
      match d !! q with
      | Some (File _) => inl (match rest' with [] => EEXIST | _ => ENOTDIR end)
      | Some Dir => mkdirp d q rest'
      | None => mkdirp (<[q := Dir]> d) q rest'
      end
  end.

(** [fs.mkdir(p, { recursive: true })]: a path with a NUL character is
    refused before any system call; otherwise the call creates the missing
    directories of [p], succeeds when [p] is a directory already, and
    changes nothing when it fails.  The empty path is ENOENT. *)
Definition fs_mkdir (p : string) : Async unit := λ d,
  if negb (Js.nulFree p) then (Thrown (invalidPath p), d)
  else
    match fault host Mkdir p with
    | Some e => (Thrown (uvException (HostFault e) Mkdir p), d)
    | None =>
        if String.eqb p "" then (Thrown (uvException ENOENT Mkdir p), d)
        else match mkdirp d [] (path.segments p) with
             | inl e => (Thrown (uvException e Mkdir p), d)
             | inr d' => (Returned (), d')
             end
    end.

(** Every directory above the file must be there. *)
Fixpoint walkParents (d : Disk) (pre rest : list string) : option Errno :=
  match rest with
  | [] => None
  | s :: rest' =>
      let q := (pre ++ [s])%list in
      match d !! q with
      | Some Dir => walkParents d q rest'
      | Some (File _) => Some ENOTDIR
      | None => Some ENOENT
      end
  end.

(** [fs.writeFile(p, content, { flag: 'wx' })]: a path with a NUL character
    is refused before any system call; otherwise the file is opened with
    O_WRONLY|O_CREAT|O_EXCL, then written, then closed.  The open is EEXIST
    when anything, a file or a directory, is at [p]; ENOENT or ENOTDIR when a
    directory above [p] is missing or is a file; EISDIR when [p] ends with a
    slash; and it changes nothing when it fails.  Once the file is open it
    exists: a failure after the open, of the write or of the close (no
    space, quota, I/O error), leaves it with what the host had written of
    the content, and nothing removes it. *)
Definition fs_writeFile (p content : string) : Async unit := λ d,
  if negb (Js.nulFree p) then (Thrown (invalidPath p), d)
  else
    match fault host Open p with
    | Some e => (Thrown (uvException (HostFault e) Open p), d)
    | None =>
        if String.eqb p "" then (Thrown (uvException ENOENT Open p), d)
        else if Js.endsWithSlash p then (Thrown (uvException EISDIR Open p), d)
        else
          let segs := path.segments p in
          match walkParents d [] (removelast segs) with
          | Some e => (Thrown (uvException e Open p), d)
          | None =>
              match d !! segs with
              | Some _ => (Thrown (uvException EEXIST Open p), d)
              | None =>
                  match fault host Write p with
                  | Some e =>
                      (Thrown (uvException (HostFault e) Write p),
                       <[segs := File (written host p content)]> d)
                  | None => (Returned (), <[segs := File content]> d)
                  end
              end
          end
    end.

(** [fs.readFile(p)], for stating what is on the disk. *)
Definition readFile (d : Disk) (p : string) : option string :=
  match d !! path.segments p with
  | Some (File bytes) => Some bytes
  | _ => None
  end.

(** *** server.ts *)

Definition resolveSafeTarget (inputPath baseDir : string) : Outcome string :=
  let resolved := path.resolve (cwd host) [baseDir; inputPath] in
  let relative := path.relative (cwd host) baseDir resolved in
  if Js.startsWith relative ".." || path.isAbsolute relative then
    Thrown (newError ("Security violation: Target path '" +:+ inputPath +:+
                      "' must be within the current working directory."))
  else Returned resolved.

Definition ensureDirectory (dirPath : string) : Async unit :=
  tryCatch (fs_mkdir dirPath)
    (λ error, throw (newError ("Failed to create directory '" +:+ dirPath +:+ "': " +:+
                               message error))).

Definition ensureFile (filePath content : string) : Async bool :=
  tryCatch
    (fs_mkdir (path.dirname filePath);;
     fs_writeFile filePath content;;
     mret true)
    (λ error,
       if isErrnoException error && bool_decide (code error = Some "EEXIST") then mret false
       else throw (newError ("Failed to create file '" +:+ filePath +:+ "': " +:+
                             message error))).

(** [for (const dir of pattern.directories)] *)
Fixpoint dirLoop (resolvedTarget : string) (dirs createdDirs : list string)
  : Async (list string) :=
  match dirs with
  | [] => mret createdDirs
  | dir :: rest =>
      ensureDirectory (path.join [resolvedTarget; dir]);;
      dirLoop resolvedTarget rest (createdDirs ++ [dir])%list
  end.

(** [for (const file of pattern.files)] *)
Fixpoint fileLoop (resolvedTarget : string) (fs : list FileEntry)
    (createdFiles skippedFiles : list string) : Async (list string * list string) :=
  match fs with
  | [] => mret (createdFiles, skippedFiles)
  | file :: rest =>
      created ← ensureFile (path.join [resolvedTarget; path file]) (content file);
      if created : bool then fileLoop resolvedTarget rest (createdFiles ++ [path file])%list skippedFiles
      else fileLoop resolvedTarget rest createdFiles (skippedFiles ++ [path file])%list
  end.

Definition scaffoldProject (inputPath : string) (patternType : PatternType)
    (baseDir : string) : Async ScaffoldResult :=
  resolvedTarget ← liftOutcome (resolveSafeTarget inputPath baseDir);
  let pattern := PATTERNS patternType in
  ensureDirectory resolvedTarget;;
  createdDirs ← dirLoop resolvedTarget (directories pattern) [];
  '(createdFiles, skippedFiles) ← fileLoop resolvedTarget (files pattern) [] [];
  mret {| resolvedTarget := resolvedTarget;
          createdDirs := createdDirs;
          createdFiles := createdFiles;
          skippedFiles := skippedFiles;
          resultLabel := label pattern |}.

(** [ScaffoldInputSchema]: [path: z.string().min(1)]; the pattern key is
    already typed here. *)
Definition ScaffoldInputSchema_parse (p : string) : option string :=
  if bool_decide (1 ≤ String.length p)%nat then Some p else None.

End Server.

(** * Vocabulary of the properties *)

(** The failure kinds, as the code builds them. *)
Definition SecurityViolation (inputPath : string) : JsError :=
  newError ("Security violation: Target path '" +:+ inputPath +:+
            "' must be within the current working directory.").

Definition DirectoryCreationError (dirPath : string) (cause : JsError) : JsError :=
  newError ("Failed to create directory '" +:+ dirPath +:+ "': " +:+ message cause).

Definition FileCreationError (filePath : string) (cause : JsError) : JsError :=
  newError ("Failed to create file '" +:+ filePath +:+ "': " +:+ message cause).


(** A segment as [normalizeString] keeps it below the root: a name. *)
Definition isName (s : string) : Prop :=
  s ≠ "" ∧ s ≠ "." ∧ s ≠ ".." ∧ Js.slashFree s = true.

(** The absolute path with the segments [segs]. *)
Definition absolute (segs : list string) : string := "/" +:+ String.concat "/" segs.

Fixpoint segsPrefix (a b : list string) : bool :=
  match a, b with
  | [], _ => true
  | x :: a', y :: b' => String.eqb x y && segsPrefix a' b'
  | _ :: _, [] => false
  end.

(** [inputPath], resolved against [baseDir], lies in [baseDir]: the segments
    of the resolved base directory begin those of the resolved path. *)
Definition inside (cwd baseDir inputPath : string) : bool :=
  segsPrefix (path.segments (path.resolve cwd [baseDir]))
             (path.segments (path.resolve cwd [baseDir; inputPath])).

(** The first segment of the resolved path below [baseDir], if any. *)
Definition firstBelow (cwd baseDir inputPath : string) : option string :=
  head (path.stripCommon (path.segments (path.resolve cwd [baseDir]))
                         (path.segments (path.resolve cwd [baseDir; inputPath]))).2.

(** Every entry of a well-formed disk sits in a directory. *)
Definition wfDisk (d : Disk) : Prop :=
  ∀ q s n, d !! (q ++ [s])%list = Some n → q = [] ∨ d !! q = Some Dir.

(** [m] keeps [P] true of the disk, whether it returns or throws. *)
Definition preserves {A : Type} (P : Disk → Prop) (m : Async A) : Prop :=
  ∀ d o d', P d → m d = (o, d') → P d'.

(** The body of the [try] of [ensureFile]. *)
Definition createFile (host : Host) (filePath content : string) : Async bool :=
  fs_mkdir host (path.dirname filePath);;
  fs_writeFile host filePath content;;
  mret true.

(** The paths of the entries whose flag is [b]. *)
Fixpoint picked (b : bool) (flags : list bool) (fs : list FileEntry) : list string :=
  match flags, fs with
  | x :: flags', f :: fs' =>
      if Bool.eqb x b then path f :: picked b flags' fs' else picked b flags' fs'
  | _, _ => []
  end.

(** One awaited leaf call somewhere between the disk [d] the call started
    from and the disk [d'] it ended with. *)
Definition dirStep (host : Host) (d d' : Disk) (dirPath : string) : Prop :=
  ∃ di dj, d ⊆ di ∧ dj ⊆ d' ∧ ensureDirectory host dirPath di = (Returned (), dj).

Definition fileStep (host : Host) (root : string) (d d' : Disk) (f : FileEntry) (b : bool)
  : Prop :=
  ∃ di dj, d ⊆ di ∧ dj ⊆ d' ∧
    ensureFile host (path.join [root; path f]) (content f) di = (Returned b, dj).

(** The failure kind a caller can read off a message. *)
Inductive FailureKind := SecurityKind | DirectoryKind | FileKind.

Definition kindOfMessage (msg : string) : option FailureKind :=
  if Js.startsWith msg "Security violation: " then Some SecurityKind
  else if Js.startsWith msg "Failed to create directory '" then Some DirectoryKind
  else if Js.startsWith msg "Failed to create file '" then Some FileKind
  else None.

(** ** A host, a catalogue and some disks to run the code on *)

(** A host on which nothing fails for a reason of its own. *)
Definition quietHost : Host :=
  {| cwd := "/home/user";
     fault := λ _ _, None;
     uvMessage := λ e sc p,
       errnoCode e +:+ ", "
       +:+ (match sc with Mkdir => "mkdir" | Open => "open" | Write => "write" end)
       +:+ " '" +:+ p +:+ "'";
     invalidPathMessage := λ p,
       "The argument 'path' must be a string, Uint8Array, or URL without null bytes.";
     written := λ _ _, "" |}.

(** A host whose disk is full: a file can be opened, and every write fails
    with ENOSPC before a byte is written. *)
Definition fullDiskHost : Host :=
  {| cwd := cwd quietHost;
     fault := λ sc _, match sc with Write => Some ENOSPC | _ => None end;
     uvMessage := uvMessage quietHost;
     invalidPathMessage := invalidPathMessage quietHost;
     written := λ _ _, "" |}.

(** The pattern of the end-to-end scenario, under every key. *)
Definition scenarioPattern : PatternDefinition :=
  {| label := "Scenario";
     directories := ["src/components"];
     files := [ {| path := "src/app.ts"; content := "export {}" |} ] |}.

Definition scenarioCatalogue (_ : PatternType) : PatternDefinition := scenarioPattern.

(** A pattern of files only. *)
Definition filesOnlyCatalogue (_ : PatternType) : PatternDefinition :=
  {| label := "Files";
     directories := [];
     files := [ {| path := "src/app.ts"; content := "export {}" |} ] |}.

(** The base directory [/tmp/X], empty. *)
Definition emptyBase : Disk := <[ ["tmp"; "X"] := Dir ]> (<[ ["tmp"] := Dir ]> ∅).

(** The same, where [/tmp/X/app/src/app.ts] holds the user's own text. *)
Definition seededBase : Disk :=
  <[ ["tmp"; "X"; "app"; "src"; "app.ts"] := File "mine" ]>
    (<[ ["tmp"; "X"; "app"; "src"] := Dir ]> (<[ ["tmp"; "X"; "app"] := Dir ]> emptyBase)).


(** The same, where [/tmp/X/app/src] is a regular file. *)
Definition srcIsFile : Disk :=
  <[ ["tmp"; "X"; "app"; "src"] := File "notes" ]> (<[ ["tmp"; "X"; "app"] := Dir ]> emptyBase).

(** A pattern whose directories and files are declared in an order that is
    neither alphabetical nor by depth, under every key. *)
Definition orderPattern : PatternDefinition :=
  {| label := "Order";
     directories := ["src/b"; "src/a"];
     files := [ {| path := "z.txt"; content := "z" |};
                {| path := "src/a/m.ts"; content := "m" |};
                {| path := "a.txt"; content := "a" |};
                {| path := "src/b/k.ts"; content := "k" |} ] |}.

Definition orderCatalogue (_ : PatternType) : PatternDefinition := orderPattern.

(** The base directory where [/tmp/X/app/a.txt] and [/tmp/X/app/src/a/m.ts]
    are there already. *)
Definition orderBase : Disk :=
  <[ ["tmp"; "X"; "app"; "src"; "a"; "m.ts"] := File "old" ]>
    (<[ ["tmp"; "X"; "app"; "src"; "a"] := Dir ]>
       (<[ ["tmp"; "X"; "app"; "src"] := Dir ]>
          (<[ ["tmp"; "X"; "app"; "a.txt"] := File "mine" ]>
             (<[ ["tmp"; "X"; "app"] := Dir ]> emptyBase)))).

(** * The path functions on examples *)

Example resolve_relative : path.resolve "/home/user" ["/tmp/X"; "my-app"] = "/tmp/X/my-app".
Proof. reflexivity. Qed.

Example resolve_nested : path.resolve "/home/user" ["/tmp/X"; "apps/frontend"] = "/tmp/X/apps/frontend".
Proof. reflexivity. Qed.

Example resolve_absolute_input : path.resolve "/home/user" ["/tmp/X"; "/etc/passwd"] = "/etc/passwd".
Proof. reflexivity. Qed.

Example resolve_above_root : path.resolve "/home/user" ["/tmp/X"; "../../../a/./b//"] = "/a/b".
Proof. reflexivity. Qed.

Example resolve_from_cwd : path.resolve "/home/user" ["src"; "../lib"] = "/home/user/lib".
Proof. reflexivity. Qed.

Example relative_parent : path.relative "/home/user" "/tmp/X" "/tmp" = "..".
Proof. reflexivity. Qed.

Example relative_elsewhere : path.relative "/home/user" "/tmp/X" "/etc/passwd" = "../../etc/passwd".
Proof. reflexivity. Qed.

Example relative_below : path.relative "/home/user" "/tmp/X" "/tmp/X/a/b" = "a/b".
Proof. reflexivity. Qed.

Example relative_same : path.relative "/home/user" "/tmp/X/" "/tmp/X" = "".
Proof. reflexivity. Qed.

Example relative_from_root : path.relative "/home/user" "/" "/foo" = "foo".
Proof. reflexivity. Qed.

Example join_normalizes : path.join ["/tmp/X/app"; "src/../a//b/"] = "/tmp/X/app/a/b/".
Proof. reflexivity. Qed.

Example join_relative : path.join ["a"; ""; "../../b"] = "../b".
Proof. reflexivity. Qed.

Example dirname_file : path.dirname "/tmp/X/app/src/app.ts" = "/tmp/X/app/src".
Proof. reflexivity. Qed.

Example dirname_trailing : path.dirname "/a//b//" = "/a/".
Proof. reflexivity. Qed.

Example dirname_double_root : path.dirname "//a" = "//".
Proof. reflexivity. Qed.

Example dirname_top : path.dirname "/a" = "/".
Proof. reflexivity. Qed.

Example dirname_bare : path.dirname "a" = ".".
Proof. reflexivity. Qed.

(** * Properties of the path functions *)

Module PathFacts.

Import Js path.

Lemma string_app_empty_r (s : string) : s +:+ "" = s.
Proof. induction s as [|c s IH]; [done |]. change (String c (s +:+ "") = String c s). by rewrite IH. Qed.

Lemma string_app_assoc (a b c : string) : (a +:+ b) +:+ c = a +:+ b +:+ c.
Proof.
  induction a as [|x a IH]; [done |].
  change (String x ((a +:+ b) +:+ c) = String x (a +:+ b +:+ c)). by rewrite IH.
Qed.

Lemma split_not_nil s : split s ≠ [].
Proof.
  destruct s as [|c s]; simpl; [done |].
  destruct (isSlash c); [done |]. by destruct (split s).
Qed.

Lemma split_slashFree s : Forall (λ x, slashFree x = true) (split s).
Proof.
  induction s as [|c s IH]; simpl.
  - by repeat constructor.
  - destruct (isSlash c) eqn:Hc.
    + by constructor.
    + destruct (split s) as [|x xs]; simpl.
      * repeat constructor. simpl. by rewrite Hc.
      * inversion IH; subst. constructor; [|done]. simpl. by rewrite Hc.
Qed.

Lemma split_of_slashFree s : slashFree s = true → split s = [s].
Proof.
  induction s as [|c s IH]; simpl; [done |].
  intros [Hc Hs]%andb_true_iff. apply negb_true_iff in Hc. rewrite Hc.
  by rewrite (IH Hs).
Qed.

Lemma split_app_slash a b : split (a +:+ String "/" b) = (split a ++ split b)%list.
Proof.
  induction a as [|c a IH]; simpl; [done |].
  destruct (isSlash c); rewrite IH; [done |].
  pose proof (split_not_nil a). by destruct (split a).
Qed.

Lemma split_concat (l : list string) :
  l ≠ [] → Forall (λ x, slashFree x = true) l → split (String.concat "/" l) = l.
Proof.
  induction l as [|x l IH]; [done |]. intros _ Hl. inversion Hl; subst.
  destruct l as [|y l].
  - simpl. by apply split_of_slashFree.
  - change (String.concat "/" (x :: y :: l)) with (x +:+ String "/" (String.concat "/" (y :: l))).
    rewrite split_app_slash, IH, split_of_slashFree; done.
Qed.

Lemma concat_snoc_empty (l : list string) :
  l ≠ [] → String.concat "/" (l ++ [""]) = String.concat "/" l +:+ "/".
Proof.
  induction l as [|x l IH]; [done |]. intros _. destruct l as [|y l].
  - done.
  - change (String.concat "/" ((x :: y :: l) ++ [""]))
      with (x +:+ String "/" (String.concat "/" ((y :: l) ++ [""]))).
    rewrite IH by done.
    change (String.concat "/" (x :: y :: l)) with (x +:+ String "/" (String.concat "/" (y :: l))).
    by rewrite string_app_assoc.
Qed.

(** *** [normalizeString] below the root *)

Lemma normalizeStep_name res seg :
  isName seg → normalizeStep false res seg = seg :: res.
Proof.
  intros (H1 & H2 & H3 & _). unfold normalizeStep.
  apply String.eqb_neq in H1, H2, H3. by rewrite H1, H2, H3.
Qed.

Lemma normalizeStep_empty res : normalizeStep false res "" = res.
Proof. done. Qed.

Lemma fold_names segs res :
  Forall isName segs →
  fold_left (normalizeStep false) segs res = (rev segs ++ res)%list.
Proof.
  revert res. induction segs as [|s segs IH]; intros res Hs; [done |].
  inversion Hs; subst. simpl. rewrite normalizeStep_name by done.
  rewrite IH by done. by rewrite <- app_assoc.
Qed.

Lemma normalizeStep_keeps_names res seg :
  slashFree seg = true → Forall isName res → Forall isName (normalizeStep false res seg).
Proof.
  intros Hseg Hres. unfold normalizeStep.
  destruct (String.eqb_spec seg ""); [done |].
  destruct (String.eqb_spec seg "."); [done |]. simpl.
  destruct (String.eqb_spec seg "..").
  - destruct res as [|l res]; [done |]. inversion Hres; subst.
    by destruct (String.eqb l "..").
  - by constructor.
Qed.

Lemma fold_keeps_names segs res :
  Forall (λ x, slashFree x = true) segs → Forall isName res →
  Forall isName (fold_left (normalizeStep false) segs res).
Proof.
  revert res. induction segs as [|s segs IH]; intros res Hs Hres; [done |].
  inversion Hs; subst. simpl. apply IH; [done |]. by apply normalizeStep_keeps_names.
Qed.

Lemma normalizeSegments_names p : Forall isName (normalizeSegments false (split p)).
Proof.
  unfold normalizeSegments. apply Forall_rev, fold_keeps_names; [apply split_slashFree | done].
Qed.

Lemma normalizeSegments_of_names segs :
  Forall isName segs → normalizeSegments false ("" :: segs ++ [""]) = segs.
Proof.
  intros Hs. unfold normalizeSegments.
  change (fold_left (normalizeStep false) ("" :: segs ++ [""]) [])
    with (fold_left (normalizeStep false) (segs ++ [""]) []).
  rewrite fold_left_app, (fold_names segs) by done.
  change (rev (rev segs ++ []) = segs).
  by rewrite app_nil_r, rev_involutive.
Qed.

Lemma names_slashFree segs : Forall isName segs → Forall (λ x, slashFree x = true) segs.
Proof. intros H. eapply Forall_impl; [exact H |]. by intros s (_ & _ & _ & ?). Qed.

(** *** Absolute paths in normal form *)

Lemma names_not_empty segs : Forall isName segs → filter (λ s, s ≠ "") segs = segs.
Proof.
  induction 1 as [|s segs (Hs & _) _ IH]; [done |].
  rewrite filter_cons_True by done. by rewrite IH.
Qed.

Lemma absolute_segments segs : Forall isName segs → segments (absolute segs) = segs.
Proof.
  intros Hs. unfold segments, absolute.
  change (filter (λ s, s ≠ "") ("" :: split (String.concat "/" segs)) = segs).
  rewrite filter_cons_False by naive_solver.
  destruct segs as [|s segs]; [done |].
  rewrite split_concat by (done || by apply names_slashFree).
  by apply names_not_empty.
Qed.

Lemma absolute_inj a b : Forall isName a → Forall isName b → absolute a = absolute b → a = b.
Proof. intros Ha Hb Hab. by rewrite <- (absolute_segments a), <- (absolute_segments b), Hab. Qed.

Lemma isAbsolute_not_empty p : isAbsolute p = true → String.eqb p "" = false.
Proof. by destruct p. Qed.

Lemma resolveLoop_absolute args acc :
  Exists (λ p, isAbsolute p = true) args → (resolveLoop args acc).2 = true.
Proof.
  revert acc. induction args as [|p args IH]; intros acc Hex; [by inversion Hex |].
  simpl. destruct (String.eqb p "") eqn:Hp.
  - apply IH. inversion Hex as [?? Habs|]; subst; [|done].
    by rewrite (isAbsolute_not_empty _ Habs) in Hp.
  - destruct (isAbsolute p) eqn:Habs; [done |]. apply IH.
    inversion Hex; subst; [congruence | done].
Qed.

(** With an absolute argument (or working directory), [resolve] returns an
    absolute path in normal form. *)
Lemma resolve_absolute cwd args :
  Exists (λ p, isAbsolute p = true) (cwd :: args) →
  ∃ segs, Forall isName segs ∧ resolve cwd args = absolute segs.
Proof.
  intros Hex. unfold resolve.
  assert ((resolveLoop (rev (cwd :: args)) "").2 = true) as Habs
    by by apply resolveLoop_absolute, Exists_rev.
  destruct (resolveLoop (rev (cwd :: args)) "") as [rp b].
  cbn [snd] in Habs. subst b.
  eexists. split; [|reflexivity]. apply normalizeSegments_names.
Qed.

Lemma resolve_of_absolute cwd segs :
  Forall isName segs → resolve cwd [absolute segs] = absolute segs.
Proof.
  intros Hs. unfold resolve.
  change (rev [cwd; absolute segs]) with [absolute segs; cwd].
  change (resolveLoop [absolute segs; cwd] "")
    with (absolute segs +:+ "/" +:+ "", true).
  cbv beta iota. change (negb true) with false. unfold normalizeString.
  assert (normalizeSegments false (split (absolute segs +:+ "/" +:+ "")) = segs) as ->; [|done].
  change (absolute segs +:+ "/" +:+ "") with (String "/" (String.concat "/" segs +:+ String "/" "")).
  change (split (String "/" ?x)) with ("" :: split x).
  rewrite split_app_slash. destruct segs as [|s segs]; [done |].
  rewrite split_concat by (done || by apply names_slashFree).
  by apply normalizeSegments_of_names.
Qed.

Lemma resolve_empty_last cwd base : resolve cwd [base; ""] = resolve cwd [base].
Proof. done. Qed.

(** *** [relative] from a base directory *)

Lemma stripCommon_split from to :
  ∃ common,
    from = (common ++ (stripCommon from to).1)%list ∧
    to = (common ++ (stripCommon from to).2)%list.
Proof.
  revert to. induction from as [|f from IH]; intros to; [by exists [] |].
  destruct to as [|t to]; [by exists [] |]. simpl.
  destruct (String.eqb_spec f t) as [->|]; [|by exists []].
  destruct (IH to) as (common & H1 & H2). exists (t :: common).
  simpl. by rewrite <- H1, <- H2.
Qed.

Lemma stripCommon_prefix from to :
  (stripCommon from to).1 = [] ↔ from `prefix_of` to.
Proof.
  revert to. induction from as [|f from IH]; intros to.
  - split; [intros _; apply prefix_nil | done].
  - destruct to as [|t to]; simpl.
    + split; [done | by intros ?%prefix_nil_not].
    + destruct (String.eqb_spec f t) as [->|Hne].
      * rewrite IH. split; [apply prefix_cons | apply prefix_cons_inv_2].
      * split; [done | by intros ?%prefix_cons_inv_1].
Qed.

Lemma stripCommon_below from rest :
  stripCommon from (from ++ rest) = ([], rest).
Proof.
  induction from as [|f from IH]; simpl; [by destruct rest |].
  by rewrite String.eqb_refl.
Qed.

Lemma relative_from_base cwd base segs :
  isAbsolute base = true → Forall isName segs →
  relative cwd base (absolute segs) =
    let '(up, down) := stripCommon (segments (resolve cwd [base])) segs in
    String.concat "/" (map (λ _, "..") up ++ down)%list.
Proof.
  intros Hbase Hsegs.
  destruct (resolve_absolute cwd [base]) as (bsegs & Hb & Hres).
  { apply Exists_cons_tl, Exists_cons_hd, Hbase. }
  unfold relative. rewrite Hres, resolve_of_absolute, !absolute_segments by done.
  destruct (String.eqb_spec base (absolute segs)) as [->|_].
  - rewrite resolve_of_absolute in Hres by done.
    apply absolute_inj in Hres; [|done..]. subst bsegs.
    rewrite <- (app_nil_r segs) at 2. by rewrite stripCommon_below.
  - destruct (String.eqb_spec (absolute bsegs) (absolute segs)) as [Heq|_]; [|done].
    apply absolute_inj in Heq; [|done..]. subst bsegs.
    rewrite <- (app_nil_r segs) at 2. by rewrite stripCommon_below.
Qed.

(** *** What the guard of [resolveSafeTarget] sees *)

Lemma string_prefix_cons a p b s :
  String.prefix (String a p) (String b s) = if ascii_dec a b then String.prefix p s else false.
Proof. done. Qed.

Lemma string_prefix_empty s : String.prefix "" s = true.
Proof. by destruct s. Qed.

Lemma names_startsWith s down :
  isName s → startsWith (String.concat "/" (s :: down)) ".." = startsWith s "..".
Proof.
  intros Hs. destruct down as [|t down]; [done |].
  change (String.concat "/" (s :: t :: down))
    with (s +:+ String "/" (String.concat "/" (t :: down))).
  destruct Hs as (_ & Hdot & _ & _). unfold startsWith.
  destruct s as [|c1 [|c2 s2]]; [done | | ].
  - change (String c1 "" +:+ ?x) with (String c1 x).
    rewrite !string_prefix_cons. destruct (ascii_dec "." c1) as [<-|]; done.
  - change (String c1 (String c2 s2) +:+ ?x) with (String c1 (String c2 (s2 +:+ x))).
    rewrite !string_prefix_cons. by rewrite !string_prefix_empty.
Qed.
Lemma name_first_char s : isName s → ∃ c s', s = String c s' ∧ isSlash c = false.
Proof.
  intros (Hne & _ & _ & Hfree). destruct s as [|c s']; [done |].
  exists c, s'. split; [done |]. simpl in Hfree.
  apply andb_true_iff in Hfree as [Hc _]. by apply negb_true_iff.
Qed.

Lemma names_not_absolute down :
  Forall isName down → isAbsolute (String.concat "/" down) = false.
Proof.
  destruct 1 as [|s down Hs _]; [done |].
  destruct (name_first_char s Hs) as (c & s' & -> & Hc).
  destruct down; done.
Qed.

Lemma up_startsWith (up down : list string) :
  up ≠ [] → startsWith (String.concat "/" (map (λ _, "..") up ++ down)%list) ".." = true.
Proof.
  destruct up as [|u up]; [done |]. intros _.
  change (map (λ _, "..") (u :: up) ++ down)%list
    with (".." :: (map (λ _ : string, "..") up ++ down))%list.
  unfold startsWith. destruct (map (λ _ : string, "..") up ++ down)%list; [done |].
  change (String.concat "/" (".." :: ?a :: ?b))
    with (String "." (String "." (String "/" (String.concat "/" (a :: b))))).
  by rewrite !string_prefix_cons, string_prefix_empty.
Qed.

Lemma segsPrefix_spec a b : segsPrefix a b = true ↔ a `prefix_of` b.
Proof.
  revert b. induction a as [|x a IH]; intros b; simpl.
  - split; [intros _; apply prefix_nil | done].
  - destruct b as [|y b].
    + split; [done | by intros ?%prefix_nil_not].
    + rewrite andb_true_iff, IH, String.eqb_eq. split.
      * intros [-> ?]. by apply prefix_cons.
      * intros H. split; [by eapply prefix_cons_inv_1 | by eapply prefix_cons_inv_2].
Qed.

End PathFacts.

(** * The path guard *)

Section Guard.

Import PathFacts.
Context (host : Host).

Lemma guard_relative inputPath baseDir :
  path.isAbsolute baseDir = true →
  ∃ segs, Forall isName segs ∧
    path.resolve (cwd host) [baseDir; inputPath] = absolute segs ∧
    path.segments (path.resolve (cwd host) [baseDir; inputPath]) = segs ∧
    path.relative (cwd host) baseDir (path.resolve (cwd host) [baseDir; inputPath]) =
      let '(up, down) :=
        path.stripCommon (path.segments (path.resolve (cwd host) [baseDir])) segs in
      String.concat "/" (map (λ _, "..") up ++ down)%list.
Proof.
  intros Hbase.
  destruct (resolve_absolute (cwd host) [baseDir; inputPath]) as (segs & Hs & Hres).
  { apply Exists_cons_tl, Exists_cons_hd, Hbase. }
  exists segs. rewrite Hres. repeat split; [done | by apply absolute_segments |].
  by apply relative_from_base.
Qed.

(** A path that leaves [baseDir] is refused. *)
Lemma resolveSafeTarget_outside inputPath baseDir :
  path.isAbsolute baseDir = true →
  inside (cwd host) baseDir inputPath = false →
  resolveSafeTarget host inputPath baseDir = Thrown (SecurityViolation inputPath).
Proof.
  intros Hbase Hout. unfold resolveSafeTarget, inside in *.
  destruct (guard_relative inputPath baseDir Hbase) as (segs & Hs & _ & Hsegs & ->).
  rewrite Hsegs in Hout.
  pose proof (stripCommon_prefix (path.segments (path.resolve (cwd host) [baseDir])) segs) as Hp.
  destruct (path.stripCommon _ segs) as [up down]. simpl in Hp.
  rewrite up_startsWith; [done |].
  intros Hup. apply Hp, segsPrefix_spec in Hup. congruence.
Qed.

(** A path that stays in [baseDir] is returned, resolved, unless its first
    segment below [baseDir] begins with two dots. *)
Lemma resolveSafeTarget_inside inputPath baseDir :
  path.isAbsolute baseDir = true →
  inside (cwd host) baseDir inputPath = true →
  resolveSafeTarget host inputPath baseDir =
    match firstBelow (cwd host) baseDir inputPath with
    | Some s =>
        if Js.startsWith s ".." then Thrown (SecurityViolation inputPath)
        else Returned (path.resolve (cwd host) [baseDir; inputPath])
    | None => Returned (path.resolve (cwd host) [baseDir; inputPath])
    end.
Proof.
  intros Hbase Hin. unfold resolveSafeTarget, inside, firstBelow in *.
  destruct (guard_relative inputPath baseDir Hbase) as (segs & Hs & _ & Hsegs & ->).
  rewrite Hsegs in *.
  apply segsPrefix_spec in Hin.
  pose proof (stripCommon_prefix (path.segments (path.resolve (cwd host) [baseDir])) segs) as Hp.
  pose proof (stripCommon_split (path.segments (path.resolve (cwd host) [baseDir])) segs)
    as (common & _ & Hdown).
  destruct (path.stripCommon _ segs) as [up down]. simpl in *.
  apply Hp in Hin. subst up. simpl.
  assert (Forall isName down) as Hnames.
  { rewrite Hdown in Hs. by apply Forall_app in Hs as [_ ?]. }
  rewrite names_not_absolute, orb_false_r by done.
  destruct down as [|s down]; [done |]. inversion Hnames; subst.
  rewrite names_startsWith by done. simpl. by destruct (Js.startsWith s "..").
Qed.

(** Nothing to resolve: the base directory, in normal form. *)
Lemma resolveSafeTarget_empty baseDir :
  path.isAbsolute baseDir = true →
  resolveSafeTarget host "" baseDir = Returned (path.resolve (cwd host) [baseDir]).
Proof.
  intros Hbase.
  assert (inside (cwd host) baseDir "" = true) as Hin.
  { unfold inside. rewrite resolve_empty_last. by apply segsPrefix_spec. }
  rewrite resolveSafeTarget_inside by done. unfold firstBelow.
  rewrite !resolve_empty_last.
  rewrite <- (app_nil_r (path.segments _)) at 2. by rewrite stripCommon_below.
Qed.

(** When the guard refuses: the path leaves [baseDir], or its first segment
    below [baseDir] begins with two dots. *)
Lemma resolveSafeTarget_Thrown_iff inputPath baseDir :
  path.isAbsolute baseDir = true →
  (∃ e, resolveSafeTarget host inputPath baseDir = Thrown e) ↔
  inside (cwd host) baseDir inputPath = false ∨
  ∃ s, firstBelow (cwd host) baseDir inputPath = Some s ∧ Js.startsWith s ".." = true.
Proof.
  intros Hbase. destruct (inside (cwd host) baseDir inputPath) eqn:Hin.
  - rewrite resolveSafeTarget_inside by done.
    destruct (firstBelow (cwd host) baseDir inputPath) as [s|].
    + destruct (Js.startsWith s "..") eqn:Hdots.
      * split; [intros _; right; by exists s | by eexists].
      * split; [by intros [? [=]] |]. intros [[=] | (? & [= <-] & ?)]. congruence.
    + split; [by intros [? [=]] | by intros [[=] | (? & [=] & _)]].
  - rewrite resolveSafeTarget_outside by done. split; [by left | by eexists].
Qed.

End Guard.

(** * The disk under the two materializers *)

Section Combinators.

Context {A B : Type}.

Lemma bind_run (m : Async A) (k : A → Async B) d :
  (m ≫= k) d =
    match m d with
    | (Returned a, d') => k a d'
    | (Thrown e, d') => (Thrown e, d')
    end.
Proof. done. Qed.

Lemma preserves_ret P (a : A) : preserves P (mret a).
Proof. intros d o d' HP [= <- <-]. done. Qed.

Lemma preserves_throw P e : preserves P (throw (A:=A) e).
Proof. intros d o d' HP [= <- <-]. done. Qed.

Lemma preserves_lift P (o : Outcome A) : preserves P (liftOutcome o).
Proof. intros d o' d' HP [= <- <-]. done. Qed.

Lemma preserves_bind P (m : Async A) (k : A → Async B) :
  preserves P m → (∀ a, preserves P (k a)) → preserves P (m ≫= k).
Proof.
  intros Hm Hk d o d' HP. rewrite bind_run.
  destruct (m d) as [[a|e] d1] eqn:Hmd.
  - apply Hk. by eapply Hm.
  - intros [= <- <-]. by eapply Hm.
Qed.

Lemma preserves_tryCatch P (m : Async A) (h : JsError → Async A) :
  preserves P m → (∀ e, preserves P (h e)) → preserves P (tryCatch m h).
Proof.
  intros Hm Hh d o d' HP. unfold tryCatch.
  destruct (m d) as [[a|e] d1] eqn:Hmd.
  - intros [= <- <-]. by eapply Hm.
  - apply Hh. by eapply Hm.
Qed.

End Combinators.

Section DiskFacts.

Context (host : Host).

Lemma errnoCode_EEXIST e : errnoCode e = "EEXIST" ↔ e = EEXIST.
Proof. split; [|by intros ->]. by destruct e as [| | | |[]]. Qed.

(** *** Nothing is removed or overwritten *)

Lemma mkdirp_subseteq d pre rest d' : mkdirp d pre rest = inr d' → d ⊆ d'.
Proof.
  revert d pre. induction rest as [|s rest IH]; intros d pre; simpl.
  - by intros [= ->].
  - destruct (d !! (pre ++ [s])%list) as [[|bytes]|] eqn:Hq; [by apply IH | done |].
    intros Hrec%IH. etrans; [|exact Hrec]. by apply insert_subseteq.
Qed.

Lemma fs_mkdir_subseteq p d0 : preserves (λ d, d0 ⊆ d) (fs_mkdir host p).
Proof.
  intros d o d' Hd. unfold fs_mkdir.
  destruct (negb (Js.nulFree p)); [by intros [= <- <-] |].
  destruct (fault host Mkdir p); [by intros [= <- <-] |].
  destruct (String.eqb p ""); [by intros [= <- <-] |].
  destruct (mkdirp d [] (path.segments p)) as [e|d1] eqn:Hm; intros [= <- <-]; [done |].
  etrans; [exact Hd |]. by eapply mkdirp_subseteq.
Qed.

Lemma fs_writeFile_subseteq p c d0 : preserves (λ d, d0 ⊆ d) (fs_writeFile host p c).
Proof.
  intros d o d' Hd. unfold fs_writeFile.
  destruct (negb (Js.nulFree p)); [by intros [= <- <-] |].
  destruct (fault host Open p); [by intros [= <- <-] |].
  destruct (String.eqb p ""); [by intros [= <- <-] |].
  destruct (Js.endsWithSlash p); [by intros [= <- <-] |].
  destruct (walkParents d [] (removelast (path.segments p))); [by intros [= <- <-] |].
  destruct (d !! path.segments p) eqn:Hq; [by intros [= <- <-] |].
  destruct (fault host Write p); intros [= <- <-];
    (etrans; [exact Hd |]); by apply insert_subseteq.
Qed.

(** *** Well-formedness is kept *)

Lemma wfDisk_insert d q n :
  wfDisk d → d !! q = None →
  (∀ q0 s, q = (q0 ++ [s])%list → q0 = [] ∨ d !! q0 = Some Dir) →
  wfDisk (<[q := n]> d).
Proof.
  intros Hwf Hq Hparent q1 s1 n1 Hin.
  destruct (decide (q = (q1 ++ [s1])%list)) as [Heq|Hne].
  - destruct (Hparent _ _ Heq) as [->|Hdir]; [by left | right].
    rewrite lookup_insert_ne; [done |]. intros ->. congruence.
  - rewrite lookup_insert_ne in Hin by done.
    destruct (Hwf _ _ _ Hin) as [->|Hdir]; [by left | right].
    rewrite lookup_insert_ne; [done |]. intros ->. congruence.
Qed.

Lemma wfDisk_above d q r n :
  wfDisk d → d !! (q ++ r)%list = Some n → r ≠ [] → q ≠ [] → d !! q = Some Dir.
Proof.
  intros Hwf. revert n. induction r as [|s r IH] using rev_ind; [done |].
  intros n Hin _ Hq. rewrite app_assoc in Hin.
  destruct (Hwf _ _ _ Hin) as [Hnil|Hdir].
  - by apply app_eq_nil in Hnil as [-> _].
  - destruct r as [|s' r]; [by rewrite app_nil_r in Hdir |]. by eapply IH.
Qed.

Lemma mkdirp_wf d pre rest d' :
  wfDisk d → pre = [] ∨ d !! pre = Some Dir → mkdirp d pre rest = inr d' → wfDisk d'.
Proof.
  revert d pre. induction rest as [|s rest IH]; intros d pre Hwf Hpre; simpl.
  - by intros [= <-].
  - destruct (d !! (pre ++ [s])%list) as [[|bytes]|] eqn:Hq; [| done |].
    + apply IH; [done | by right].
    + apply IH.
      * apply wfDisk_insert; [done..|]. by intros q0 s0 [-> _]%app_inj_tail.
      * right. by rewrite lookup_insert_eq.
Qed.

Lemma walkParents_None d pre rest :
  walkParents d pre rest = None → pre = [] ∨ d !! pre = Some Dir →
  (pre ++ rest)%list = [] ∨ d !! (pre ++ rest)%list = Some Dir.
Proof.
  revert pre. induction rest as [|s rest IH]; intros pre; simpl.
  - intros _. by rewrite app_nil_r.
  - destruct (d !! (pre ++ [s])%list) as [[|bytes]|] eqn:Hq; [| done..].
    intros Hw _. rewrite (app_assoc pre [s] rest : (pre ++ s :: rest = (pre ++ [s]) ++ rest)%list).
    apply IH; [done | by right].
Qed.

Lemma fs_mkdir_wf p : preserves wfDisk (fs_mkdir host p).
Proof.
  intros d o d' Hd. unfold fs_mkdir.
  destruct (negb (Js.nulFree p)); [by intros [= <- <-] |].
  destruct (fault host Mkdir p); [by intros [= <- <-] |].
  destruct (String.eqb p ""); [by intros [= <- <-] |].
  destruct (mkdirp d [] (path.segments p)) as [e|d1] eqn:Hm; intros [= <- <-]; [done |].
  eapply mkdirp_wf; [done | by left | done].
Qed.

Lemma fs_writeFile_wf p c : preserves wfDisk (fs_writeFile host p c).
Proof.
  intros d o d' Hd. unfold fs_writeFile.
  destruct (negb (Js.nulFree p)); [by intros [= <- <-] |].
  destruct (fault host Open p); [by intros [= <- <-] |].
  destruct (String.eqb p ""); [by intros [= <- <-] |].
  destruct (Js.endsWithSlash p); [by intros [= <- <-] |].
  destruct (walkParents d [] (removelast (path.segments p))) eqn:Hw; [by intros [= <- <-] |].
  destruct (d !! path.segments p) eqn:Hq; [by intros [= <- <-] |].
  assert (∀ n, wfDisk (<[path.segments p := n]> d)) as Hins.
  { intros n. apply wfDisk_insert; [done..|]. intros q0 s Hsegs.
    rewrite Hsegs, removelast_last in Hw.
    by apply (walkParents_None _ [] q0) in Hw; [|left]. }
  destruct (fault host Write p); intros [= <- <-]; apply Hins.
Qed.

End DiskFacts.

(** * The materializers and the orchestrator *)

Section Engine.

Context (host : Host) (PATTERNS : PatternType → PatternDefinition).

(** ** What every step keeps *)

Section Preserved.

Context (P : Disk → Prop).
Hypothesis mkdir_keeps : ∀ p, preserves P (fs_mkdir host p).
Hypothesis writeFile_keeps : ∀ p c, preserves P (fs_writeFile host p c).

Lemma ensureDirectory_preserves dirPath : preserves P (ensureDirectory host dirPath).
Proof. apply preserves_tryCatch; [done |]. intros e. apply preserves_throw. Qed.

Lemma ensureFile_preserves filePath c : preserves P (ensureFile host filePath c).
Proof.
  apply preserves_tryCatch.
  - apply preserves_bind; [done |]. intros _.
    apply preserves_bind; [done |]. intros _. apply preserves_ret.
  - intros e. case_match; [apply preserves_ret | apply preserves_throw].
Qed.

Lemma dirLoop_preserves root dirs acc : preserves P (dirLoop host root dirs acc).
Proof.
  revert acc. induction dirs as [|dir dirs IH]; intros acc; simpl.
  - apply preserves_ret.
  - apply preserves_bind; [apply ensureDirectory_preserves | done].
Qed.

Lemma fileLoop_preserves root fs cr sk : preserves P (fileLoop host root fs cr sk).
Proof.
  revert cr sk. induction fs as [|f fs IH]; intros cr sk; simpl.
  - apply preserves_ret.
  - apply preserves_bind; [apply ensureFile_preserves |]. by intros [].
Qed.

Lemma scaffoldProject_preserves inputPath patternType baseDir :
  preserves P (scaffoldProject host PATTERNS inputPath patternType baseDir).
Proof.
  apply preserves_bind; [apply preserves_lift |]. intros root.
  apply preserves_bind; [apply ensureDirectory_preserves |]. intros _.
  apply preserves_bind; [apply dirLoop_preserves |]. intros dirs.
  apply preserves_bind; [apply fileLoop_preserves |]. intros [cr sk].
  apply preserves_ret.
Qed.

End Preserved.

(** Whatever was on the disk is still there, unchanged. *)
Lemma scaffoldProject_subseteq inputPath patternType baseDir d o d' :
  scaffoldProject host PATTERNS inputPath patternType baseDir d = (o, d') → d ⊆ d'.
Proof.
  apply (scaffoldProject_preserves (λ x, d ⊆ x)); [| |done].
  - intros p. apply fs_mkdir_subseteq.
  - intros p c. apply fs_writeFile_subseteq.
Qed.

Lemma scaffoldProject_wf inputPath patternType baseDir d o d' :
  wfDisk d → scaffoldProject host PATTERNS inputPath patternType baseDir d = (o, d') →
  wfDisk d'.
Proof.
  apply (scaffoldProject_preserves wfDisk).
  - intros p. apply fs_mkdir_wf.
  - intros p c. apply fs_writeFile_wf.
Qed.

Lemma ensureFile_subseteq p c d o d' : ensureFile host p c d = (o, d') → d ⊆ d'.
Proof.
  apply (ensureFile_preserves (λ x, d ⊆ x)); [| |done].
  - intros q. apply fs_mkdir_subseteq.
  - intros q c'. apply fs_writeFile_subseteq.
Qed.

Lemma ensureDirectory_subseteq p d o d' : ensureDirectory host p d = (o, d') → d ⊆ d'.
Proof.
  apply (ensureDirectory_preserves (λ x, d ⊆ x)); [|done].
  intros q. apply fs_mkdir_subseteq.
Qed.

Lemma dirLoop_subseteq root dirs acc d o d' :
  dirLoop host root dirs acc d = (o, d') → d ⊆ d'.
Proof.
  apply (dirLoop_preserves (λ x, d ⊆ x)); [|done].
  intros q. apply fs_mkdir_subseteq.
Qed.

Lemma fileLoop_subseteq root fs cr sk d o d' :
  fileLoop host root fs cr sk d = (o, d') → d ⊆ d'.
Proof.
  apply (fileLoop_preserves (λ x, d ⊆ x)); [| |done].
  - intros q. apply fs_mkdir_subseteq.
  - intros q c'. apply fs_writeFile_subseteq.
Qed.

End Engine.

(** ** The two [node:fs] calls, case by case *)

Section Calls.

Context (host : Host).
Local Abbreviation createFile := (createFile host).

Lemma uvException_EEXIST en sc p :
  code (uvException host en sc p) = Some "EEXIST" → en = EEXIST.
Proof. intros [= Hcode]. by apply errnoCode_EEXIST. Qed.

Lemma fs_mkdir_Thrown p d e d' :
  fs_mkdir host p d = (Thrown e, d') →
  d' = d ∧
  (code e = Some "EEXIST" →
     e = uvException host EEXIST Mkdir p ∧
     Js.nulFree p = true ∧ fault host Mkdir p = None ∧ String.eqb p "" = false ∧
     mkdirp d [] (path.segments p) = inl EEXIST).
Proof.
  unfold fs_mkdir.
  destruct (Js.nulFree p) eqn:Hn; simpl; [|by intros [= <- <-]].
  destruct (fault host Mkdir p) eqn:Hf.
  { intros [= <- <-]. split; [done |]. by intros ?%uvException_EEXIST. }
  destruct (String.eqb p "") eqn:Hp.
  { intros [= <- <-]. split; [done |]. by intros ?%uvException_EEXIST. }
  destruct (mkdirp d [] (path.segments p)) as [en|d1] eqn:Hm; intros [= <- <-].
  split; [done |]. by intros ->%uvException_EEXIST.
Qed.

Lemma fs_mkdir_Returned p d u d' :
  fs_mkdir host p d = (Returned u, d') →
  Js.nulFree p = true ∧ fault host Mkdir p = None ∧ String.eqb p "" = false ∧
  mkdirp d [] (path.segments p) = inr d'.
Proof.
  unfold fs_mkdir.
  destruct (Js.nulFree p); simpl; [|done].
  destruct (fault host Mkdir p); [done |].
  destruct (String.eqb p ""); [done |].
  destruct (mkdirp d [] (path.segments p)) as [en|d1] eqn:Hm; by intros [= <- <-].
Qed.

Lemma fs_mkdir_run p d :
  Js.nulFree p = true → fault host Mkdir p = None → String.eqb p "" = false →
  fs_mkdir host p d =
    match mkdirp d [] (path.segments p) with
    | inl e => (Thrown (uvException host e Mkdir p), d)
    | inr d' => (Returned (), d')
    end.
Proof. intros Hn Hf Hp. unfold fs_mkdir. by rewrite Hn, Hf, Hp. Qed.

Lemma walkParents_not_EEXIST d pre rest : walkParents d pre rest ≠ Some EEXIST.
Proof.
  revert pre. induction rest as [|s rest IH]; intros pre; simpl; [done |].
  destruct (d !! (pre ++ [s])%list) as [[|?]|]; [apply IH | done..].
Qed.

(** A failing [writeFile] leaves the disk alone, or leaves the file it had
    opened with what was written of the content; and it fails with EEXIST
    only when something is at the path, and then leaves the disk alone. *)
Lemma fs_writeFile_Thrown p c d e d' :
  fs_writeFile host p c d = (Thrown e, d') →
  (d' = d ∨
   (d !! path.segments p = None ∧ is_Some (fault host Write p) ∧
    d' = <[path.segments p := File (written host p c)]> d)) ∧
  (code e = Some "EEXIST" →
     d' = d ∧ e = uvException host EEXIST Open p ∧
     Js.nulFree p = true ∧ fault host Open p = None ∧ String.eqb p "" = false ∧
     Js.endsWithSlash p = false ∧
     walkParents d [] (removelast (path.segments p)) = None ∧
     is_Some (d !! path.segments p)).
Proof.
  unfold fs_writeFile.
  destruct (Js.nulFree p) eqn:Hn; simpl; [|intros [= <- <-]; split; [by left | done]].
  destruct (fault host Open p).
  { intros [= <- <-]. split; [by left |]. by intros ?%uvException_EEXIST. }
  destruct (String.eqb p "").
  { intros [= <- <-]. split; [by left |]. by intros ?%uvException_EEXIST. }
  destruct (Js.endsWithSlash p).
  { intros [= <- <-]. split; [by left |]. by intros ?%uvException_EEXIST. }
  destruct (walkParents d [] (removelast (path.segments p))) as [en|] eqn:Hw.
  { intros [= <- <-]. split; [by left |]. intros ->%uvException_EEXIST.
    by destruct (walkParents_not_EEXIST _ _ _ Hw). }
  destruct (d !! path.segments p) eqn:Hq.
  { intros [= <- <-]. split; [by left |]. intros _. by repeat split. }
  destruct (fault host Write p) as [en|] eqn:Hfw; intros [= <- <-].
  split; [right; by repeat split |]. by intros ?%uvException_EEXIST.
Qed.

Lemma fs_writeFile_Returned p c d u d' :
  fs_writeFile host p c d = (Returned u, d') →
  Js.nulFree p = true ∧
  fault host Open p = None ∧ String.eqb p "" = false ∧ Js.endsWithSlash p = false ∧
  walkParents d [] (removelast (path.segments p)) = None ∧
  d !! path.segments p = None ∧ fault host Write p = None ∧
  d' = <[path.segments p := File c]> d.
Proof.
  unfold fs_writeFile.
  destruct (Js.nulFree p); simpl; [|done].
  destruct (fault host Open p); [done |].
  destruct (String.eqb p ""); [done |].
  destruct (Js.endsWithSlash p); [done |].
  destruct (walkParents d [] (removelast (path.segments p))); [done |].
  destruct (d !! path.segments p) eqn:Hq; [done |].
  destruct (fault host Write p); by intros [= <- <-].
Qed.

Lemma uvException_code en sc p :
  isErrnoException (uvException host en sc p) &&
    bool_decide (code (uvException host en sc p) = Some "EEXIST") =
  bool_decide (en = EEXIST).
Proof.
  unfold isErrnoException.
  change (code (uvException host en sc p)) with (Some (errnoCode en)).
  assert (bool_decide (is_Some (Some (errnoCode en))) = true) as ->
    by by apply bool_decide_eq_true_2.
  simpl. apply bool_decide_ext. rewrite <- (errnoCode_EEXIST en).
  split; [by intros [= ->] | by intros ->].
Qed.

(** ** [ensureDirectory] *)

Lemma ensureDirectory_Returned p d u d' :
  ensureDirectory host p d = (Returned u, d') ↔ fs_mkdir host p d = (Returned u, d').
Proof.
  unfold ensureDirectory, tryCatch.
  destruct (fs_mkdir host p d) as [[[]|e] d1]; [done |].
  split; intros [=].
Qed.

Lemma ensureDirectory_Thrown p d e d' :
  ensureDirectory host p d = (Thrown e, d') ↔
  ∃ cause, fs_mkdir host p d = (Thrown cause, d') ∧ e = DirectoryCreationError p cause.
Proof.
  unfold ensureDirectory, tryCatch.
  destruct (fs_mkdir host p d) as [[[]|cause] d1].
  - split; [done | by intros (? & [=] & _)].
  - split.
    + intros [= <- <-]. by eexists.
    + by intros (? & [= <- <-] & ->).
Qed.

(** ** [ensureFile] *)

Lemma ensureFile_run p c d :
  ensureFile host p c d =
    match createFile p c d with
    | (Returned b, d') => (Returned b, d')
    | (Thrown e, d') =>
        if isErrnoException e && bool_decide (code e = Some "EEXIST")
        then (Returned false, d')
        else (Thrown (FileCreationError p e), d')
    end.
Proof.
  unfold ensureFile, tryCatch. fold (createFile p c).
  destruct (createFile p c d) as [[b|e] d']; [done |]. by case_match.
Qed.

Lemma createFile_Returned p c d b d' :
  createFile p c d = (Returned b, d') ↔
  b = true ∧ ∃ d1, fs_mkdir host (path.dirname p) d = (Returned (), d1) ∧
                   fs_writeFile host p c d1 = (Returned (), d').
Proof.
  unfold createFile. rewrite bind_run. split.
  - destruct (fs_mkdir host (path.dirname p) d) as [[[]|e] d1] eqn:Hmk; [|done].
    rewrite bind_run.
    destruct (fs_writeFile host p c d1) as [[[]|e] d2] eqn:Hwr; [|done].
    intros [= <- <-]. eauto.
  - intros (-> & d1 & Hmk & Hwr). by rewrite Hmk, bind_run, Hwr.
Qed.

Lemma createFile_Thrown p c d e d' :
  createFile p c d = (Thrown e, d') ↔
  fs_mkdir host (path.dirname p) d = (Thrown e, d') ∨
  ∃ d1, fs_mkdir host (path.dirname p) d = (Returned (), d1) ∧
        fs_writeFile host p c d1 = (Thrown e, d').
Proof.
  unfold createFile. rewrite bind_run. split.
  - destruct (fs_mkdir host (path.dirname p) d) as [[[]|e0] d1] eqn:Hmk.
    + rewrite bind_run.
      destruct (fs_writeFile host p c d1) as [[[]|e1] d2] eqn:Hwr; [done |].
      intros [= <- <-]. eauto.
    + intros [= <- <-]. by left.
  - intros [Hmk | (d1 & Hmk & Hwr)]; rewrite Hmk; [done |].
    by rewrite bind_run, Hwr.
Qed.

End Calls.

(** ** The two loops and the whole call, when they return *)

Section Picked.

Lemma picked_sublist b flags fs : picked b flags fs `sublist_of` (path <$> fs).
Proof.
  revert fs. induction flags as [|x flags IH]; intros [|f fs]; simpl;
    try apply sublist_nil_l.
  destruct (Bool.eqb x b); [by apply sublist_skip | by apply sublist_cons].
Qed.

Lemma picked_length flags fs :
  length flags = length fs →
  length (picked true flags fs) + length (picked false flags fs) = length fs.
Proof.
  revert fs. induction flags as [|x flags IH]; intros [|f fs] Hlen; simpl in *; try done.
  specialize (IH fs ltac:(lia)). destruct x; simpl; lia.
Qed.

Lemma picked_Permutation flags fs :
  length flags = length fs →
  (picked true flags fs ++ picked false flags fs)%list ≡ₚ path <$> fs.
Proof.
  revert fs. induction flags as [|x flags IH]; intros [|f fs] Hlen; simpl in *; try done.
  specialize (IH fs ltac:(lia)). destruct x; simpl.
  - by constructor.
  - rewrite <- Permutation_middle. by constructor.
Qed.

Lemma elem_of_picked (P : FileEntry → bool → Prop) b flags fs p :
  Forall2 P fs flags → p ∈ picked b flags fs → ∃ f, f ∈ fs ∧ path f = p ∧ P f b.
Proof.
  induction 1 as [|f x fs flags HP _ IH]; simpl; [by intros ?%elem_of_nil |].
  destruct (Bool.eqb_spec x b) as [->|_].
  - intros [->|Hin]%elem_of_cons.
    + exists f. split; [left | done].
    + destruct (IH Hin) as (g & ? & ? & ?). exists g. split; [by right | done].
  - intros Hin. destruct (IH Hin) as (g & ? & ? & ?). exists g. split; [by right | done].
Qed.

Lemma picked_of_elem (P : FileEntry → bool → Prop) flags fs f :
  Forall2 P fs flags → f ∈ fs → ∃ b, P f b ∧ path f ∈ picked b flags fs.
Proof.
  induction 1 as [|g x fs flags HP _ IH]; [by intros ?%elem_of_nil |].
  intros [->|Hin]%elem_of_cons.
  - exists x. split; [done |]. simpl. rewrite Bool.eqb_reflx. left.
  - destruct (IH Hin) as (b & ? & ?). exists b. split; [done |]. simpl.
    destruct (Bool.eqb x b); [by right | done].
Qed.

End Picked.

Section Loops.

Context (host : Host) (PATTERNS : PatternType → PatternDefinition).
Local Abbreviation dirStep := (dirStep host).
Local Abbreviation fileStep := (fileStep host).

Lemma dirLoop_Returned root dirs acc d l d' :
  dirLoop host root dirs acc d = (Returned l, d') →
  l = (acc ++ dirs)%list ∧ Forall (λ dir, dirStep d d' (path.join [root; dir])) dirs.
Proof.
  revert acc d. induction dirs as [|dir dirs IH]; intros acc d; simpl.
  - intros [= <- <-]. by rewrite app_nil_r.
  - rewrite bind_run.
    destruct (ensureDirectory host (path.join [root; dir]) d) as [[[]|e] d1] eqn:Hdir; [|done].
    intros Hrest. pose proof (dirLoop_subseteq _ _ _ _ _ _ _ Hrest) as Hsub.
    pose proof (ensureDirectory_subseteq _ _ _ _ _ Hdir) as Hsub1.
    apply IH in Hrest as [-> Hall]. split; [by rewrite <- app_assoc |].
    constructor.
    + by exists d, d1.
    + eapply Forall_impl; [exact Hall |]. intros x (di & dj & ? & ? & ?).
      exists di, dj. split; [by etrans | done].
Qed.

Lemma fileLoop_Returned root fs cr sk d cr' sk' d' :
  fileLoop host root fs cr sk d = (Returned (cr', sk'), d') →
  ∃ flags, Forall2 (fileStep root d d') fs flags ∧
    cr' = (cr ++ picked true flags fs)%list ∧ sk' = (sk ++ picked false flags fs)%list.
Proof.
  revert cr sk d. induction fs as [|f fs IH]; intros cr sk d; simpl.
  - intros [= <- <- <-]. exists []. by rewrite !app_nil_r.
  - rewrite bind_run.
    destruct (ensureFile host (path.join [root; path f]) (content f) d)
      as [[b|e] d1] eqn:Hfile; [|done].
    pose proof (ensureFile_subseteq _ _ _ _ _ _ Hfile) as Hsub1.
    assert (∀ flags, Forall2 (fileStep root d1 d') fs flags → d1 ⊆ d' →
                     Forall2 (fileStep root d d') (f :: fs) (b :: flags)) as Hcons.
    { intros flags Hall Hsub. constructor; [by exists d, d1 |].
      eapply Forall2_impl; [exact Hall |]. intros x y (di & dj & ? & ? & ?).
      exists di, dj. split; [by etrans | done]. }
    destruct b; intros Hrest; pose proof (fileLoop_subseteq _ _ _ _ _ _ _ _ Hrest) as Hsub;
      apply IH in Hrest as (flags & Hall & -> & ->).
    + exists (true :: flags). split; [by apply Hcons |]. simpl. by rewrite <- !app_assoc.
    + exists (false :: flags). split; [by apply Hcons |]. simpl. by rewrite <- !app_assoc.
Qed.

Lemma scaffoldProject_Returned inputPath patternType baseDir d r d' :
  scaffoldProject host PATTERNS inputPath patternType baseDir d = (Returned r, d') →
  ∃ root flags,
    resolveSafeTarget host inputPath baseDir = Returned root ∧
    r = {| resolvedTarget := root;
           createdDirs := directories (PATTERNS patternType);
           createdFiles := picked true flags (files (PATTERNS patternType));
           skippedFiles := picked false flags (files (PATTERNS patternType));
           resultLabel := label (PATTERNS patternType) |} ∧
    dirStep d d' root ∧
    Forall (λ dir, dirStep d d' (path.join [root; dir])) (directories (PATTERNS patternType)) ∧
    Forall2 (fileStep root d d') (files (PATTERNS patternType)) flags.
Proof.
  unfold scaffoldProject. rewrite bind_run. unfold liftOutcome at 1.
  destruct (resolveSafeTarget host inputPath baseDir) as [root|e]; [|done].
  rewrite bind_run.
  destruct (ensureDirectory host root d) as [[[]|e] d1] eqn:Hroot; [|done].
  rewrite bind_run.
  destruct (dirLoop host root _ [] d1) as [[dirs|e] d2] eqn:Hdirs; [|done].
  rewrite bind_run.
  destruct (fileLoop host root _ [] [] d2) as [[[cr sk]|e] d3] eqn:Hfiles; [|done].
  intros [= <- <-].
  pose proof (ensureDirectory_subseteq _ _ _ _ _ Hroot) as H01.
  pose proof (dirLoop_subseteq _ _ _ _ _ _ _ Hdirs) as H12.
  pose proof (fileLoop_subseteq _ _ _ _ _ _ _ _ Hfiles) as H23.
  apply dirLoop_Returned in Hdirs as [-> Hdirs].
  apply fileLoop_Returned in Hfiles as (flags & Hfiles & -> & ->).
  assert (d ⊆ d2) as H02 by by etrans.
  exists root, flags. repeat split.
  - exists d, d1. split_and!; [done | by transitivity d2 | done].
  - eapply Forall_impl; [exact Hdirs |]. intros x (di & dj & ? & ? & ?).
    exists di, dj. split_and!; [by transitivity d1 | by transitivity d2 | done].
  - eapply Forall2_impl; [exact Hfiles |]. intros x y (di & dj & ? & ? & ?).
    exists di, dj. split_and!; [by transitivity d2 | done..].
Qed.

End Loops.

(** ** Running a step again on a later disk *)

Section Again.

Context (host : Host).

Lemma mkdirp_again d pre rest d1 d2 :
  mkdirp d pre rest = inr d1 → d1 ⊆ d2 → mkdirp d2 pre rest = inr d2.
Proof.
  revert d pre. induction rest as [|s rest IH]; intros d pre; simpl; [done |].
  destruct (d !! (pre ++ [s])%list) as [[|bytes]|] eqn:Hq; [| done |]; intros Hrec Hsub.
  - pose proof (mkdirp_subseteq _ _ _ _ Hrec) as Hd.
    rewrite (lookup_weaken d d2 _ _ Hq) by by etrans. by eapply IH.
  - pose proof (mkdirp_subseteq _ _ _ _ Hrec) as Hd.
    rewrite (lookup_weaken (<[(pre ++ [s])%list := Dir]> d) d2 (pre ++ [s])%list Dir).
    + by eapply IH.
    + by rewrite lookup_insert_eq.
    + by etrans.
Qed.

Lemma mkdirp_EEXIST_file d pre rest :
  mkdirp d pre rest = inl EEXIST →
  rest ≠ [] ∧ ∃ bytes, d !! (pre ++ rest)%list = Some (File bytes).
Proof.
  revert d pre. induction rest as [|s rest IH]; intros d pre; simpl; [done |].
  destruct (d !! (pre ++ [s])%list) as [[|bytes]|] eqn:Hq.
  - intros (_ & bytes & Hfile)%IH. split; [done |]. exists bytes.
    by rewrite <- app_assoc in Hfile.
  - destruct rest; [|done]. intros _. split; [done |]. by exists bytes.
  - intros (Hrest & bytes & Hfile)%IH. split; [done |]. exists bytes.
    rewrite <- app_assoc in Hfile. simpl in Hfile.
    rewrite lookup_insert_ne in Hfile; [done |].
    intros Heq. apply (f_equal length) in Heq. rewrite !length_app in Heq.
    simpl in Heq. destruct rest; [done |]. simpl in Heq. lia.
Qed.

Lemma mkdirp_file_EEXIST d pre rest bytes :
  wfDisk d → rest ≠ [] → d !! (pre ++ rest)%list = Some (File bytes) →
  mkdirp d pre rest = inl EEXIST.
Proof.
  intros Hwf. revert pre. induction rest as [|s rest IH]; intros pre; [done |].
  intros _ Hfile. simpl. destruct rest as [|s' rest].
  - by rewrite Hfile.
  - rewrite (app_assoc pre [s] (s' :: rest) : (pre ++ s :: s' :: rest = (pre ++ [s]) ++ s' :: rest)%list)
      in Hfile.
    rewrite (wfDisk_above d (pre ++ [s])%list (s' :: rest) _ Hwf Hfile); [by apply IH | done |].
    by destruct pre.
Qed.

Lemma walkParents_again d pre rest d2 :
  walkParents d pre rest = None → d ⊆ d2 → walkParents d2 pre rest = None.
Proof.
  revert pre. induction rest as [|s rest IH]; intros pre; simpl; [done |].
  destruct (d !! (pre ++ [s])%list) as [[|bytes]|] eqn:Hq; [| done..].
  intros Hw Hsub. rewrite (lookup_weaken d d2 _ _ Hq Hsub). by apply IH.
Qed.

Lemma fs_mkdir_again p d u d1 d2 :
  fs_mkdir host p d = (Returned u, d1) → d1 ⊆ d2 → fs_mkdir host p d2 = (Returned (), d2).
Proof.
  intros (Hn & Hf & Hp & Hm)%fs_mkdir_Returned Hsub.
  by rewrite fs_mkdir_run, (mkdirp_again _ _ _ _ _ Hm Hsub).
Qed.

Lemma ensureDirectory_again p d u d1 d2 :
  ensureDirectory host p d = (Returned u, d1) → d1 ⊆ d2 →
  ensureDirectory host p d2 = (Returned (), d2).
Proof.
  intros Hdir%ensureDirectory_Returned Hsub. apply ensureDirectory_Returned.
  by eapply fs_mkdir_again.
Qed.

Lemma fs_writeFile_blocked p c d :
  Js.nulFree p = true →
  fault host Open p = None → String.eqb p "" = false → Js.endsWithSlash p = false →
  walkParents d [] (removelast (path.segments p)) = None →
  is_Some (d !! path.segments p) →
  fs_writeFile host p c d = (Thrown (uvException host EEXIST Open p), d).
Proof.
  intros Hnul Hf Hp Hs Hw [n Hn]. unfold fs_writeFile. by rewrite Hnul, Hf, Hp, Hs, Hw, Hn.
Qed.

Lemma ensureFile_of_EEXIST p c d sc q :
  createFile host p c d = (Thrown (uvException host EEXIST sc q), d) →
  ensureFile host p c d = (Returned false, d).
Proof. intros Hc. rewrite ensureFile_run, Hc, uvException_code. done. Qed.

(** Once [ensureFile] has returned, it finds the path taken on every later
    disk, and leaves that disk alone. *)
Lemma ensureFile_again p c d b d1 d2 :
  wfDisk d2 → ensureFile host p c d = (Returned b, d1) → d1 ⊆ d2 →
  ensureFile host p c d2 = (Returned false, d2).
Proof.
  intros Hwf Hrun Hsub. rewrite ensureFile_run in Hrun.
  destruct (createFile host p c d) as [[b0|e] dx] eqn:Hc.
  - injection Hrun as <- <-.
    apply createFile_Returned in Hc as (-> & dm & Hmk & Hwr).
    apply fs_writeFile_Returned in Hwr as (Hnul & Hf & Hp & Hs & Hw & Hnone & _ & ->).
    assert (dm ⊆ d2) as Hdm by (etrans; [by apply insert_subseteq | done]).
    apply (ensureFile_of_EEXIST _ _ _ Open p), createFile_Thrown. right.
    exists d2. split; [by eapply fs_mkdir_again |].
    apply fs_writeFile_blocked; [done..| by eapply walkParents_again |].
    exists (File c). eapply lookup_weaken; [|exact Hsub]. by rewrite lookup_insert_eq.
  - destruct (isErrnoException e && bool_decide (code e = Some "EEXIST")) eqn:Hcode; [|done].
    injection Hrun as <- <-.
    apply andb_true_iff in Hcode as [_ Hcode%bool_decide_eq_true].
    apply createFile_Thrown in Hc as [Hmk | (dm & Hmk & Hwr)].
    + apply fs_mkdir_Thrown in Hmk as (-> & Hen).
      destruct (Hen Hcode) as (-> & Hnul & Hf & Hp & Hm).
      apply mkdirp_EEXIST_file in Hm as (Hrest & bytes & Hfile).
      apply (ensureFile_of_EEXIST _ _ _ Mkdir (path.dirname p)), createFile_Thrown. left.
      rewrite fs_mkdir_run by done.
      by rewrite (mkdirp_file_EEXIST d2 [] _ bytes Hwf Hrest (lookup_weaken _ _ _ _ Hfile Hsub)).
    + pose proof (fs_mkdir_subseteq host _ d _ _ _ (reflexivity d) Hmk) as Hdm.
      apply fs_writeFile_Thrown in Hwr as (_ & Hen).
      destruct (Hen Hcode) as (-> & -> & Hnul & Hf & Hp & Hs & Hw & [n Hn]).
      apply (ensureFile_of_EEXIST _ _ _ Open p), createFile_Thrown. right.
      exists d2. split; [by eapply fs_mkdir_again |].
      apply fs_writeFile_blocked; [done..| by eapply walkParents_again |].
      exists n. by eapply lookup_weaken.
Qed.

Lemma dirLoop_settled root dirs acc d2 :
  Forall (λ dir, ensureDirectory host (path.join [root; dir]) d2 = (Returned (), d2)) dirs →
  dirLoop host root dirs acc d2 = (Returned (acc ++ dirs)%list, d2).
Proof.
  revert acc. induction dirs as [|dir dirs IH]; intros acc Hall; simpl.
  - by rewrite app_nil_r.
  - inversion Hall as [|?? Hdir Hrest]; subst. rewrite bind_run, Hdir, IH by done.
    by rewrite <- app_assoc.
Qed.

Lemma fileLoop_settled root fs cr sk d2 :
  Forall (λ f, ensureFile host (path.join [root; path f]) (content f) d2
               = (Returned false, d2)) fs →
  fileLoop host root fs cr sk d2 = (Returned (cr, (sk ++ (path <$> fs))%list), d2).
Proof.
  revert sk. induction fs as [|f fs IH]; intros sk Hall; simpl.
  - by rewrite app_nil_r.
  - inversion Hall as [|?? Hfile Hrest]; subst. rewrite bind_run, Hfile, IH by done.
    by rewrite <- app_assoc.
Qed.

End Again.

(** ** The call, when it throws *)

Section Failures.

Context (host : Host) (PATTERNS : PatternType → PatternDefinition).

Lemma code_test e :
  isErrnoException e && bool_decide (code e = Some "EEXIST") = true ↔ code e = Some "EEXIST".
Proof.
  unfold isErrnoException. rewrite andb_true_iff, !bool_decide_eq_true.
  split; [by intros [_ ?] |]. intros Hc. split; [|done]. rewrite Hc. by eexists.
Qed.

Lemma ensureFile_true p c d d' :
  ensureFile host p c d = (Returned true, d') ↔ createFile host p c d = (Returned true, d').
Proof.
  rewrite ensureFile_run. destruct (createFile host p c d) as [[b|e] dx]; [done |].
  by destruct (isErrnoException e && bool_decide (code e = Some "EEXIST")).
Qed.

Lemma ensureFile_false p c d d' :
  ensureFile host p c d = (Returned false, d') ↔
  ∃ cause, createFile host p c d = (Thrown cause, d') ∧ code cause = Some "EEXIST".
Proof.
  rewrite ensureFile_run. destruct (createFile host p c d) as [[b|e] dx] eqn:Hc.
  - split; [|by intros (? & [=] & _)]. intros [= -> <-].
    by apply createFile_Returned in Hc as [? _].
  - destruct (isErrnoException e && bool_decide (code e = Some "EEXIST")) eqn:Ht.
    + apply code_test in Ht. split; [intros [= <-]; eauto |]. by intros (? & [= <- <-] & _).
    + split; [done |]. intros (? & [= <- <-] & Hcode). apply code_test in Hcode. congruence.
Qed.

Lemma ensureFile_Thrown p c d e d' :
  ensureFile host p c d = (Thrown e, d') ↔
  ∃ cause, createFile host p c d = (Thrown cause, d') ∧ code cause ≠ Some "EEXIST" ∧
           e = FileCreationError p cause.
Proof.
  rewrite ensureFile_run. destruct (createFile host p c d) as [[b|e0] dx] eqn:Hc.
  - split; [done | by intros (? & [=] & _)].
  - destruct (isErrnoException e0 && bool_decide (code e0 = Some "EEXIST")) eqn:Ht.
    + apply code_test in Ht. split; [done |]. by intros (? & [= <- <-] & ? & _).
    + split.
      * intros [= <- <-]. exists e0. split_and!; [done | | done].
        intros Hcode%code_test. congruence.
      * by intros (? & [= <- <-] & _ & ->).
Qed.


Lemma fileLoop_Thrown root fs cr sk d e d' :
  fileLoop host root fs cr sk d = (Thrown e, d') →
  ∃ f cause di, f ∈ fs ∧ d ⊆ di ∧
    createFile host (path.join [root; path f]) (content f) di = (Thrown cause, d') ∧
    code cause ≠ Some "EEXIST" ∧
    e = FileCreationError (path.join [root; path f]) cause.
Proof.
  revert cr sk d. induction fs as [|f fs IH]; intros cr sk d; simpl; [done |].
  rewrite bind_run.
  destruct (ensureFile host (path.join [root; path f]) (content f) d) as [[b|e0] d1] eqn:Hfile.
  - pose proof (ensureFile_subseteq _ _ _ _ _ _ Hfile) as Hsub.
    destruct b; intros (g & cause & di & ? & ? & ?)%IH; exists g, cause, di;
      (split; [by right |]); (split; [by etrans | done]).
  - intros [= <- <-]. apply ensureFile_Thrown in Hfile as (cause & ? & ? & ->).
    exists f, cause, d. split; [left | done].
Qed.


End Failures.

(** ** Facts the properties share *)

Section Shared.

Context (host : Host).

Lemma ensureFile_true_fresh p c d d' :
  ensureFile host p c d = (Returned true, d') →
  d !! path.segments p = None ∧ d' !! path.segments p = Some (File c).
Proof.
  intros (_ & dm & Hmk & Hwr)%ensureFile_true%createFile_Returned.
  pose proof (fs_mkdir_subseteq host _ d _ _ _ (reflexivity d) Hmk) as Hdm.
  apply fs_writeFile_Returned in Hwr as (_ & _ & _ & _ & _ & Hnone & _ & ->).
  split; [by eapply lookup_weaken_None | by rewrite lookup_insert_eq].
Qed.

Lemma startsWith_app (p rest : string) : Js.startsWith (p +:+ rest) p = true.
Proof.
  unfold Js.startsWith. induction p as [|a p IH]; [apply PathFacts.string_prefix_empty |].
  change (String a p +:+ rest) with (String a (p +:+ rest)).
  rewrite PathFacts.string_prefix_cons. by destruct (ascii_dec a a).
Qed.



Lemma kindOfMessage_file filePath cause :
  kindOfMessage (message (FileCreationError filePath cause)) = Some FileKind.
Proof.
  unfold kindOfMessage.
  change (message (FileCreationError filePath cause))
    with ("Failed to create file '" +:+ filePath +:+ "': " +:+ message cause).
  by rewrite startsWith_app.
Qed.

Lemma fs_mkdir_fails p d e :
  (fs_mkdir host p d).1 = Thrown e → fs_mkdir host p d = (Thrown e, d).
Proof.
  destruct (fs_mkdir host p d) as [o d'] eqn:Hmk. simpl. intros ->.
  by apply fs_mkdir_Thrown in Hmk as [-> _].
Qed.

Lemma ensureDirectory_fails p d e :
  (ensureDirectory host p d).1 = Thrown e → ensureDirectory host p d = (Thrown e, d).
Proof.
  destruct (ensureDirectory host p d) as [o d'] eqn:Hdir. simpl. intros ->.
  pose proof Hdir as (cause & Hmk & _)%ensureDirectory_Thrown.
  by apply fs_mkdir_Thrown in Hmk as [-> _].
Qed.

Lemma scaffoldProject_guard_Thrown PATTERNS inputPath patternType baseDir e d :
  resolveSafeTarget host inputPath baseDir = Thrown e →
  scaffoldProject host PATTERNS inputPath patternType baseDir d = (Thrown e, d).
Proof.
  intros Hguard. unfold scaffoldProject. rewrite bind_run. unfold liftOutcome at 1.
  by rewrite Hguard.
Qed.

Lemma scaffoldProject_root_Thrown PATTERNS inputPath patternType baseDir root e d d' :
  resolveSafeTarget host inputPath baseDir = Returned root →
  ensureDirectory host root d = (Thrown e, d') →
  scaffoldProject host PATTERNS inputPath patternType baseDir d = (Thrown e, d').
Proof.
  intros Hguard Hroot. unfold scaffoldProject. rewrite bind_run. unfold liftOutcome at 1.
  by rewrite Hguard, bind_run, Hroot.
Qed.

Lemma wfDisk_empty : wfDisk ∅.
Proof. intros q s n Hq. by rewrite lookup_empty in Hq. Qed.

Lemma wfDisk_emptyBase : wfDisk emptyBase.
Proof.
  unfold emptyBase. apply wfDisk_insert; [apply wfDisk_insert | |].
  - apply wfDisk_empty.
  - done.
  - intros q0 s [<- _]%(app_inj_tail [] q0 "tmp" s). by left.
  - done.
  - intros q0 s [<- _]%(app_inj_tail ["tmp"] q0 "X" s). by right.
Qed.

End Shared.

(** * The properties of the scaffolding core *)

(** ** Path guard *)

(** C1, at the input where the code departs from it: against [/tmp/X], the
    name [..foo] resolves to [/tmp/X/..foo], a path inside [/tmp/X], and
    [resolveSafeTarget] refuses it with a security violation, on every
    host. *)
Theorem C1_dotted_name_refused (host : Host) :
  path.resolve (cwd host) ["/tmp/X"; "..foo"] = "/tmp/X/..foo" ∧
  inside (cwd host) "/tmp/X" "..foo" = true ∧
  path.relative (cwd host) "/tmp/X" "/tmp/X/..foo" = "..foo" ∧
  resolveSafeTarget host "..foo" "/tmp/X" = Thrown (SecurityViolation "..foo").
Proof.
  assert (path.isAbsolute "/tmp/X" = true) as Hbase by done.
  assert (inside (cwd host) "/tmp/X" "..foo" = true) as Hin by done.
  split_and!; [done | done | done |].
  by rewrite (resolveSafeTarget_inside host "..foo" "/tmp/X" Hbase Hin).
Qed.

(** C2, at an input where the code departs from it: against [/tmp/X], the
    path [..hidden/app] resolves to [/tmp/X/..hidden/app], inside [/tmp/X];
    the relative path from [/tmp/X] is [..hidden/app], whose first segment is
    a name and not the parent-directory marker; and [resolveSafeTarget]
    raises the security violation all the same, on every host.  So the guard
    does not fail exactly when the resolution escapes.  Of every absolute
    [baseDir] this much holds: a path whose resolution leaves [baseDir] is
    refused, and [scaffoldProject] then throws with the disk untouched; and
    the guard refuses exactly when the resolution leaves [baseDir] or the
    first segment below [baseDir] begins with two dots. *)
Theorem C2_refused_without_escape (host : Host) :
  (path.resolve (cwd host) ["/tmp/X"; "..hidden/app"] = "/tmp/X/..hidden/app" ∧
   inside (cwd host) "/tmp/X" "..hidden/app" = true ∧
   path.relative (cwd host) "/tmp/X" "/tmp/X/..hidden/app" = "..hidden/app" ∧
   firstBelow (cwd host) "/tmp/X" "..hidden/app" = Some "..hidden" ∧
   resolveSafeTarget host "..hidden/app" "/tmp/X"
   = Thrown (SecurityViolation "..hidden/app")) ∧
  ∀ inputPath baseDir,
    path.isAbsolute baseDir = true →
    (inside (cwd host) baseDir inputPath = false →
       resolveSafeTarget host inputPath baseDir = Thrown (SecurityViolation inputPath) ∧
       ∀ (PATTERNS : PatternType → PatternDefinition) patternType d,
         scaffoldProject host PATTERNS inputPath patternType baseDir d
         = (Thrown (SecurityViolation inputPath), d)) ∧
    ((∃ e, resolveSafeTarget host inputPath baseDir = Thrown e) ↔
       inside (cwd host) baseDir inputPath = false ∨
       ∃ s, firstBelow (cwd host) baseDir inputPath = Some s ∧ Js.startsWith s ".." = true).
Proof.
  split.
  - assert (path.isAbsolute "/tmp/X" = true) as Hbase by done.
    assert (inside (cwd host) "/tmp/X" "..hidden/app" = true) as Hin by done.
    split_and!; [done | done | done | done |].
    by rewrite (resolveSafeTarget_inside host "..hidden/app" "/tmp/X" Hbase Hin).
  - intros inputPath baseDir Hbase. split.
    + intros Hout.
      pose proof (resolveSafeTarget_outside host inputPath baseDir Hbase Hout) as Hthrown.
      split; [done |]. intros PATTERNS patternType d. by apply scaffoldProject_guard_Thrown.
    + by apply resolveSafeTarget_Thrown_iff.
Qed.

(** The three escapes the tests try, against [/tmp/X]. *)
Example escape_parent (host : Host) :
  resolveSafeTarget host ".." "/tmp/X" = Thrown (SecurityViolation "..").
Proof. by apply resolveSafeTarget_outside. Qed.

Example escape_two_up (host : Host) :
  resolveSafeTarget host "../../etc" "/tmp/X" = Thrown (SecurityViolation "../../etc").
Proof. by apply resolveSafeTarget_outside. Qed.

Example escape_absolute (host : Host) :
  resolveSafeTarget host "/etc/passwd" "/tmp/X" = Thrown (SecurityViolation "/etc/passwd").
Proof. by apply resolveSafeTarget_outside. Qed.

(** C10: with an absolute [baseDir], [resolveSafeTarget] returns on the
    empty [inputPath]: it returns [baseDir] in normal form, which is
    [baseDir] itself when [baseDir] is in normal form already; only the
    input schema of the transport refuses the empty path. *)
Theorem C10_empty_input_allowed (host : Host) (baseDir : string) :
  path.isAbsolute baseDir = true →
  resolveSafeTarget host "" baseDir = Returned (path.resolve (cwd host) [baseDir]) ∧
  (path.resolve (cwd host) [baseDir] = baseDir →
     resolveSafeTarget host "" baseDir = Returned baseDir) ∧
  ScaffoldInputSchema_parse "" = None ∧
  (∀ p, p ≠ "" → ScaffoldInputSchema_parse p = Some p).
Proof.
  intros Hbase. pose proof (resolveSafeTarget_empty host baseDir Hbase) as Hempty.
  split_and!; [done | intros Heq; by rewrite Hempty, Heq | done |].
  intros [|c p] Hp; [done |]. unfold ScaffoldInputSchema_parse.
  rewrite bool_decide_eq_true_2; [done |]. simpl. lia.
Qed.

Lemma C10_empty_input_allowed_witness :
  path.isAbsolute "/tmp/X" = true ∧
  resolveSafeTarget quietHost "" "/tmp/X" = Returned "/tmp/X" ∧
  ScaffoldInputSchema_parse "" = None.
Proof.
  pose proof (C10_empty_input_allowed quietHost "/tmp/X" eq_refl) as (_ & H & Hschema & _).
  split; [reflexivity |]. split; [exact (H eq_refl) | exact Hschema].
Defined.

(** ** Orchestrator *)

(** C3: when a first call of [scaffoldProject] has returned (started on a
    well-formed disk, an empty root among them), the same call on the disk it
    left returns with no created file, every file of the pattern skipped, in
    order, the same created directories, and the disk as it was. *)
Theorem C3_second_call_skips_all (host : Host) (PATTERNS : PatternType → PatternDefinition)
    (inputPath : string) (patternType : PatternType) (baseDir : string)
    (d0 d1 : Disk) (r1 : ScaffoldResult) :
  wfDisk d0 →
  scaffoldProject host PATTERNS inputPath patternType baseDir d0 = (Returned r1, d1) →
  ∃ r2,
    scaffoldProject host PATTERNS inputPath patternType baseDir d1 = (Returned r2, d1) ∧
    createdFiles r2 = [] ∧
    skippedFiles r2 = path <$> files (PATTERNS patternType) ∧
    length (skippedFiles r2) = length (files (PATTERNS patternType)) ∧
    createdDirs r2 = createdDirs r1.
Proof.
  intros Hwf Hrun.
  pose proof (scaffoldProject_wf _ _ _ _ _ _ _ _ Hwf Hrun) as Hwf1.
  apply scaffoldProject_Returned in Hrun as (root & flags & Hres & -> & Hroot & Hdirs & Hfiles).
  destruct Hroot as (di & dj & _ & Hj & Hstep).
  assert (Forall (λ dir, ensureDirectory host (path.join [root; dir]) d1 = (Returned (), d1))
            (directories (PATTERNS patternType))) as Hdirs1.
  { eapply Forall_impl; [exact Hdirs |]. intros dir (xi & xj & _ & ? & ?).
    by eapply ensureDirectory_again. }
  assert (Forall (λ f, ensureFile host (path.join [root; path f]) (content f) d1
                       = (Returned false, d1)) (files (PATTERNS patternType))) as Hfiles1.
  { clear -Hfiles Hwf1. induction Hfiles as [|f b fs bs (xi & xj & _ & ? & ?) _ IH];
      constructor; [by eapply ensureFile_again | done]. }
  eexists. split.
  - unfold scaffoldProject. rewrite bind_run. unfold liftOutcome at 1. rewrite Hres.
    rewrite bind_run, (ensureDirectory_again host root di () dj d1 Hstep Hj).
    rewrite bind_run, (dirLoop_settled host root _ [] d1 Hdirs1).
    rewrite bind_run, (fileLoop_settled host root _ [] [] d1 Hfiles1).
    reflexivity.
  - simpl. split_and!; [done | done | by rewrite length_fmap | done].
Qed.

Lemma C3_second_call_skips_all_witness :
  ∃ r1 d1 r2,
    scaffoldProject quietHost scenarioCatalogue "app" layered "/tmp/X" emptyBase
    = (Returned r1, d1) ∧
    createdFiles r1 = ["src/app.ts"] ∧
    scaffoldProject quietHost scenarioCatalogue "app" layered "/tmp/X" d1 = (Returned r2, d1) ∧
    createdFiles r2 = [] ∧
    skippedFiles r2 = ["src/app.ts"] ∧
    createdDirs r2 = createdDirs r1.
Proof.
  destruct (scaffoldProject quietHost scenarioCatalogue "app" layered "/tmp/X" emptyBase)
    as [o d1] eqn:Hrun.
  assert (∃ r1, o = Returned r1 ∧ createdFiles r1 = ["src/app.ts"]) as (r1 & -> & Hcreated).
  { assert (o = (scaffoldProject quietHost scenarioCatalogue "app" layered "/tmp/X" emptyBase).1)
      as -> by by rewrite Hrun.
    vm_compute. by eexists. }
  destruct (C3_second_call_skips_all quietHost scenarioCatalogue "app" layered "/tmp/X"
              emptyBase d1 r1 wfDisk_emptyBase Hrun) as (r2 & H2 & Hc & Hs & _ & Hd).
  exists r1, d1, r2. split_and!; done.
Defined.

(** C4: a file that is at a target path before [scaffoldProject] runs holds
    the same bytes after the run, returned or thrown; when the call returns,
    the file's relative path is among the skipped files; and [ensureFile] on
    that path never returns [true] nor changes the bytes: the write is refused
    where the file exists. *)
Theorem C4_existing_file_kept (host : Host) (PATTERNS : PatternType → PatternDefinition)
    (inputPath : string) (patternType : PatternType) (baseDir root : string)
    (f : FileEntry) (bytes : string) (d d' : Disk) (o : Outcome ScaffoldResult) :
  resolveSafeTarget host inputPath baseDir = Returned root →
  f ∈ files (PATTERNS patternType) →
  readFile d (path.join [root; path f]) = Some bytes →
  scaffoldProject host PATTERNS inputPath patternType baseDir d = (o, d') →
  readFile d' (path.join [root; path f]) = Some bytes ∧
  (∀ r, o = Returned r → path f ∈ skippedFiles r) ∧
  (∀ c o1 d1, ensureFile host (path.join [root; path f]) c d = (o1, d1) →
     o1 ≠ Returned true ∧ readFile d1 (path.join [root; path f]) = Some bytes).
Proof.
  intros Hroot Hf Hread Hrun.
  assert (d !! path.segments (path.join [root; path f]) = Some (File bytes)) as Hthere.
  { unfold readFile in Hread. by repeat case_match; simplify_eq. }
  assert (∀ dx, d ⊆ dx → readFile dx (path.join [root; path f]) = Some bytes) as Hkept.
  { intros dx Hsub. unfold readFile. by rewrite (lookup_weaken _ _ _ _ Hthere Hsub). }
  split_and!.
  - apply Hkept. by eapply scaffoldProject_subseteq.
  - intros r ->.
    apply scaffoldProject_Returned in Hrun as (root' & flags & Hres & -> & _ & _ & Hfiles).
    rewrite Hroot in Hres. injection Hres as <-.
    destruct (picked_of_elem _ _ _ _ Hfiles Hf) as (b & (di & dj & Hdi & _ & Hstep) & Hin).
    destruct b; [|done].
    apply ensureFile_true_fresh in Hstep as [Hnone _].
    by rewrite (lookup_weaken _ _ _ _ Hthere Hdi) in Hnone.
  - intros c o1 d1 Hstep. split.
    + intros ->. apply ensureFile_true_fresh in Hstep as [Hnone _]. congruence.
    + apply Hkept. by eapply ensureFile_subseteq.
Qed.

Lemma C4_existing_file_kept_witness :
  readFile seededBase "/tmp/X/app/src/app.ts" = Some "mine" ∧
  ∃ r d',
    scaffoldProject quietHost scenarioCatalogue "app" layered "/tmp/X" seededBase
    = (Returned r, d') ∧
    readFile d' "/tmp/X/app/src/app.ts" = Some "mine" ∧
    "src/app.ts" ∈ skippedFiles r.
Proof.
  split; [reflexivity |].
  destruct (scaffoldProject quietHost scenarioCatalogue "app" layered "/tmp/X" seededBase)
    as [o d'] eqn:Hrun.
  assert (∃ r, o = Returned r) as (r & ->).
  { assert (o = (scaffoldProject quietHost scenarioCatalogue "app" layered "/tmp/X" seededBase).1)
      as -> by by rewrite Hrun.
    vm_compute. by eexists. }
  destruct (C4_existing_file_kept quietHost scenarioCatalogue "app" layered "/tmp/X"
              "/tmp/X/app" {| path := "src/app.ts"; content := "export {}" |} "mine"
              seededBase d' (Returned r) eq_refl ltac:(left) eq_refl Hrun)
    as (Hkept & Hskipped & _).
  exists r, d'. split_and!; [done | exact Hkept | exact (Hskipped r eq_refl)].
Defined.

(** C5: when [scaffoldProject] returns, every path among the created files
    is the path of an entry of the pattern, was not on the disk before the
    call, and now holds exactly the content of that entry. *)
Theorem C5_created_files_hold_content (host : Host)
    (PATTERNS : PatternType → PatternDefinition)
    (inputPath : string) (patternType : PatternType) (baseDir : string)
    (d d' : Disk) (r : ScaffoldResult) (p : string) :
  scaffoldProject host PATTERNS inputPath patternType baseDir d = (Returned r, d') →
  p ∈ createdFiles r →
  ∃ f, f ∈ files (PATTERNS patternType) ∧ path f = p ∧
       readFile d (path.join [resolvedTarget r; p]) = None ∧
       readFile d' (path.join [resolvedTarget r; p]) = Some (content f).
Proof.
  intros (root & flags & _ & -> & _ & _ & Hfiles)%scaffoldProject_Returned Hp. simpl in *.
  destruct (elem_of_picked _ _ _ _ _ Hfiles Hp)
    as (f & Hf & <- & (di & dj & Hdi & Hdj & Hstep)).
  exists f. split_and!; [done | done | |].
  - apply ensureFile_true_fresh in Hstep as [Hnone _]. unfold readFile.
    by rewrite (lookup_weaken_None _ _ _ Hnone Hdi).
  - apply ensureFile_true_fresh in Hstep as [_ Hsome]. unfold readFile.
    by rewrite (lookup_weaken _ _ _ _ Hsome Hdj).
Qed.

Lemma C5_created_files_hold_content_witness :
  ∃ r d',
    scaffoldProject quietHost scenarioCatalogue "app" layered "/tmp/X" emptyBase
    = (Returned r, d') ∧
    createdFiles r = ["src/app.ts"] ∧
    ∃ f, f ∈ files scenarioPattern ∧ path f = "src/app.ts" ∧
         readFile d' (path.join [resolvedTarget r; "src/app.ts"]) = Some (content f).
Proof.
  destruct (scaffoldProject quietHost scenarioCatalogue "app" layered "/tmp/X" emptyBase)
    as [o d'] eqn:Hrun.
  assert (∃ r, o = Returned r ∧ createdFiles r = ["src/app.ts"]) as (r & -> & Hcreated).
  { assert (o = (scaffoldProject quietHost scenarioCatalogue "app" layered "/tmp/X" emptyBase).1)
      as -> by by rewrite Hrun.
    vm_compute. by eexists. }
  assert ("src/app.ts" ∈ createdFiles r) as Hin by (rewrite Hcreated; left).
  destruct (C5_created_files_hold_content quietHost scenarioCatalogue "app" layered "/tmp/X"
              emptyBase d' r "src/app.ts" Hrun Hin) as (f & Hf & Hpath & _ & Hread).
  exists r, d'. split_and!; [done | done |]. by exists f.
Defined.

(** C7: when [scaffoldProject] returns, whatever was on the disk, the created
    directories are the directories of the pattern as declared; and the
    files of the pattern, taken in the order of their declaration, are
    split between the created files and the skipped files, each list
    keeping that order: there is one flag per file, the created files are
    the paths of the files flagged [true] and the skipped files those of the
    files flagged [false]. *)
Theorem C7_declared_order (host : Host) (PATTERNS : PatternType → PatternDefinition)
    (inputPath : string) (patternType : PatternType) (baseDir : string)
    (d d' : Disk) (r : ScaffoldResult) :
  scaffoldProject host PATTERNS inputPath patternType baseDir d = (Returned r, d') →
  createdDirs r = directories (PATTERNS patternType) ∧
  (∃ flags,
     length flags = length (files (PATTERNS patternType)) ∧
     createdFiles r = picked true flags (files (PATTERNS patternType)) ∧
     skippedFiles r = picked false flags (files (PATTERNS patternType))) ∧
  createdFiles r `sublist_of` (path <$> files (PATTERNS patternType)) ∧
  skippedFiles r `sublist_of` (path <$> files (PATTERNS patternType)).
Proof.
  intros (root & flags & _ & -> & _ & _ & Hfiles)%scaffoldProject_Returned. simpl.
  apply Forall2_length in Hfiles.
  split_and!; [done | by exists flags | apply picked_sublist..].
Qed.

Lemma C7_declared_order_witness :
  let run := scaffoldProject quietHost orderCatalogue "app" layered "/tmp/X" orderBase in
  ∃ r, run.1 = Returned r ∧
    createdDirs r = ["src/b"; "src/a"] ∧
    createdFiles r = ["z.txt"; "src/b/k.ts"] ∧
    skippedFiles r = ["src/a/m.ts"; "a.txt"] ∧
    ∃ flags,
      length flags = 4 ∧
      createdFiles r = picked true flags (files orderPattern) ∧
      skippedFiles r = picked false flags (files orderPattern).
Proof.
  intros run.
  assert (run.1 = Returned {| resolvedTarget := "/tmp/X/app";
                              createdDirs := ["src/b"; "src/a"];
                              createdFiles := ["z.txt"; "src/b/k.ts"];
                              skippedFiles := ["src/a/m.ts"; "a.txt"];
                              resultLabel := "Order" |}) as H1 by (vm_compute; reflexivity).
  assert (run = (Returned {| resolvedTarget := "/tmp/X/app";
                             createdDirs := ["src/b"; "src/a"];
                             createdFiles := ["z.txt"; "src/b/k.ts"];
                             skippedFiles := ["src/a/m.ts"; "a.txt"];
                             resultLabel := "Order" |}, run.2)) as Hrun
    by (rewrite <- H1; apply surjective_pairing).
  destruct (C7_declared_order quietHost orderCatalogue "app" layered "/tmp/X" orderBase run.2 _
              Hrun) as (Hdirs & Hflags & _ & _).
  eexists. split; [exact H1 |]. split; [exact Hdirs |].
  split; [reflexivity |]. split; [reflexivity | exact Hflags].
Defined.

(** C9: when [scaffoldProject] returns, the created files followed by the
    skipped files are the paths of the pattern's files, each once, up to
    order; so the two lengths add up to the number of files of the pattern. *)
Theorem C9_created_or_skipped (host : Host) (PATTERNS : PatternType → PatternDefinition)
    (inputPath : string) (patternType : PatternType) (baseDir : string)
    (d d' : Disk) (r : ScaffoldResult) :
  scaffoldProject host PATTERNS inputPath patternType baseDir d = (Returned r, d') →
  (createdFiles r ++ skippedFiles r)%list ≡ₚ path <$> files (PATTERNS patternType) ∧
  length (createdFiles r) + length (skippedFiles r) = length (files (PATTERNS patternType)).
Proof.
  intros (root & flags & _ & -> & _ & _ & Hfiles)%scaffoldProject_Returned. simpl.
  apply Forall2_length in Hfiles.
  split; [by apply picked_Permutation | by apply picked_length].
Qed.

Lemma C9_created_or_skipped_witness :
  ∃ r d',
    scaffoldProject quietHost scenarioCatalogue "app" layered "/tmp/X" seededBase
    = (Returned r, d') ∧
    length (createdFiles r) + length (skippedFiles r) = 1.
Proof.
  destruct (scaffoldProject quietHost scenarioCatalogue "app" layered "/tmp/X" seededBase)
    as [o d'] eqn:Hrun.
  assert (∃ r, o = Returned r) as (r & ->).
  { assert (o = (scaffoldProject quietHost scenarioCatalogue "app" layered "/tmp/X" seededBase).1)
      as -> by by rewrite Hrun.
    vm_compute. by eexists. }
  exists r, d'. split; [done |].
  exact (proj2 (C9_created_or_skipped quietHost scenarioCatalogue "app" layered "/tmp/X"
                  seededBase d' r Hrun)).
Defined.

(** ** File materializer *)

(** C6, at the input where the code departs from it: [/tmp/X/app/src] is a
    regular file, nothing is at [/tmp/X/app/src/app.ts], the recursive
    [mkdir] of the parent fails with EEXIST, and [ensureFile] returns [false]
    instead of failing; [scaffoldProject] then reports the file as skipped,
    and no file is at its path afterwards. *)
Theorem C6_parent_is_a_file :
  srcIsFile !! ["tmp"; "X"; "app"; "src"] = Some (File "notes") ∧
  readFile srcIsFile "/tmp/X/app/src/app.ts" = None ∧
  fs_mkdir quietHost (path.dirname "/tmp/X/app/src/app.ts") srcIsFile
  = (Thrown (uvException quietHost EEXIST Mkdir "/tmp/X/app/src"), srcIsFile) ∧
  ensureFile quietHost "/tmp/X/app/src/app.ts" "export {}" srcIsFile
  = (Returned false, srcIsFile) ∧
  (scaffoldProject quietHost filesOnlyCatalogue "app" layered "/tmp/X" srcIsFile).1
  = Returned {| resolvedTarget := "/tmp/X/app";
                createdDirs := [];
                createdFiles := [];
                skippedFiles := ["src/app.ts"];
                resultLabel := "Files" |} ∧
  readFile (scaffoldProject quietHost filesOnlyCatalogue "app" layered "/tmp/X" srcIsFile).2
           "/tmp/X/app/src/app.ts" = None.
Proof.
  assert (fs_mkdir quietHost (path.dirname "/tmp/X/app/src/app.ts") srcIsFile
          = (Thrown (uvException quietHost EEXIST Mkdir "/tmp/X/app/src"), srcIsFile)) as Hmk.
  { apply fs_mkdir_fails. vm_compute. reflexivity. }
  split_and!; [by vm_compute | by vm_compute | exact Hmk | | by vm_compute | by vm_compute].
  apply (ensureFile_of_EEXIST quietHost _ _ _ Mkdir "/tmp/X/app/src"), createFile_Thrown.
  by left.
Qed.

(** ** Failures *)





(** ** The end-to-end scenario *)

(** Scaffolding the scenario pattern into the fresh root [/tmp/X/app]. *)
Example scenario_fresh_root :
  let run := scaffoldProject quietHost scenarioCatalogue "app" layered "/tmp/X" emptyBase in
  run.1 = Returned {| resolvedTarget := "/tmp/X/app";
                      createdDirs := ["src/components"];
                      createdFiles := ["src/app.ts"];
                      skippedFiles := [];
                      resultLabel := "Scenario" |} ∧
  run.2 !! ["tmp"; "X"; "app"; "src"; "components"] = Some Dir ∧
  readFile run.2 "/tmp/X/app/src/app.ts" = Some "export {}".
Proof. split_and!; vm_compute; reflexivity. Qed.

(** The same call once more, on the disk the first one left. *)
Example scenario_second_run :
  let first := scaffoldProject quietHost scenarioCatalogue "app" layered "/tmp/X" emptyBase in
  (scaffoldProject quietHost scenarioCatalogue "app" layered "/tmp/X" first.2).1
  = Returned {| resolvedTarget := "/tmp/X/app";
                createdDirs := ["src/components"];
                createdFiles := [];
                skippedFiles := ["src/app.ts"];
                resultLabel := "Scenario" |}.
Proof. vm_compute. reflexivity. Qed.

(** A file whose parent path the pattern itself made a file: the second entry
    is reported as skipped, and nothing is at its path. *)
Example file_then_file_below :
  let catalogue (_ : PatternType) :=
    {| label := "Clash"; directories := [];
       files := [ {| path := "a"; content := "1" |}; {| path := "a/b"; content := "2" |} ] |} in
  let run := scaffoldProject quietHost catalogue "app" layered "/tmp/X" emptyBase in
  run.1 = Returned {| resolvedTarget := "/tmp/X/app";
                      createdDirs := [];
                      createdFiles := ["a"];
                      skippedFiles := ["a/b"];
                      resultLabel := "Clash" |} ∧
  readFile run.2 "/tmp/X/app/a/b" = None.
Proof. split; vm_compute; reflexivity. Qed.

(** A target whose name holds a NUL character: [mkdir] refuses the path
    before any system call, and the scaffolding fails on the target with the
    disk untouched. *)
Example nul_in_path_refused :
  let name := "a" +:+ String Ascii.zero "b" in
  scaffoldProject quietHost scenarioCatalogue name layered "/tmp/X" emptyBase
  = (Thrown (DirectoryCreationError ("/tmp/X/" +:+ name)
               (invalidPath quietHost ("/tmp/X/" +:+ name))), emptyBase).
Proof.
  intros name.
  apply (scaffoldProject_root_Thrown quietHost _ _ _ _ ("/tmp/X/" +:+ name)); [by vm_compute |].
  apply ensureDirectory_fails. vm_compute. reflexivity.
Qed.

(** A write that fails after the open: [ensureFile] throws, the file it
    opened stays, empty, and the next call finds it there and returns
    [false]. *)
Example failed_write_leaves_file :
  let first := ensureFile fullDiskHost "/tmp/X/app/a.txt" "one" emptyBase in
  first.1 = Thrown (FileCreationError "/tmp/X/app/a.txt"
                      (uvException fullDiskHost (HostFault ENOSPC) Write "/tmp/X/app/a.txt")) ∧
  readFile first.2 "/tmp/X/app/a.txt" = Some "" ∧
  (ensureFile fullDiskHost "/tmp/X/app/a.txt" "one" first.2).1 = Returned false ∧
  readFile (ensureFile fullDiskHost "/tmp/X/app/a.txt" "one" first.2).2 "/tmp/X/app/a.txt"
  = Some "".
Proof. split_and!; vm_compute; reflexivity. Qed.

(** * More of server.ts: the catalogue, the tool handler, and what the
    engine leaves alone *)

(** ** Definitions *)

(** A relative path of names only: no empty segment (so no leading, doubled
    or trailing slash), no [.] and no [..]. *)
Definition isNameb (s : string) : bool :=
  negb (String.eqb s "") && negb (String.eqb s ".") && negb (String.eqb s "..").

Definition plainRelative (p : string) : bool := forallb isNameb (Js.split p).

(** [d'] is [d] with entries added, each of them allowed by [A]. *)
Definition adds (A : list string → Node → Prop) (d d' : Disk) : Prop :=
  d ⊆ d' ∧ ∀ k n, d !! k = None → d' !! k = Some n → A k n.

(** What a call of [scaffoldProject] with the target [root] may add: the
    directories down to [root], to a directory of the pattern and to the
    directory of a file of the pattern, and the files of the pattern, each
    with its content or, where its write failed, with what the host had
    written of it. *)
Definition scaffoldAdds (host : Host) (root : string) (pattern : PatternDefinition)
    (k : list string) (n : Node) : Prop :=
  (n = Dir ∧ k `prefix_of` path.segments root) ∨
  (∃ dir, dir ∈ directories pattern ∧
     n = Dir ∧ k `prefix_of` path.segments (path.join [root; dir])) ∨
  (∃ f, f ∈ files pattern ∧
     ((n = Dir ∧ k `prefix_of` path.segments (path.dirname (path.join [root; path f]))) ∨
      (k = path.segments (path.join [root; path f]) ∧
       (n = File (content f) ∨
        n = File (written host (path.join [root; path f]) (content f)))))).

(** The calls of [node:fs] that [scaffoldProject] makes for the target
    [root] when none of them fails, in their order: [mkdir] for the target
    and for each directory of the pattern, then for each file [mkdir] for
    its directory and the open and the write of [writeFile]. *)
Definition requests (root : string) (pattern : PatternDefinition) : list (Syscall * string) :=
  ((Mkdir, root)
   :: ((λ dir, (Mkdir, path.join [root; dir])) <$> directories pattern)
   ++ (files pattern ≫= λ f,
         [ (Mkdir, path.dirname (path.join [root; path f]));
           (Open, path.join [root; path f]);
           (Write, path.join [root; path f]) ]))%list.

(** A line feed, the ['\n'] of the source. *)
Definition LF : string := String (ascii_of_nat 10) "".

(** [ARCHITECTURE_DESCRIPTION] *)
Definition ARCHITECTURE_DESCRIPTION : string :=
  String.concat LF
    [ "Layered (Standard):";
      "- Structure: /public, /src/components, /hooks, /services, /pages, /styles, /utils, /assets";
      "- Pros: Simple mental model, minimal ceremony, fast to onboard";
      "- Cons: Feature boundaries are loose; can grow into a monolith";
      "- Best for: Small apps and prototypes";
      "";
      "Feature-Based (Modular):";
      "- Structure: /public, /features/<feature> with internal components/hooks/api, /shared, /assets";
      "- Pros: Clear ownership by feature, scales with teams, easier refactors";
      "- Cons: Requires discipline in shared layers";
      "- Best for: Medium-to-large apps with multiple domains";
      "";
      "Atomic Design:";
      "- Structure: /public, /atoms, /molecules, /organisms, /templates, /pages, /assets";
      "- Pros: Strong design-system alignment, reusable UI building blocks";
      "- Cons: Can feel heavy for logic-heavy domains";
      "- Best for: Design-system heavy products";
      "";
      "Clean Architecture (Backend-Agnostic):";
      "- Structure: /public, /backend (entities/usecases/interfaces), /frontend (components/pages), /shared, /assets";
      "- Pros: Separation of concerns, testable core logic, backend-agnostic, long-term maintainability";
      "- Cons: More boilerplate and concepts to manage";
      "- Best for: Enterprise apps with complex business logic, full-stack applications";
      "- Note: Backend folder structure works with any backend language (.NET, Java, Python, Node.js)" ].

(** *** The catalogue [PATTERNS]

    Labels, directories and file paths are those of the source, in its
    order.  The contents of the files are template literals and results of
    [JSON.stringify]; they are left to the parameter [contents], by pattern
    and by position in the list of files. *)

Definition patternLabel (patternType : PatternType) : string :=
  match patternType with
  | layered => "Layered (Standard)"
  | feature => "Feature-Based (Modular)"
  | atomic => "Atomic Design"
  | clean => "Clean Architecture (Backend-Agnostic)"
  end.

Definition patternDirectories (patternType : PatternType) : list string :=
  match patternType with
  | layered =>
      ["public"; "src/components"; "src/hooks"; "src/services"; "src/pages"; "src/store";
       "src/styles"; "src/utils"; "src/config"; "src/assets/images"; "src/assets/icons";
       "src/assets/fonts"; "tests/unit"; "tests/integration"; "tests/e2e";
       ".github/workflows"]
  | feature =>
      ["public"; "src/features/auth/components"; "src/features/auth/hooks";
       "src/features/auth/api"; "src/features/dashboard/components";
       "src/features/dashboard/hooks"; "src/features/dashboard/api"; "src/shared/components";
       "src/shared/hooks"; "src/shared/services"; "src/shared/utils"; "src/shared/types";
       "src/assets/images"; "src/assets/icons"; "src/assets/fonts"]
  | atomic =>
      ["public"; "src/components/atoms"; "src/components/molecules";
       "src/components/organisms"; "src/components/templates"; "src/pages"; "src/styles";
       "src/hooks"; "src/services"; "src/utils"; "src/assets/images"; "src/assets/icons";
       "src/assets/fonts"]
  | clean =>
      ["public"; "src/backend/entities"; "src/backend/usecases"; "src/backend/interfaces";
       "src/backend/repositories"; "src/backend/services"; "src/backend/mappers";
       "src/frontend/components"; "src/frontend/viewmodels"; "src/frontend/pages";
       "src/frontend/hooks"; "src/shared/utils"; "src/shared/constants"; "src/shared/types";
       "src/assets/images"; "src/assets/icons"; "src/assets/fonts"]
  end.

Definition patternFilePaths (patternType : PatternType) : list string :=
  match patternType with
  | layered =>
      ["src/components/index.ts"; "src/hooks/index.ts"; "src/services/index.ts";
       "src/services/api.ts"; "src/pages/index.ts"; "src/store/index.ts";
       "src/styles/index.ts"; "src/utils/index.ts"; "src/config/index.ts";
       "src/assets/images/.gitkeep"; "src/assets/icons/.gitkeep"; "src/assets/fonts/.gitkeep";
       "tests/unit/.gitkeep"; "tests/integration/.gitkeep"; "tests/e2e/.gitkeep";
       "tests/setup.ts"; "src/types.ts"; "src/App.tsx"; "src/main.tsx"; "package.json";
       "tsconfig.json"; "tsconfig.node.json"; "vite.config.ts"; "public/index.html";
       "public/vite.svg"; ".gitignore"; ".env.example"; "Dockerfile"; "nginx.conf";
       ".github/workflows/ci.yml"; "README.md"]
  | feature =>
      ["src/assets/images/.gitkeep"; "src/assets/icons/.gitkeep"; "src/assets/fonts/.gitkeep";
       "src/features/auth/index.ts"; "src/features/auth/components/index.ts";
       "src/features/auth/hooks/index.ts"; "src/features/auth/api/index.ts";
       "src/features/dashboard/index.ts"; "src/features/dashboard/components/index.ts";
       "src/features/dashboard/hooks/index.ts"; "src/features/dashboard/api/index.ts";
       "src/shared/components/index.ts"; "src/shared/hooks/index.ts";
       "src/shared/services/index.ts"; "src/shared/utils/index.ts";
       "src/shared/types/index.ts"; "src/App.tsx"; "src/main.tsx"; "package.json";
       "tsconfig.json"; "tsconfig.node.json"; "vite.config.ts"; "public/index.html";
       "public/vite.svg"; ".gitignore"; "README.md"]
  | atomic =>
      ["src/assets/images/.gitkeep"; "src/assets/icons/.gitkeep"; "src/assets/fonts/.gitkeep";
       "src/components/atoms/index.ts"; "src/components/molecules/index.ts";
       "src/components/organisms/index.ts"; "src/components/templates/index.ts";
       "src/pages/index.ts"; "src/styles/index.ts"; "src/hooks/index.ts";
       "src/services/index.ts"; "src/utils/index.ts"; "src/types.ts"; "src/App.tsx";
       "src/main.tsx"; "package.json"; "tsconfig.json"; "tsconfig.node.json";
       "vite.config.ts"; "public/index.html"; "public/vite.svg"; ".gitignore"; "README.md"]
  | clean =>
      ["src/assets/images/.gitkeep"; "src/assets/icons/.gitkeep"; "src/assets/fonts/.gitkeep";
       "src/backend/entities/index.ts"; "src/backend/usecases/index.ts";
       "src/backend/interfaces/index.ts"; "src/backend/repositories/index.ts";
       "src/backend/services/index.ts"; "src/backend/mappers/index.ts";
       "src/frontend/components/index.ts"; "src/frontend/viewmodels/index.ts";
       "src/frontend/pages/index.ts"; "src/frontend/hooks/index.ts";
       "src/shared/utils/index.ts"; "src/shared/constants/index.ts";
       "src/shared/types/index.ts"; "src/App.tsx"; "src/main.tsx"; "package.json";
       "tsconfig.json"; "tsconfig.node.json"; "vite.config.ts"; "public/index.html";
       "public/vite.svg"; ".gitignore"; "README.md"]
  end.

Definition PATTERNS (contents : PatternType → nat → string) (patternType : PatternType)
  : PatternDefinition :=
  {| label := patternLabel patternType;
     directories := patternDirectories patternType;
     files := imap (λ i p, {| path := p; content := contents patternType i |})
                   (patternFilePaths patternType) |}.

(** *** [path.basename], of one argument *)

Module posix.

Fixpoint takeWhile (f : ascii → bool) (l : list ascii) : list ascii :=
  match l with
  | c :: l' => if f c then c :: takeWhile f l' else []
  | [] => []
  end.

(** From the end: the trailing slashes, then the characters up to the next
    slash. *)
Definition basename (p : string) : string :=
  string_of_list_ascii
    (rev (takeWhile (λ c, negb (Js.isSlash c))
            (path.dropWhile Js.isSlash (rev (list_ascii_of_string p))))).

End posix.

(** *** The tool handler of [createServer] *)

Module Mcp.

(** The value of an argument: any JSON value. *)
#[warnings="-register-all"]
Inductive Json :=
  | JNull
  | JBool (b : bool)
  | JNumber (literal : string)
  | JString (s : string)
  | JArray (items : list Json)
  | JObject (fields : gmap string Json).

(** [{ type: 'text', text }] *)
Record TextContent := { type : string; text : string }.

(** [{ content, isError? }] *)
Record CallToolResult := { content : list TextContent; isError : option bool }.

End Mcp.

(** [z.enum(['layered', 'feature', 'atomic', 'clean'])] *)
Definition PatternTypeSchema_parse (v : Mcp.Json) : option PatternType :=
  match v with
  | Mcp.JString s =>
      if String.eqb s "layered" then Some layered
      else if String.eqb s "feature" then Some feature
      else if String.eqb s "atomic" then Some atomic
      else if String.eqb s "clean" then Some clean
      else None
  | _ => None
  end.

(** [ScaffoldInputSchema.parse]: both keys are required, [path] a string of
    one character at least, [pattern_type] one of the four keys; other keys
    are dropped.  [None] stands for the [ZodError] thrown. *)
Definition ScaffoldInputSchema_parseObject (arguments : gmap string Mcp.Json)
  : option (string * PatternType) :=
  match arguments !! "path", arguments !! "pattern_type" with
  | Some (Mcp.JString p), Some v =>
      match ScaffoldInputSchema_parse p, PatternTypeSchema_parse v with
      | Some p, Some patternType => Some (p, patternType)
      | _, _ => None
      end
  | _, _ => None
  end.

Definition textResult (t : string) : Mcp.CallToolResult :=
  {| Mcp.content := [ {| Mcp.type := "text"; Mcp.text := t |} ]; Mcp.isError := None |}.

Definition errorResult (errorMessage : string) : Mcp.CallToolResult :=
  {| Mcp.content := [ {| Mcp.type := "text"; Mcp.text := "❌ Error: " +:+ errorMessage |} ];
     Mcp.isError := Some true |}.

(** The lines of the answer to a scaffolding that returned. *)
Definition responseParts (result : ScaffoldResult) : list string :=
  ([ "✅ Successfully scaffolded: " +:+ resultLabel result;
     "📁 Target: " +:+ resolvedTarget result;
     "📂 Created " +:+ pretty (length (createdDirs result)) +:+ " directories";
     "📄 Created " +:+ pretty (length (createdFiles result)) +:+ " files" ]
   ++ (if bool_decide (0 < length (skippedFiles result))%nat
       then [ "⚠️  Skipped " +:+ pretty (length (skippedFiles result)) +:+ " existing files" ]
       else [])
   ++ [ LF +:+ "🚀 Next steps:";
        "  cd " +:+ posix.basename (resolvedTarget result);
        "  npm install";
        "  npm run dev" ])%list.

(** The handler of [CallToolRequestSchema]: [toolName] is
    [request.params.name], [arguments] is [request.params.arguments].
    [zodMessage] gives the message of the [ZodError] for arguments the schema
    refuses. *)
Definition callTool (zodMessage : gmap string Mcp.Json → string) (host : Host)
    (PATTERNS : PatternType → PatternDefinition)
    (toolName : string) (arguments : option (gmap string Mcp.Json))
  : Disk → Mcp.CallToolResult * Disk := λ d,
  let body : Async Mcp.CallToolResult :=
    if String.eqb toolName "describe_architectures" then
      mret (textResult ARCHITECTURE_DESCRIPTION)
    else if String.eqb toolName "scaffold_react_project" then
      input ← liftOutcome
        (match ScaffoldInputSchema_parseObject (default ∅ arguments) with
         | Some input => Returned input
         | None =>
             Thrown {| name := "ZodError"; code := None;
                       message := zodMessage (default ∅ arguments) |}
         end);
      result ← scaffoldProject host PATTERNS input.1 input.2 (cwd host);
      mret (textResult (String.concat LF (responseParts result)))
    else throw (newError ("Unknown tool: " +:+ toolName)) in
  match body d with
  | (Returned response, d') => (response, d')
  | (Thrown error, d') => (errorResult (message error), d')
  end.

(** The key of a pattern in [PATTERNS], as [pattern_type] names it. *)
Definition patternKey (patternType : PatternType) : string :=
  match patternType with
  | layered => "layered"
  | feature => "feature"
  | atomic => "atomic"
  | clean => "clean"
  end.

(** *** Patterns and disks on which nothing is in the way *)

(** Segment lists no one of which begins another. *)
Fixpoint apart (l : list (list string)) : bool :=
  match l with
  | [] => true
  | a :: l' => forallb (λ b, negb (segsPrefix a b) && negb (segsPrefix b a)) l' && apart l'
  end.

(** The paths of the pattern are relative paths of plain names without a
    NUL character, and no file path is, segment by segment, the beginning of
    a directory or of another file path. *)
Definition fitsTogether (pattern : PatternDefinition) : bool :=
  forallb plainRelative (directories pattern)
  && forallb plainRelative (path <$> files pattern)
  && forallb Js.nulFree (directories pattern)
  && forallb Js.nulFree (path <$> files pattern)
  && forallb (λ f, forallb (λ dir, negb (segsPrefix (Js.split f) (Js.split dir)))
                           (directories pattern))
             (path <$> files pattern)
  && apart (Js.split <$> (path <$> files pattern)).

(** No regular file sits at [target] or above it, and nothing is below it:
    [target] is missing or an empty directory. *)
Definition freeTarget (d : Disk) (target : list string) : Prop :=
  (∀ k bytes, k `prefix_of` target → d !! k ≠ Some (File bytes)) ∧
  (∀ k, target `prefix_of` k → k ≠ target → d !! k = None).

(** No regular file sits above [rs], at it or below it. *)
Definition clearAround (rs : list string) (d : Disk) : Prop :=
  ∀ k bytes, d !! k = Some (File bytes) → ¬ k `prefix_of` rs ∧ ¬ rs `prefix_of` k.

(** ** More facts on paths *)

Module PathMore.

Import Js path PathFacts.

Lemma concat_split s : String.concat "/" (split s) = s.
Proof.
  induction s as [|c s IH]; [done |]. simpl. destruct (isSlash c) eqn:Hc.
  - assert (c = "/"%char) as -> by by apply Ascii.eqb_eq.
    pose proof (split_not_nil s) as Hne. destruct (split s) as [|x xs]; [done |].
    change (String.concat "/" ("" :: x :: xs)) with (String "/" (String.concat "/" (x :: xs))).
    by rewrite IH.
  - pose proof (split_not_nil s) as Hne. destruct (split s) as [|x xs]; [done |].
    destruct xs as [|y ys].
    + simpl in *. by rewrite IH.
    + change (String.concat "/" (String c x :: y :: ys))
        with (String c (String.concat "/" (x :: y :: ys))).
      by rewrite IH.
Qed.

Lemma isNameb_isName s : isNameb s = true → slashFree s = true → isName s.
Proof.
  unfold isNameb. rewrite !andb_true_iff, !negb_true_iff.
  intros [[H1 H2] H3] Hfree.
  apply String.eqb_neq in H1, H2, H3. by repeat split.
Qed.

Lemma plainRelative_names p : plainRelative p = true → Forall isName (split p).
Proof.
  unfold plainRelative. intros Hall.
  pose proof (split_slashFree p) as Hfree.
  induction Hfree as [|s l Hs _ IH]; [done |]. simpl in Hall.
  apply andb_true_iff in Hall as [Hname Hall]. constructor; [by apply isNameb_isName | by apply IH].
Qed.

(** A plain relative path is the slash-separated list of its names. *)
Lemma plainRelative_concat p :
  plainRelative p = true →
  ∃ names, names ≠ [] ∧ Forall isName names ∧ p = String.concat "/" names.
Proof.
  intros Hp. exists (split p). split_and!;
    [apply split_not_nil | by apply plainRelative_names | by rewrite concat_split].
Qed.

Lemma fold_empty_or_name segs res :
  Forall (λ s, s = "" ∨ isName s) segs →
  fold_left (normalizeStep false) segs res = (rev (filter (λ s, s ≠ "") segs) ++ res)%list.
Proof.
  revert res. induction segs as [|s segs IH]; intros res Hs; [done |].
  inversion Hs as [|?? [->|Hname] Hrest]; subst; simpl fold_left.
  - rewrite normalizeStep_empty, IH by done. by rewrite filter_cons_False by naive_solver.
  - rewrite normalizeStep_name, IH by done.
    rewrite filter_cons_True by by destruct Hname. simpl. by rewrite <- app_assoc.
Qed.

Lemma normalizeSegments_filter segs :
  Forall (λ s, s = "" ∨ isName s) segs →
  normalizeSegments false segs = filter (λ s, s ≠ "") segs.
Proof.
  intros Hs. unfold normalizeSegments. rewrite fold_empty_or_name by done.
  by rewrite app_nil_r, rev_involutive.
Qed.

Lemma endsWithSlash_app a b : b ≠ "" → endsWithSlash (a +:+ b) = endsWithSlash b.
Proof.
  intros Hb. induction a as [|c a IH]; [done |].
  change (String c a +:+ b) with (String c (a +:+ b)). simpl.
  destruct (a +:+ b) eqn:Hab; [|done].
  destruct a; [by subst | done].
Qed.

Lemma endsWithSlash_slashFree s : slashFree s = true → endsWithSlash s = false.
Proof.
  induction s as [|c s IH]; [done |]. simpl.
  intros [Hc Hs]%andb_true_iff. apply negb_true_iff in Hc.
  destruct s; [done | by apply IH].
Qed.

Lemma endsWithSlash_names names :
  Forall isName names → endsWithSlash (String.concat "/" names) = false.
Proof.
  induction 1 as [|s names Hs Hrest IH]; [done |]. destruct names as [|t names].
  - simpl. apply endsWithSlash_slashFree. by destruct Hs as (_ & _ & _ & ?).
  - change (String.concat "/" (s :: t :: names))
      with (s +:+ String "/" (String.concat "/" (t :: names))).
    rewrite endsWithSlash_app by done.
    change (String "/" ?x) with ("/" +:+ x). rewrite endsWithSlash_app; [done |].
    inversion Hrest as [|?? (Ht & _) _]; subst. destruct names; [done |].
    destruct t; [done |]. done.
Qed.

Lemma concat_names_not_empty names :
  names ≠ [] → Forall isName names → String.concat "/" names ≠ "".
Proof.
  destruct names as [|s names]; [done |]. intros _ Hs. inversion Hs as [|?? (Hne & _) _]; subst.
  destruct s; [done |]. by destruct names.
Qed.

(** The segments of [absolute r +:+ "/" +:+ rest], normalised. *)
Lemma normalize_below (r : list string) (rest : string) :
  Forall isName r → Forall (λ s, s = "" ∨ isName s) (split rest) →
  normalizeSegments false (split (absolute r +:+ String "/" rest))
  = (r ++ filter (λ s, s ≠ "") (split rest))%list.
Proof.
  intros Hr Hrest. rewrite split_app_slash.
  unfold absolute. change (split ("/" +:+ ?x)) with ("" :: split x).
  rewrite normalizeSegments_filter.
  - rewrite filter_app, filter_cons_False by naive_solver. f_equal.
    destruct r as [|s r]; [done |].
    rewrite split_concat by (done || by apply names_slashFree). by apply names_not_empty.
  - apply Forall_app. split; [|done]. constructor; [by left |].
    destruct r as [|s r]; [by repeat constructor; left |].
    rewrite split_concat by (done || by apply names_slashFree).
    eapply Forall_impl; [exact Hr |]. naive_solver.
Qed.

Lemma names_empty_or_name names : Forall isName names → Forall (λ s, s = "" ∨ isName s) names.
Proof. intros H. eapply Forall_impl; [exact H |]. naive_solver. Qed.

Lemma normalize_absolute_below r names :
  Forall isName r → names ≠ [] → Forall isName names →
  normalize (absolute r +:+ String "/" (String.concat "/" names)) = absolute (r ++ names).
Proof.
  intros Hr Hne Hnames.
  pose proof (concat_names_not_empty names Hne Hnames) as Hp.
  set (q := absolute r +:+ String "/" (String.concat "/" names)).
  assert (String.eqb q "" = false) as Hq by done.
  assert (isAbsolute q = true) as Habs by done.
  assert (endsWithSlash q = false) as Hend.
  { unfold q. rewrite endsWithSlash_app by done.
    change (String "/" (String.concat "/" names)) with ("/" +:+ String.concat "/" names).
    by rewrite endsWithSlash_app, endsWithSlash_names. }
  assert (normalizeString q false = String.concat "/" (r ++ names)) as Hnorm.
  { unfold normalizeString, q. rewrite normalize_below; [| done |].
    - rewrite split_concat by (done || by apply names_slashFree).
      by rewrite names_not_empty.
    - rewrite split_concat by (done || by apply names_slashFree).
      by apply names_empty_or_name. }
  assert (String.eqb (String.concat "/" (r ++ names)) "" = false) as Hcat.
  { apply String.eqb_neq, concat_names_not_empty; [by destruct r | by apply Forall_app]. }
  unfold normalize. cbv zeta. rewrite Hq, Habs, Hend. change (negb true) with false.
  by rewrite Hnorm, Hcat.
Qed.

(** [path.join] of a directory in normal form and a plain relative path. *)
Lemma join_absolute_names r names :
  Forall isName r → names ≠ [] → Forall isName names →
  path.join [absolute r; String.concat "/" names] = absolute (r ++ names).
Proof.
  intros Hr Hne Hnames. unfold join.
  pose proof (concat_names_not_empty names Hne Hnames) as Hp.
  rewrite filter_cons_True by done. rewrite filter_cons_True by done.
  rewrite filter_nil.
  change (String.concat "/" [absolute r; String.concat "/" names])
    with (absolute r +:+ String "/" (String.concat "/" names)).
  by apply normalize_absolute_below.
Qed.

Lemma concat_snoc (l : list string) (x : string) :
  l ≠ [] → String.concat "/" (l ++ [x]) = String.concat "/" l +:+ String "/" x.
Proof.
  induction l as [|y l IH]; [done |]. intros _. destruct l as [|z l]; [done |].
  change (String.concat "/" ((y :: z :: l) ++ [x]))
    with (y +:+ String "/" (String.concat "/" ((z :: l) ++ [x]))).
  rewrite IH by done.
  change (String.concat "/" (y :: z :: l)) with (y +:+ String "/" (String.concat "/" (z :: l))).
  by rewrite string_app_assoc.
Qed.

(** [resolve] of a directory in normal form and a plain relative path. *)
Lemma resolve_absolute_names cwd r names :
  Forall isName r → names ≠ [] → Forall isName names →
  path.resolve cwd [absolute r; String.concat "/" names] = absolute (r ++ names).
Proof.
  intros Hr Hne Hnames. unfold resolve.
  change (rev [cwd; absolute r; String.concat "/" names])
    with [String.concat "/" names; absolute r; cwd].
  pose proof (concat_names_not_empty names Hne Hnames) as Hp.
  assert (isAbsolute (String.concat "/" names) = false) as Hrel by by apply names_not_absolute.
  apply String.eqb_neq in Hp. simpl resolveLoop. rewrite Hp, Hrel.
  change (String.eqb (absolute r) "") with false. change (isAbsolute (absolute r)) with true.
  cbv beta iota. change (negb true) with false. unfold normalizeString.
  replace (absolute r +:+ "/" +:+ String.concat "/" names +:+ "/" +:+ "")
    with (absolute r +:+ String "/" (String.concat "/" (names ++ [""]))).
  2: { rewrite concat_snoc by done. done. }
  rewrite normalize_below; [| done |].
  - rewrite split_concat; [| by destruct names |].
    + rewrite filter_app, names_not_empty by done. by rewrite app_nil_r.
    + apply Forall_app. split; [by apply names_slashFree | by repeat constructor].
  - rewrite split_concat; [| by destruct names |].
    + apply Forall_app. split; [by apply names_empty_or_name | repeat constructor; by left].
    + apply Forall_app. split; [by apply names_slashFree | by repeat constructor].
Qed.

(** *** [dirname] of a path in normal form *)

Lemma list_ascii_app a b :
  list_ascii_of_string (a +:+ b) = (list_ascii_of_string a ++ list_ascii_of_string b)%list.
Proof.
  induction a as [|c a IH]; [done |].
  change (String c a +:+ b) with (String c (a +:+ b)). simpl. by rewrite IH.
Qed.

Lemma slashFree_chars s :
  slashFree s = true → Forall (λ c, isSlash c = false) (list_ascii_of_string s).
Proof.
  induction s as [|c s IH]; [done |]. simpl.
  intros [Hc Hs]%andb_true_iff. apply negb_true_iff in Hc. constructor; [done | by apply IH].
Qed.

Lemma dropWhile_all f l rest :
  Forall (λ c, f c = true) l → dropWhile f (l ++ rest) = dropWhile f rest.
Proof. induction 1 as [|c l Hc _ IH]; [done |]. simpl. by rewrite Hc. Qed.

Lemma dirname_absolute_snoc r last :
  Forall isName r → isName last → path.dirname (absolute (r ++ [last])) = absolute r.
Proof.
  intros Hr Hlast. pose proof Hlast as (Hne & _ & _ & Hfree).
  pose proof (slashFree_chars last Hfree) as Hchars.
  assert (∃ c cs, rev (list_ascii_of_string last) = c :: cs ∧ isSlash c = false ∧
                  Forall (λ c, negb (isSlash c) = true) (c :: cs)) as (c & cs & Hrev & Hc & Hall).
  { destruct (rev (list_ascii_of_string last)) as [|c cs] eqn:Hrev.
    - apply (f_equal (@rev ascii)) in Hrev. rewrite rev_involutive in Hrev.
      destruct last; [done | discriminate].
    - assert (Forall (λ c, isSlash c = false) (c :: cs)) as Hall.
      { rewrite <- Hrev. by apply Forall_rev. }
      exists c, cs. split_and!; [done | by inversion Hall |].
      eapply Forall_impl; [exact Hall |]. intros x Hx. by rewrite Hx. }
  unfold absolute. change ("/" +:+ ?x) with (String "/" x). unfold dirname.
  change (isSlash "/") with true.
  destruct r as [|s r].
  - change (String.concat "/" ([] ++ [last])) with last. rewrite Hrev.
    cbn [dropWhile]. rewrite Hc.
    rewrite <- (app_nil_r (c :: cs)). by rewrite (dropWhile_all _ _ [] Hall).
  - assert (list_ascii_of_string (String.concat "/" (s :: r)) ≠ []) as Hcat.
    { inversion Hr as [|?? (Hs & _) _]; subst. destruct s; [done |]. by destruct r. }
    rewrite concat_snoc by done. generalize dependent (String.concat "/" (s :: r)).
    intros body Hcat. rewrite list_ascii_app.
    change (list_ascii_of_string (String "/" last)) with ("/"%char :: list_ascii_of_string last).
    rewrite rev_app_distr.
    change (rev ("/"%char :: list_ascii_of_string last))
      with (rev (list_ascii_of_string last) ++ ["/"%char])%list.
    rewrite Hrev, <- !app_assoc.
    change ((c :: cs) ++ ["/"%char] ++ rev (list_ascii_of_string body))%list
      with (c :: (cs ++ "/"%char :: rev (list_ascii_of_string body)))%list.
    cbn [dropWhile]. rewrite Hc.
    change (c :: (cs ++ "/"%char :: rev (list_ascii_of_string body)))%list
      with ((c :: cs) ++ "/"%char :: rev (list_ascii_of_string body))%list.
    rewrite (dropWhile_all _ _ _ Hall). cbn [dropWhile]. change (isSlash "/") with true.
    cbn [negb andb]. rewrite rev_involutive, string_of_list_ascii_of_string.
    rewrite bool_decide_eq_false_2; [done |].
    intros Hnil. apply Hcat. apply (f_equal (@rev ascii)) in Hnil.
    by rewrite rev_involutive in Hnil.
Qed.

End PathMore.

(** ** What the calls add to the disk *)

Section Adds.

Context (host : Host).

Lemma adds_refl (A : list string → Node → Prop) (d : Disk) : adds A d d.
Proof. split; [done |]. intros k n Hnone Hsome. congruence. Qed.

Lemma adds_trans (A : list string → Node → Prop) (d d1 d2 : Disk) : adds A d d1 → adds A d1 d2 → adds A d d2.
Proof.
  intros [Hsub1 Hnew1] [Hsub2 Hnew2]. split; [by etrans |].
  intros k n Hnone Hsome. destruct (d1 !! k) as [n1|] eqn:Hk; [|by eapply Hnew2].
  rewrite (lookup_weaken _ _ _ _ Hk Hsub2) in Hsome. injection Hsome as <-. by apply Hnew1.
Qed.

Lemma adds_mono (A B : list string → Node → Prop) (d d' : Disk) :
  (∀ k n, A k n → B k n) → adds A d d' → adds B d d'.
Proof. intros HAB [Hsub Hnew]. split; [done |]. intros k n ??. by apply HAB, Hnew. Qed.

Lemma mkdirp_adds d pre rest d' :
  mkdirp d pre rest = inr d' → adds (λ k n, n = Dir ∧ k `prefix_of` (pre ++ rest)%list) d d'.
Proof.
  revert d pre. induction rest as [|s rest IH]; intros d pre; simpl.
  - intros [= <-]. apply adds_refl.
  - destruct (d !! (pre ++ [s])%list) as [[|bytes]|] eqn:Hq; [| done |].
    + intros Hrec%IH. eapply adds_mono; [|exact Hrec].
      intros k n [-> Hk]. by rewrite <- app_assoc in Hk.
    + intros Hrec. pose proof (mkdirp_subseteq _ _ _ _ Hrec) as Hsub.
      apply IH in Hrec as [_ Hnew]. split.
      { etrans; [|exact Hsub]. by apply insert_subseteq. }
      intros k n Hnone Hsome. destruct (decide (k = (pre ++ [s])%list)) as [->|Hne].
      * rewrite (lookup_weaken _ d' _ Dir (lookup_insert_eq d _ _) Hsub) in Hsome.
        injection Hsome as <-. split; [done |].
        rewrite (app_assoc pre [s] rest : (pre ++ s :: rest = (pre ++ [s]) ++ rest)%list).
        by apply prefix_app_r.
      * destruct (Hnew k n) as [-> Hk]; [by rewrite lookup_insert_ne | done |].
        split; [done |]. by rewrite <- app_assoc in Hk.
Qed.

(** After [mkdir -p], every directory of the path is there. *)
Lemma mkdirp_made d pre rest d' r1 r2 :
  mkdirp d pre rest = inr d' → rest = (r1 ++ r2)%list → r1 ≠ [] →
  d' !! (pre ++ r1)%list = Some Dir.
Proof.
  revert d pre r1. induction rest as [|s rest IH]; intros d pre r1; simpl.
  - intros _ Hnil. by destruct r1.
  - intros Hrec Hsplit Hr1. destruct r1 as [|s1 r1]; [done |]. injection Hsplit as <- ->.
    assert (mkdirp d' (pre ++ [s]) (r1 ++ r2) = inr d' → d' !! (pre ++ [s])%list = Some Dir →
            d' !! (pre ++ s :: r1)%list = Some Dir) as Hstep.
    { intros Hagain Hq. destruct r1 as [|s2 r1]; [done |].
      rewrite (app_assoc pre [s] (s2 :: r1) : (pre ++ s :: s2 :: r1 = (pre ++ [s]) ++ s2 :: r1)%list).
      by eapply IH. }
    destruct (d !! (pre ++ [s])%list) as [[|bytes]|] eqn:Hq; [| done |].
    + pose proof (mkdirp_subseteq _ _ _ _ Hrec) as Hsub.
      apply Hstep; [by eapply mkdirp_again | by eapply lookup_weaken].
    + pose proof (mkdirp_subseteq _ _ _ _ Hrec) as Hsub.
      apply Hstep; [by eapply mkdirp_again |].
      eapply lookup_weaken; [|exact Hsub]. by rewrite lookup_insert_eq.
Qed.

(** [mkdir -p] succeeds where no file is in the way. *)
Lemma mkdirp_clear d pre rest :
  (∀ r1 r2 bytes, rest = (r1 ++ r2)%list → r1 ≠ [] →
     d !! (pre ++ r1)%list ≠ Some (File bytes)) →
  ∃ d', mkdirp d pre rest = inr d'.
Proof.
  revert d pre. induction rest as [|s rest IH]; intros d pre Hclear; simpl; [by eexists |].
  destruct (d !! (pre ++ [s])%list) as [[|bytes]|] eqn:Hq.
  - apply IH. intros r1 r2 bytes -> Hr1. rewrite <- app_assoc.
    by apply (Hclear (s :: r1) r2).
  - by destruct (Hclear [s] rest bytes).
  - apply IH. intros r1 r2 bytes -> Hr1. rewrite lookup_insert_ne.
    + rewrite <- app_assoc. by apply (Hclear (s :: r1) r2).
    + intros Heq. apply (f_equal length) in Heq. rewrite !length_app in Heq.
      destruct r1; [done |]. simpl in Heq. lia.
Qed.

Lemma fs_mkdir_adds p d o d' :
  fs_mkdir host p d = (o, d') →
  adds (λ k n, n = Dir ∧ k `prefix_of` path.segments p) d d'.
Proof.
  unfold fs_mkdir.
  destruct (negb (Js.nulFree p)); [intros [= <- <-]; apply adds_refl |].
  destruct (fault host Mkdir p); [intros [= <- <-]; apply adds_refl |].
  destruct (String.eqb p ""); [intros [= <- <-]; apply adds_refl |].
  destruct (mkdirp d [] (path.segments p)) as [e|d1] eqn:Hm; intros [= <- <-];
    [apply adds_refl | by apply mkdirp_adds in Hm].
Qed.

Lemma insert_adds (A : list string → Node → Prop) (d : Disk) k n :
  d !! k = None → A k n → adds A d (<[k := n]> d).
Proof.
  intros Hnone HA. split; [by apply insert_subseteq |]. intros q m Hq Hsome.
  destruct (decide (q = k)) as [->|Hne].
  - rewrite lookup_insert_eq in Hsome. by injection Hsome as <-.
  - rewrite lookup_insert_ne in Hsome by done. congruence.
Qed.

Lemma fs_writeFile_adds p c d o d' :
  fs_writeFile host p c d = (o, d') →
  adds (λ k n, k = path.segments p ∧ (n = File c ∨ n = File (written host p c))) d d'.
Proof.
  unfold fs_writeFile.
  destruct (negb (Js.nulFree p)); [intros [= <- <-]; apply adds_refl |].
  destruct (fault host Open p); [intros [= <- <-]; apply adds_refl |].
  destruct (String.eqb p ""); [intros [= <- <-]; apply adds_refl |].
  destruct (Js.endsWithSlash p); [intros [= <- <-]; apply adds_refl |].
  destruct (walkParents d [] (removelast (path.segments p))); [intros [= <- <-]; apply adds_refl |].
  destruct (d !! path.segments p) eqn:Hq; [intros [= <- <-]; apply adds_refl |].
  destruct (fault host Write p); intros [= <- <-]; apply insert_adds; try done.
  - split; [done | by right].
  - split; [done | by left].
Qed.

(** A call keeps "[d0] plus entries allowed by [A]" when what it adds is
    allowed by [A]. *)
Lemma keeps_adds {X : Type} (A B : list string → Node → Prop) (d0 : Disk) (m : Async X) :
  (∀ d o d', m d = (o, d') → adds B d d') → (∀ k n, B k n → A k n) →
  preserves (adds A d0) m.
Proof.
  intros Hm HBA d o d' Hd Hrun. eapply adds_trans; [exact Hd |].
  eapply adds_mono; [exact HBA |]. by eapply Hm.
Qed.

Lemma ensureDirectory_keeps_adds (A : list string → Node → Prop) (d0 : Disk) p :
  (∀ k, k `prefix_of` path.segments p → A k Dir) →
  preserves (adds A d0) (ensureDirectory host p).
Proof.
  intros HA. apply preserves_tryCatch; [|intros e; apply preserves_throw].
  eapply keeps_adds; [apply fs_mkdir_adds |]. intros k n [-> Hk]. by apply HA.
Qed.

Lemma ensureFile_keeps_adds (A : list string → Node → Prop) (d0 : Disk) p c :
  (∀ k, k `prefix_of` path.segments (path.dirname p) → A k Dir) →
  A (path.segments p) (File c) →
  A (path.segments p) (File (written host p c)) →
  preserves (adds A d0) (ensureFile host p c).
Proof.
  intros HAdir HAfile HApart. apply preserves_tryCatch.
  - apply preserves_bind.
    { eapply keeps_adds; [apply fs_mkdir_adds |]. intros k n [-> Hk]. by apply HAdir. }
    intros _. apply preserves_bind; [|intros _; apply preserves_ret].
    eapply keeps_adds; [apply fs_writeFile_adds |]. by intros k n [-> [-> | ->]].
  - intros e. case_match; [apply preserves_ret | apply preserves_throw].
Qed.

Lemma dirLoop_keeps_adds (A : list string → Node → Prop) (d0 : Disk) root dirs acc :
  (∀ dir k, dir ∈ dirs → k `prefix_of` path.segments (path.join [root; dir]) → A k Dir) →
  preserves (adds A d0) (dirLoop host root dirs acc).
Proof.
  revert acc. induction dirs as [|dir dirs IH]; intros acc HA; simpl.
  - apply preserves_ret.
  - apply preserves_bind.
    + apply ensureDirectory_keeps_adds. intros k. apply HA. left.
    + intros _. apply IH. intros x k Hx. apply HA. by right.
Qed.

Lemma fileLoop_keeps_adds (A : list string → Node → Prop) (d0 : Disk) root fs cr sk :
  (∀ f k, f ∈ fs →
     k `prefix_of` path.segments (path.dirname (path.join [root; path f])) → A k Dir) →
  (∀ f, f ∈ fs →
     A (path.segments (path.join [root; path f])) (File (content f)) ∧
     A (path.segments (path.join [root; path f]))
       (File (written host (path.join [root; path f]) (content f)))) →
  preserves (adds A d0) (fileLoop host root fs cr sk).
Proof.
  revert cr sk. induction fs as [|f fs IH]; intros cr sk HAdir HAfile; simpl.
  - apply preserves_ret.
  - apply preserves_bind.
    + apply ensureFile_keeps_adds; [intros k; apply HAdir; left | apply HAfile; left..].
    + intros created.
      destruct created; apply IH; try (intros x k Hx; apply HAdir; by right);
        intros x Hx; apply HAfile; by right.
Qed.

Lemma scaffoldProject_adds PATTERNS inputPath patternType baseDir d o d' :
  scaffoldProject host PATTERNS inputPath patternType baseDir d = (o, d') →
  match resolveSafeTarget host inputPath baseDir with
  | Returned root => adds (scaffoldAdds host root (PATTERNS patternType)) d d'
  | Thrown e => o = Thrown e ∧ d' = d
  end.
Proof.
  unfold scaffoldProject. rewrite bind_run. unfold liftOutcome at 1.
  destruct (resolveSafeTarget host inputPath baseDir) as [root|e]; [|by intros [= <- <-]].
  intros Hrun.
  eapply (preserves_bind (adds (scaffoldAdds host root (PATTERNS patternType)) d));
    [ | | apply adds_refl | exact Hrun].
  - apply ensureDirectory_keeps_adds. intros k Hk. by left.
  - intros u. cbv beta. apply preserves_bind.
    + apply dirLoop_keeps_adds. intros dir k Hdir Hk. right. left. by exists dir.
    + intros dirs. cbv beta. apply preserves_bind.
      * apply fileLoop_keeps_adds.
        -- intros f k Hf Hk. right. right. exists f. split; [done |]. by left.
        -- intros f Hf. split; right; right; exists f; (split; [done |]); right;
             (split; [done |]); [by left | by right].
      * intros [cr sk]. apply preserves_ret.
Qed.

End Adds.

(** ** More properties of the path guard *)

Section GuardMore.

Import PathFacts PathMore.
Context (host : Host).

Lemma resolve_absolute_last base segs :
  Forall isName segs → path.resolve (cwd host) [base; absolute segs] = absolute segs.
Proof.
  intros Hs. rewrite <- (resolve_of_absolute (cwd host) segs Hs) at 2. done.
Qed.

Lemma resolveSafeTarget_Returned inputPath baseDir root :
  resolveSafeTarget host inputPath baseDir = Returned root →
  root = path.resolve (cwd host) [baseDir; inputPath] ∧
  Js.startsWith (path.relative (cwd host) baseDir root) ".."
    || path.isAbsolute (path.relative (cwd host) baseDir root) = false.
Proof.
  unfold resolveSafeTarget. case_match eqn:Hguard; [done |]. by intros [= <-].
Qed.

End GuardMore.

(** X1: a path that [resolveSafeTarget] returns for an absolute [baseDir] is
    absolute, lies in [baseDir], and passes the guard again unchanged. *)
Theorem guard_result_is_stable (host : Host) (inputPath baseDir root : string) :
  path.isAbsolute baseDir = true →
  resolveSafeTarget host inputPath baseDir = Returned root →
  path.isAbsolute root = true ∧
  path.segments (path.resolve (cwd host) [baseDir]) `prefix_of` path.segments root ∧
  resolveSafeTarget host root baseDir = Returned root.
Proof.
  intros Hbase Hret.
  destruct (guard_relative host inputPath baseDir Hbase) as (segs & Hs & Hres & _ & _).
  pose proof (resolveSafeTarget_Returned host _ _ _ Hret) as [Hroot Hguard].
  rewrite Hres in Hroot. subst root. split_and!.
  - done.
  - apply PathFacts.segsPrefix_spec.
    destruct (inside (cwd host) baseDir inputPath) eqn:Hin.
    + unfold inside in Hin. by rewrite Hres in Hin.
    + rewrite (resolveSafeTarget_outside host _ _ Hbase Hin) in Hret. done.
  - unfold resolveSafeTarget. rewrite (resolve_absolute_last host baseDir segs Hs).
    by rewrite Hguard.
Qed.

Lemma guard_result_is_stable_witness :
  path.isAbsolute "/tmp/X" = true ∧
  resolveSafeTarget quietHost "apps/../my-app/" "/tmp/X" = Returned "/tmp/X/my-app" ∧
  resolveSafeTarget quietHost "/tmp/X/my-app" "/tmp/X" = Returned "/tmp/X/my-app".
Proof.
  pose proof (guard_result_is_stable quietHost "apps/../my-app/" "/tmp/X" "/tmp/X/my-app"
                eq_refl eq_refl) as (_ & _ & H).
  split; [reflexivity |]. split; [reflexivity | exact H].
Defined.

(** Plain names below a base directory in normal form pass the guard. *)
Lemma resolveSafeTarget_plain (host : Host) (inputPath baseDir : string) :
  path.isAbsolute baseDir = true →
  path.resolve (cwd host) [baseDir] = baseDir →
  plainRelative inputPath = true →
  Js.startsWith inputPath ".." = false →
  resolveSafeTarget host inputPath baseDir = Returned (path.join [baseDir; inputPath]).
Proof.
  intros Hbase Hnormal Hplain Hdots.
  destruct (PathFacts.resolve_absolute (cwd host) [baseDir]) as (r & Hr & Hres).
  { apply Exists_cons_tl, Exists_cons_hd, Hbase. }
  rewrite Hnormal in Hres. subst baseDir.
  destruct (PathMore.plainRelative_concat inputPath Hplain) as (names & Hne & Hnames & ->).
  rewrite PathMore.join_absolute_names by done.
  assert (path.resolve (cwd host) [absolute r; String.concat "/" names] = absolute (r ++ names))
    as Hresolved by by apply PathMore.resolve_absolute_names.
  assert (inside (cwd host) (absolute r) (String.concat "/" names) = true) as Hin.
  { unfold inside. rewrite Hnormal, Hresolved.
    rewrite !PathFacts.absolute_segments by (done || by apply Forall_app).
    apply PathFacts.segsPrefix_spec. by apply prefix_app_r. }
  rewrite (resolveSafeTarget_inside host _ _ Hbase Hin). unfold firstBelow.
  rewrite Hnormal, Hresolved.
  rewrite !PathFacts.absolute_segments by (done || by apply Forall_app).
  rewrite PathFacts.stripCommon_below. destruct names as [|s names]; [done |]. simpl.
  inversion Hnames; subst. rewrite PathFacts.names_startsWith in Hdots by done.
  by rewrite Hdots.
Qed.

(** X2: against a base directory in normal form, a relative path of plain
    names that does not begin with two dots is returned as
    [path.join(baseDir, inputPath)]. *)
Theorem guard_joins_plain_names (host : Host) (inputPath baseDir : string) :
  path.isAbsolute baseDir = true →
  path.resolve (cwd host) [baseDir] = baseDir →
  plainRelative inputPath = true →
  Js.startsWith inputPath ".." = false →
  resolveSafeTarget host inputPath baseDir = Returned (path.join [baseDir; inputPath]).
Proof.
  apply resolveSafeTarget_plain.
Qed.

Lemma guard_joins_plain_names_witness :
  resolveSafeTarget quietHost "apps/frontend" "/tmp/X" = Returned "/tmp/X/apps/frontend".
Proof.
  exact (guard_joins_plain_names quietHost "apps/frontend" "/tmp/X"
           eq_refl eq_refl eq_refl eq_refl).
Defined.

(** ** More properties of the materializers and the orchestrator *)

Section EngineMore.

Import PathFacts PathMore.
Context (host : Host).

Lemma resolveSafeTarget_Returned_segs inputPath baseDir root :
  path.isAbsolute baseDir = true →
  resolveSafeTarget host inputPath baseDir = Returned root →
  ∃ segs, Forall isName segs ∧ root = absolute segs ∧
          path.segments (path.resolve (cwd host) [baseDir]) `prefix_of` segs.
Proof.
  intros Hbase Hret.
  destruct (guard_relative host inputPath baseDir Hbase) as (segs & Hs & Hres & _ & _).
  pose proof (resolveSafeTarget_Returned host _ _ _ Hret) as [Hroot _].
  rewrite Hres in Hroot. exists segs. split_and!; [done | done |].
  apply segsPrefix_spec. destruct (inside (cwd host) baseDir inputPath) eqn:Hin.
  - unfold inside in Hin. by rewrite Hres, absolute_segments in Hin.
  - rewrite (resolveSafeTarget_outside host _ _ Hbase Hin) in Hret. done.
Qed.

(** The segments of a target below a root in normal form. *)
Lemma target_segments segs p :
  Forall isName segs → plainRelative p = true →
  ∃ names, names ≠ [] ∧ Forall isName names ∧
    path.segments (path.join [absolute segs; p]) = (segs ++ names)%list ∧
    path.segments (path.dirname (path.join [absolute segs; p]))
    = (segs ++ removelast names)%list.
Proof.
  intros Hs Hp. destruct (plainRelative_concat p Hp) as (names & Hne & Hnames & ->).
  exists names. split_and!; [done | done | |].
  - rewrite join_absolute_names, absolute_segments by (done || by apply Forall_app). done.
  - rewrite join_absolute_names by done.
    rewrite (app_removelast_last "" Hne) at 1.
    assert (Forall isName (removelast names) ∧ isName (List.last names "")) as [Hinit Hlast].
    { rewrite (app_removelast_last "" Hne) in Hnames.
      apply Forall_app in Hnames as [? Hl]. split; [done | by inversion Hl]. }
    rewrite app_assoc, dirname_absolute_snoc by (done || by apply Forall_app).
    by rewrite absolute_segments by by apply Forall_app.
Qed.

Lemma ensureDirectory_made p d u d' k :
  ensureDirectory host p d = (Returned u, d') →
  k ≠ [] → k `prefix_of` path.segments p → d' !! k = Some Dir.
Proof.
  intros (_ & _ & _ & Hm)%ensureDirectory_Returned%fs_mkdir_Returned Hk [rest Hrest].
  by eapply (mkdirp_made d [] (path.segments p) d' k rest).
Qed.

End EngineMore.

(** X3: on a disk of directories and regular files, without symbolic
    links, and with an absolute [baseDir]: whatever its outcome,
    [scaffoldProject] only adds to the disk, and what it adds are the
    directories leading to the target, to the directories of the pattern and
    to the directories of its files, and files at the paths of the files of
    the pattern, each holding its own content or, where its write failed,
    what the host had written of it. *)
Theorem scaffold_adds_pattern_entries_only (host : Host)
    (PATTERNS : PatternType → PatternDefinition)
    (inputPath : string) (patternType : PatternType) (baseDir root : string)
    (d d' : Disk) (o : Outcome ScaffoldResult) :
  path.isAbsolute baseDir = true →
  resolveSafeTarget host inputPath baseDir = Returned root →
  scaffoldProject host PATTERNS inputPath patternType baseDir d = (o, d') →
  d ⊆ d' ∧
  ∀ k n, d !! k = None → d' !! k = Some n → scaffoldAdds host root (PATTERNS patternType) k n.
Proof.
  intros _ Hroot Hrun. apply scaffoldProject_adds in Hrun. by rewrite Hroot in Hrun.
Qed.

Lemma scaffold_adds_pattern_entries_only_witness :
  let run := scaffoldProject quietHost scenarioCatalogue "app" layered "/tmp/X" emptyBase in
  emptyBase ⊆ run.2 ∧
  ∀ k n, emptyBase !! k = None → run.2 !! k = Some n →
         scaffoldAdds quietHost "/tmp/X/app" scenarioPattern k n.
Proof.
  intros run.
  exact (scaffold_adds_pattern_entries_only quietHost scenarioCatalogue "app" layered "/tmp/X"
           "/tmp/X/app" emptyBase run.2 run.1 eq_refl eq_refl (surjective_pairing run)).
Defined.

(** What a pattern of plain paths adds is in the base directory or above it. *)
Lemma scaffoldProject_in_base (host : Host) (PATTERNS : PatternType → PatternDefinition)
    (inputPath : string) (patternType : PatternType) (baseDir : string)
    (d d' : Disk) (o : Outcome ScaffoldResult) (k : list string) (n : Node) :
  path.isAbsolute baseDir = true →
  forallb plainRelative (directories (PATTERNS patternType)) = true →
  forallb plainRelative (path <$> files (PATTERNS patternType)) = true →
  scaffoldProject host PATTERNS inputPath patternType baseDir d = (o, d') →
  d !! k = None → d' !! k = Some n →
  path.segments (path.resolve (cwd host) [baseDir]) `prefix_of` k ∨
  (k `prefix_of` path.segments (path.resolve (cwd host) [baseDir]) ∧ n = Dir).
Proof.
  intros Hbase Hdirs Hfiles Hrun Hnone Hsome.
  apply scaffoldProject_adds in Hrun.
  destruct (resolveSafeTarget host inputPath baseDir) as [root|e] eqn:Hguard;
    [|destruct Hrun as [_ ->]; congruence].
  destruct (resolveSafeTarget_Returned_segs host _ _ _ Hbase Hguard) as (segs & Hs & -> & Hin).
  destruct Hrun as [_ Hnew]. specialize (Hnew k n Hnone Hsome).
  set (base := path.segments (path.resolve (cwd host) [baseDir])) in *.
  assert (∀ top, base `prefix_of` top → k `prefix_of` top →
                 base `prefix_of` k ∨ k `prefix_of` base) as Hcmp.
  { intros top H1 H2. destruct (prefix_weak_total _ _ _ H1 H2); [by left | by right]. }
  assert (∀ names, base `prefix_of` (segs ++ names)%list) as Hbelow.
  { intros names. by apply prefix_app_r. }
  rewrite forallb_forall in Hdirs, Hfiles.
  destruct Hnew as [[-> Hk] | [(dir & Hdir & -> & Hk) | (f & Hf & [[-> Hk] | [-> _]])]].
  - rewrite PathFacts.absolute_segments in Hk by done.
    destruct (Hcmp segs Hin Hk); [by left | by right].
  - destruct (target_segments segs dir Hs) as (names & _ & _ & Hseg & _).
    { apply Hdirs. by apply list_elem_of_In. }
    rewrite Hseg in Hk. destruct (Hcmp _ (Hbelow names) Hk); [by left | by right].
  - destruct (target_segments segs (path f) Hs) as (names & _ & _ & _ & Hseg).
    { apply Hfiles, list_elem_of_In, list_elem_of_fmap. by exists f. }
    rewrite Hseg in Hk. destruct (Hcmp _ (Hbelow (removelast names)) Hk); [by left | by right].
  - destruct (target_segments segs (path f) Hs) as (names & _ & _ & Hseg & _).
    { apply Hfiles, list_elem_of_In, list_elem_of_fmap. by exists f. }
    rewrite Hseg. left. apply Hbelow.
Qed.

(** X4: on a disk of directories and regular files, without symbolic
    links (the code resolves none, and the containment is one of path
    names), with an absolute [baseDir] and a pattern whose directories and
    file paths are relative paths of plain names: every entry
    [scaffoldProject] adds is in [baseDir], or is a directory above it that
    was missing. *)
Theorem scaffold_stays_in_base (host : Host) (PATTERNS : PatternType → PatternDefinition)
    (inputPath : string) (patternType : PatternType) (baseDir : string)
    (d d' : Disk) (o : Outcome ScaffoldResult) (k : list string) (n : Node) :
  path.isAbsolute baseDir = true →
  forallb plainRelative (directories (PATTERNS patternType)) = true →
  forallb plainRelative (path <$> files (PATTERNS patternType)) = true →
  scaffoldProject host PATTERNS inputPath patternType baseDir d = (o, d') →
  d !! k = None → d' !! k = Some n →
  path.segments (path.resolve (cwd host) [baseDir]) `prefix_of` k ∨
  (k `prefix_of` path.segments (path.resolve (cwd host) [baseDir]) ∧ n = Dir).
Proof.
  apply scaffoldProject_in_base.
Qed.

Lemma scaffold_stays_in_base_witness :
  let run := scaffoldProject quietHost scenarioCatalogue "app" layered "/tmp/X" emptyBase in
  emptyBase !! ["tmp"; "X"; "app"; "src"] = None ∧
  run.2 !! ["tmp"; "X"; "app"; "src"] = Some Dir ∧
  (["tmp"; "X"] `prefix_of` ["tmp"; "X"; "app"; "src"] ∨
   (["tmp"; "X"; "app"; "src"] `prefix_of` ["tmp"; "X"] ∧ Dir = Dir)).
Proof.
  intros run.
  assert (emptyBase !! ["tmp"; "X"; "app"; "src"] = None) as Hnone by (vm_compute; reflexivity).
  assert (run.2 !! ["tmp"; "X"; "app"; "src"] = Some Dir) as Hsome by (vm_compute; reflexivity).
  split; [exact Hnone |]. split; [exact Hsome |].
  exact (scaffold_stays_in_base quietHost scenarioCatalogue "app" layered "/tmp/X"
           emptyBase run.2 run.1 ["tmp"; "X"; "app"; "src"] Dir
           eq_refl eq_refl eq_refl (surjective_pairing run) Hnone Hsome).
Defined.

(** X5: for an absolute [dirPath] in normal form, on a disk of directories
    and regular files: when [ensureDirectory] returns, the directory and
    every directory above it are on the disk, nothing that was there has
    changed, and calling it again returns and changes nothing. *)
Theorem ensureDirectory_makes_and_repeats (host : Host) (dirPath : string)
    (d d' : Disk) (u : unit) :
  path.isAbsolute dirPath = true →
  path.resolve (cwd host) [dirPath] = dirPath →
  ensureDirectory host dirPath d = (Returned u, d') →
  (∀ k, k ≠ [] → k `prefix_of` path.segments dirPath → d' !! k = Some Dir) ∧
  d ⊆ d' ∧
  ensureDirectory host dirPath d' = (Returned (), d').
Proof.
  intros _ _ Hrun. split_and!.
  - intros k Hk Hpre. by eapply ensureDirectory_made.
  - by eapply ensureDirectory_subseteq.
  - by eapply ensureDirectory_again.
Qed.

Lemma ensureDirectory_makes_and_repeats_witness :
  let run := ensureDirectory quietHost "/tmp/X/app/src" emptyBase in
  run.1 = Returned () ∧
  run.2 !! ["tmp"; "X"; "app"] = Some Dir ∧
  run.2 !! ["tmp"; "X"; "app"; "src"] = Some Dir ∧
  ensureDirectory quietHost "/tmp/X/app/src" run.2 = (Returned (), run.2).
Proof.
  intros run.
  assert (run.1 = Returned ()) as H1 by (vm_compute; reflexivity).
  assert (run = (Returned (), run.2)) as Hrun by (rewrite <- H1; apply surjective_pairing).
  destruct (ensureDirectory_makes_and_repeats quietHost "/tmp/X/app/src" emptyBase run.2 ()
              eq_refl eq_refl Hrun) as (Hmade & _ & Hagain).
  split; [exact H1 |]. split; [|split; [|exact Hagain]].
  - apply Hmade; [done |]. by exists ["src"].
  - apply Hmade; [done |]. by exists [].
Defined.

(** X6: for an absolute [filePath] in normal form, on disks of directories
    and regular files: once [ensureFile] has written a file on a well-formed
    disk, the file holds the content given, and on every later well-formed
    disk a call for the same path, whatever the content, returns [false] and
    leaves the disk, and so the first content, as it is. *)
Theorem ensureFile_first_content_stays (host : Host) (filePath c c2 : string)
    (d d1 d2 : Disk) :
  path.isAbsolute filePath = true →
  path.resolve (cwd host) [filePath] = filePath →
  wfDisk d →
  ensureFile host filePath c d = (Returned true, d1) →
  d1 ⊆ d2 → wfDisk d2 →
  readFile d1 filePath = Some c ∧
  ensureFile host filePath c2 d2 = (Returned false, d2) ∧
  readFile d2 filePath = Some c.
Proof.
  intros _ _ Hwf Hrun Hsub Hwf2.
  pose proof (ensureFile_true_fresh host _ _ _ _ Hrun) as [_ Hthere].
  assert (∀ dx, d1 ⊆ dx → readFile dx filePath = Some c) as Hread.
  { intros dx Hdx. unfold readFile. by rewrite (lookup_weaken _ _ _ _ Hthere Hdx). }
  split_and!; [by apply Hread | | by apply Hread].
  (* the second call meets the file that the first one wrote *)
  apply ensureFile_true, createFile_Returned in Hrun as (_ & dm & Hmk & Hwr).
  apply fs_writeFile_Returned in Hwr as (Hnul & Hf & Hp & Hs & Hw & Hnone & _ & ->).
  assert (dm ⊆ d2) as Hdm by (etrans; [by apply insert_subseteq | done]).
  apply (ensureFile_of_EEXIST host _ _ _ Open filePath), createFile_Thrown. right.
  exists d2. split; [by eapply fs_mkdir_again |].
  apply fs_writeFile_blocked; [done..| by eapply walkParents_again |].
  exists (File c). by eapply lookup_weaken.
Qed.

Lemma ensureFile_first_content_stays_witness :
  let first := ensureFile quietHost "/tmp/X/app/a.txt" "one" emptyBase in
  first.1 = Returned true ∧
  readFile first.2 "/tmp/X/app/a.txt" = Some "one" ∧
  ensureFile quietHost "/tmp/X/app/a.txt" "two" first.2 = (Returned false, first.2).
Proof.
  intros first.
  assert (first.1 = Returned true) as H1 by (vm_compute; reflexivity).
  assert (first = (Returned true, first.2)) as Hrun by (rewrite <- H1; apply surjective_pairing).
  assert (wfDisk first.2) as Hwf2.
  { eapply (ensureFile_preserves quietHost wfDisk);
      [intros p; apply fs_mkdir_wf | intros p c; apply fs_writeFile_wf
      | apply wfDisk_emptyBase | exact Hrun]. }
  destruct (ensureFile_first_content_stays quietHost "/tmp/X/app/a.txt" "one" "two"
              emptyBase first.2 first.2 eq_refl eq_refl wfDisk_emptyBase Hrun (reflexivity _) Hwf2)
    as (Hread & Hagain & _).
  split; [exact H1 |]. split; [exact Hread | exact Hagain].
Defined.

(** X7: when [scaffoldProject] returns, its result names the resolved
    target and the label of the pattern, and the target, every directory of
    the pattern and every directory above them are on the disk. *)
Theorem scaffold_makes_directories (host : Host) (PATTERNS : PatternType → PatternDefinition)
    (inputPath : string) (patternType : PatternType) (baseDir : string)
    (d d' : Disk) (r : ScaffoldResult) :
  scaffoldProject host PATTERNS inputPath patternType baseDir d = (Returned r, d') →
  resolvedTarget r = path.resolve (cwd host) [baseDir; inputPath] ∧
  resultLabel r = label (PATTERNS patternType) ∧
  (∀ k, k ≠ [] → k `prefix_of` path.segments (resolvedTarget r) → d' !! k = Some Dir) ∧
  (∀ dir k, dir ∈ directories (PATTERNS patternType) → k ≠ [] →
     k `prefix_of` path.segments (path.join [resolvedTarget r; dir]) → d' !! k = Some Dir).
Proof.
  intros (root & flags & Hguard & -> & Hroot & Hdirs & _)%scaffoldProject_Returned. simpl.
  apply resolveSafeTarget_Returned in Hguard as [-> _].
  split_and!; [done | done | |].
  - intros k Hk Hpre. destruct Hroot as (di & dj & _ & Hj & Hstep).
    eapply lookup_weaken; [|exact Hj]. by eapply ensureDirectory_made.
  - intros dir k Hdir Hk Hpre. rewrite Forall_forall in Hdirs.
    destruct (Hdirs dir Hdir) as (di & dj & _ & Hj & Hstep).
    eapply lookup_weaken; [|exact Hj]. by eapply ensureDirectory_made.
Qed.

Lemma scaffold_makes_directories_witness :
  let run := scaffoldProject quietHost scenarioCatalogue "app" layered "/tmp/X" emptyBase in
  ∃ r, run.1 = Returned r ∧
       resolvedTarget r = "/tmp/X/app" ∧
       run.2 !! ["tmp"; "X"; "app"; "src"; "components"] = Some Dir.
Proof.
  intros run.
  assert (∃ r, run.1 = Returned r) as [r H1] by (vm_compute; by eexists).
  assert (run = (Returned r, run.2)) as Hrun by (rewrite <- H1; apply surjective_pairing).
  destruct (scaffold_makes_directories quietHost scenarioCatalogue "app" layered "/tmp/X"
              emptyBase run.2 r Hrun) as (Htarget & _ & _ & Hdirs).
  exists r. split; [exact H1 |]. split; [exact Htarget |].
  apply (Hdirs "src/components"); [by left | done |].
  rewrite Htarget. by exists [].
Defined.

(** ** Scaffolding where nothing is in the way *)

Section Fresh.

Import PathFacts PathMore.
Context (host : Host).

(** *** Paths without a NUL character *)

Lemma nulFree_app a b : Js.nulFree (a +:+ b) = Js.nulFree a && Js.nulFree b.
Proof.
  induction a as [|c a IH]; [done |].
  change (String c a +:+ b) with (String c (a +:+ b)). simpl.
  by rewrite IH, andb_assoc.
Qed.

Lemma nulFree_concat (l : list string) :
  Forall (λ s, Js.nulFree s = true) l → Js.nulFree (String.concat "/" l) = true.
Proof.
  induction 1 as [|s l Hs _ IH]; [done |]. destruct l as [|t l]; [done |].
  change (String.concat "/" (s :: t :: l)) with (s +:+ "/" +:+ String.concat "/" (t :: l)).
  by rewrite !nulFree_app, Hs, IH.
Qed.

Lemma nulFree_split s :
  Js.nulFree s = true → Forall (λ x, Js.nulFree x = true) (Js.split s).
Proof.
  induction s as [|c s IH]; simpl; [by repeat constructor |].
  intros [Hc Hs]%andb_true_iff. specialize (IH Hs).
  destruct (Js.isSlash c); [by constructor |].
  pose proof (split_not_nil s) as Hne. destruct (Js.split s) as [|x xs]; [done |].
  inversion IH; subst. constructor; [|done]. simpl. by rewrite Hc.
Qed.

Lemma nulFree_absolute segs :
  Forall (λ s, Js.nulFree s = true) segs → Js.nulFree (absolute segs) = true.
Proof. intros Hsegs. unfold absolute. by rewrite nulFree_app, nulFree_concat. Qed.

Lemma nulFree_segments p :
  Js.nulFree p = true → Forall (λ s, Js.nulFree s = true) (path.segments p).
Proof.
  intros Hp. apply Forall_forall. intros x [_ Hx]%list_elem_of_filter.
  pose proof (nulFree_split p Hp) as Hall. rewrite Forall_forall in Hall. by apply Hall.
Qed.

(** *** Where nothing is in the way *)

Lemma absolute_not_empty segs : String.eqb (absolute segs) "" = false.
Proof. done. Qed.

Lemma endsWithSlash_absolute names :
  names ≠ [] → Forall isName names → Js.endsWithSlash (absolute names) = false.
Proof.
  intros Hne Hnames. unfold absolute.
  rewrite endsWithSlash_app by by apply concat_names_not_empty.
  by apply endsWithSlash_names.
Qed.

Lemma join_plain rs p :
  Forall isName rs → plainRelative p = true →
  Js.split p ≠ [] ∧ Forall isName (Js.split p) ∧
  path.join [absolute rs; p] = absolute (rs ++ Js.split p).
Proof.
  intros Hrs Hp. pose proof (plainRelative_names p Hp) as Hn.
  pose proof (split_not_nil p) as Hne. split_and!; [done..|].
  rewrite <- (concat_split p) at 1. by apply join_absolute_names.
Qed.

Lemma removelast_prefix (l : list string) : removelast l `prefix_of` l.
Proof.
  destruct l as [|x l]; [done |].
  exists [List.last (x :: l) ""]. by apply app_removelast_last.
Qed.

Lemma names_snoc (names : list string) :
  names ≠ [] → Forall isName names →
  names = (removelast names ++ [List.last names ""])%list ∧
  Forall isName (removelast names) ∧ isName (List.last names "").
Proof.
  intros Hne Hnames. pose proof (app_removelast_last "" Hne) as Hsnoc.
  split; [done |]. rewrite Hsnoc in Hnames.
  apply Forall_app in Hnames as [? Hl]. split; [done | by inversion Hl].
Qed.

Lemma walkParents_made d pre rest :
  (∀ r1 r2, rest = (r1 ++ r2)%list → r1 ≠ [] → d !! (pre ++ r1)%list = Some Dir) →
  walkParents d pre rest = None.
Proof.
  revert pre. induction rest as [|s rest IH]; intros pre Hall; simpl; [done |].
  rewrite (Hall [s] rest) by done. apply IH. intros r1 r2 -> Hr1.
  rewrite <- app_assoc. by apply (Hall (s :: r1) r2).
Qed.

Lemma clearAround_below (rs names : list string) (d : Disk) k bytes :
  clearAround rs d → k `prefix_of` (rs ++ names)%list → d !! k ≠ Some (File bytes).
Proof.
  intros Hc Hk Hfile. destruct (Hc k bytes Hfile) as [H1 H2].
  assert (rs `prefix_of` (rs ++ names)%list) as Hrs by by apply prefix_app_r.
  by destruct (prefix_weak_total _ _ _ Hk Hrs).
Qed.

Lemma adds_dirs_keep_clear (rs : list string) (A : list string → Node → Prop) (d d' : Disk) :
  adds A d d' → (∀ k n, A k n → n = Dir) → clearAround rs d → clearAround rs d'.
Proof.
  intros [Hsub Hnew] HA Hc k bytes Hk. destruct (d !! k) as [n|] eqn:Hd.
  - rewrite (lookup_weaken _ _ _ _ Hd Hsub) in Hk. injection Hk as ->. by apply (Hc k bytes).
  - by specialize (HA _ _ (Hnew _ _ Hd Hk)).
Qed.

Lemma freeTarget_clearAround (rs : list string) (d : Disk) : freeTarget d rs → clearAround rs d.
Proof.
  intros [Habove Hbelow] k bytes Hk. split.
  - intros Hpre. by apply (Habove k bytes).
  - intros Hpre. destruct (decide (k = rs)) as [->|Hne].
    + by apply (Habove rs bytes).
    + rewrite (Hbelow k Hpre Hne) in Hk. done.
Qed.

(** [ensureDirectory] returns where no file is in the way. *)
Lemma ensureDirectory_clear segs d :
  Forall isName segs →
  Forall (λ s, Js.nulFree s = true) segs →
  fault host Mkdir (absolute segs) = None →
  (∀ k bytes, k `prefix_of` segs → d !! k ≠ Some (File bytes)) →
  ∃ d', ensureDirectory host (absolute segs) d = (Returned (), d') ∧
        adds (λ k n, n = Dir ∧ k `prefix_of` segs) d d'.
Proof.
  intros Hs Hnul Hquiet Hclear.
  destruct (mkdirp_clear d [] segs) as [d' Hm].
  { intros r1 r2 bytes -> _. apply Hclear. by exists r2. }
  exists d'. split.
  - apply ensureDirectory_Returned.
    rewrite fs_mkdir_run by (done || by apply nulFree_absolute).
    by rewrite absolute_segments, Hm.
  - by apply mkdirp_adds in Hm.
Qed.

(** [ensureFile] writes where the path is free and no file is above it. *)
Lemma ensureFile_fresh r last c d :
  Forall isName r → isName last →
  Forall (λ s, Js.nulFree s = true) r → Js.nulFree last = true →
  fault host Mkdir (absolute r) = None →
  fault host Open (absolute (r ++ [last])) = None →
  fault host Write (absolute (r ++ [last])) = None →
  (∀ k bytes, k `prefix_of` r → d !! k ≠ Some (File bytes)) →
  d !! (r ++ [last])%list = None →
  ∃ d', ensureFile host (absolute (r ++ [last])) c d = (Returned true, d') ∧
        d' !! (r ++ [last])%list = Some (File c) ∧
        adds (λ k n, (n = Dir ∧ k `prefix_of` r) ∨ (n = File c ∧ k = (r ++ [last])%list)) d d'.
Proof.
  intros Hr Hlast Hnulr Hnull Hmkdir Hopen Hwrite Hclear Hnone.
  assert (Forall isName (r ++ [last])) as Hall by (apply Forall_app; split; [done | by constructor]).
  assert (Js.nulFree (absolute (r ++ [last])) = true) as Hnul.
  { apply nulFree_absolute, Forall_app. split; [done | by constructor]. }
  destruct (mkdirp_clear d [] r) as [dm Hm].
  { intros r1 r2 bytes -> _. apply Hclear. by exists r2. }
  pose proof (mkdirp_adds _ _ _ _ Hm) as [Hsub Hnew]. simpl in Hnew.
  assert (dm !! (r ++ [last])%list = None) as Hfree.
  { destruct (dm !! (r ++ [last])%list) as [n|] eqn:Hk; [|done].
    destruct (Hnew _ _ Hnone Hk) as [_ Hpre]. apply prefix_length in Hpre.
    rewrite length_app in Hpre. simpl in Hpre. lia. }
  exists (<[(r ++ [last])%list := File c]> dm). split_and!.
  - apply ensureFile_true, createFile_Returned. split; [done |]. exists dm. split.
    + rewrite dirname_absolute_snoc by done.
      rewrite fs_mkdir_run by (done || by apply nulFree_absolute).
      by rewrite absolute_segments, Hm.
    + unfold fs_writeFile.
      rewrite Hnul, Hopen, absolute_not_empty, endsWithSlash_absolute by (done || by destruct r).
      cbv zeta. rewrite absolute_segments, removelast_last by done.
      rewrite walkParents_made; [by rewrite Hfree, Hwrite |].
      intros r1 r2 Hsplit Hr1. by eapply (mkdirp_made d [] r dm r1 r2).
  - by rewrite lookup_insert_eq.
  - split; [etrans; [exact Hsub | by apply insert_subseteq] |].
    intros k n Hk0 Hk. destruct (decide (k = (r ++ [last])%list)) as [->|Hne].
    + rewrite lookup_insert_eq in Hk. right. by injection Hk as <-.
    + rewrite lookup_insert_ne in Hk by done. left. by apply Hnew.
Qed.

Lemma dirLoop_clear rs dirs acc d :
  Forall isName rs → Forall (λ s, Js.nulFree s = true) rs →
  Forall (λ dir, plainRelative dir = true ∧ Js.nulFree dir = true ∧
                 fault host Mkdir (path.join [absolute rs; dir]) = None) dirs →
  clearAround rs d →
  ∃ d', dirLoop host (absolute rs) dirs acc d = (Returned (acc ++ dirs)%list, d') ∧
        adds (λ k n, n = Dir ∧ ∃ dir, dir ∈ dirs ∧ k `prefix_of` (rs ++ Js.split dir)%list) d d'.
Proof.
  intros Hrs Hnul Hdirs. revert acc d.
  induction Hdirs as [|dir dirs (Hdir & Hnuld & Hquiet) _ IH]; intros acc d Hc; simpl.
  - exists d. split; [by rewrite app_nil_r | apply adds_refl].
  - destruct (join_plain rs dir Hrs Hdir) as (Hne & Hnames & Hjoin).
    rewrite Hjoin in Hquiet |- *.
    destruct (ensureDirectory_clear (rs ++ Js.split dir) d) as (d1 & Hrun & Hadd).
    { by apply Forall_app. }
    { apply Forall_app. split; [done | by apply nulFree_split]. }
    { done. }
    { intros k bytes Hk. by eapply clearAround_below. }
    destruct (IH (acc ++ [dir])%list d1) as (d' & Hrest & Hadd').
    { eapply adds_dirs_keep_clear; [exact Hadd | by intros k n [-> _] | done]. }
    exists d'. split.
    + rewrite bind_run, Hrun, Hrest. by rewrite <- app_assoc.
    + eapply adds_trans.
      * eapply adds_mono; [|exact Hadd]. intros k n [-> Hk]. split; [done |].
        exists dir. split; [left | done].
      * eapply adds_mono; [|exact Hadd']. intros k n (-> & x & Hx & Hk). split; [done |].
        exists x. split; [by right | done].
Qed.

Lemma fileLoop_fresh rs fs cr sk d :
  Forall isName rs → Forall (λ s, Js.nulFree s = true) rs →
  Forall (λ f, plainRelative (path f) = true ∧ Js.nulFree (path f) = true ∧
               fault host Mkdir (path.dirname (path.join [absolute rs; path f])) = None ∧
               fault host Open (path.join [absolute rs; path f]) = None ∧
               fault host Write (path.join [absolute rs; path f]) = None) fs →
  apart (Js.split <$> (path <$> fs)) = true →
  (∀ f, f ∈ fs →
     (∀ k bytes, k `prefix_of` (rs ++ removelast (Js.split (path f)))%list →
                 d !! k ≠ Some (File bytes)) ∧
     d !! (rs ++ Js.split (path f))%list = None) →
  ∃ d', fileLoop host (absolute rs) fs cr sk d = (Returned ((cr ++ (path <$> fs))%list, sk), d') ∧
        ∀ f, f ∈ fs → d' !! (rs ++ Js.split (path f))%list = Some (File (content f)).
Proof.
  intros Hrs Hnul Hplain. revert cr sk d.
  induction Hplain as [|f fs (Hf & Hnulf & Hmkdir & Hopen & Hwrite) _ IH];
    intros cr sk d Hapart Hpre; simpl.
  - exists d. split; [by rewrite app_nil_r | by intros f ?%elem_of_nil].
  - simpl in Hapart. apply andb_true_iff in Hapart as [Hothers Hapart].
    rewrite forallb_forall in Hothers.
    destruct (join_plain rs (path f) Hrs Hf) as (Hne & Hnames & Hjoin).
    destruct (names_snoc _ Hne Hnames) as (Hsnoc & Hinit & Hlast).
    destruct (Hpre f) as [Hclear Hnone]; [left |].
    assert (Forall (λ s, Js.nulFree s = true) (removelast (Js.split (path f))) ∧
            Js.nulFree (List.last (Js.split (path f)) "") = true) as [Hnulinit Hnullast].
    { pose proof (nulFree_split _ Hnulf) as Hall. rewrite Hsnoc in Hall.
      apply Forall_app in Hall as [? Hl]. split; [done | by inversion Hl]. }
    rewrite Hjoin in Hmkdir, Hopen, Hwrite.
    rewrite Hsnoc, app_assoc in Hmkdir, Hopen, Hwrite.
    rewrite dirname_absolute_snoc in Hmkdir by (done || by apply Forall_app).
    destruct (ensureFile_fresh (rs ++ removelast (Js.split (path f)))
                (List.last (Js.split (path f)) "") (content f) d)
      as (d1 & Hrun & Hthere & [Hsub Hnew]); try done.
    { by apply Forall_app. }
    { by apply Forall_app. }
    { rewrite <- app_assoc, <- Hsnoc. exact Hnone. }
    rewrite <- app_assoc, <- Hsnoc in Hrun, Hthere.
    destruct (IH (cr ++ [path f])%list sk d1 Hapart) as (d' & Hrest & Hcontents).
    { intros g Hg.
      assert (¬ Js.split (path f) `prefix_of` Js.split (path g) ∧
              ¬ Js.split (path g) `prefix_of` Js.split (path f)) as [Hfg Hgf].
      { specialize (Hothers (Js.split (path g))).
        rewrite andb_true_iff, !negb_true_iff in Hothers.
        destruct Hothers as [H1 H2].
        { apply list_elem_of_In, list_elem_of_fmap. exists (path g). split; [done |].
          apply list_elem_of_fmap. by exists g. }
        split; intros H%segsPrefix_spec; congruence. }
      destruct (Hpre g) as [Hgclear Hgnone]; [by right |]. split.
      - intros k bytes Hk Hfile. destruct (d !! k) as [n|] eqn:Hd.
        + rewrite (lookup_weaken _ _ _ _ Hd Hsub) in Hfile. injection Hfile as ->.
          by apply (Hgclear k bytes).
        + destruct (Hnew _ _ Hd Hfile) as [[? _] | [_ Heq]]; [done |].
          rewrite <- app_assoc, <- Hsnoc in Heq. subst k.
          apply Hfg. apply prefix_app_inv in Hk. etrans; [exact Hk | apply removelast_prefix].
      - destruct (d1 !! (rs ++ Js.split (path g))%list) as [n|] eqn:Hk; [|done]. exfalso.
        destruct (Hnew _ _ Hgnone Hk) as [[_ Hpre'] | [_ Heq]].
        + apply Hgf. apply prefix_app_inv in Hpre'.
          etrans; [exact Hpre' |]. rewrite Hsnoc at 2. by apply prefix_app_r.
        + rewrite <- app_assoc, <- Hsnoc in Heq. apply app_inv_head in Heq.
          apply Hgf. by rewrite Heq. }
    exists d'. split.
    + rewrite bind_run, Hjoin, Hrun, Hrest. by rewrite <- app_assoc.
    + intros g [->|Hg]%elem_of_cons; [|by apply Hcontents].
      eapply lookup_weaken; [exact Hthere |]. by eapply fileLoop_subseteq.
Qed.

(** Into a free target, a pattern that fits together is written whole. *)
Lemma scaffoldProject_fresh PATTERNS inputPath patternType baseDir root d :
  path.isAbsolute baseDir = true →
  resolveSafeTarget host inputPath baseDir = Returned root →
  Js.nulFree root = true →
  (∀ sc q, (sc, q) ∈ requests root (PATTERNS patternType) → fault host sc q = None) →
  fitsTogether (PATTERNS patternType) = true →
  freeTarget d (path.segments root) →
  ∃ d', scaffoldProject host PATTERNS inputPath patternType baseDir d =
          (Returned {| resolvedTarget := root;
                       createdDirs := directories (PATTERNS patternType);
                       createdFiles := path <$> files (PATTERNS patternType);
                       skippedFiles := [];
                       resultLabel := label (PATTERNS patternType) |}, d') ∧
        ∀ f, f ∈ files (PATTERNS patternType) →
             readFile d' (path.join [root; path f]) = Some (content f).
Proof.
  intros Hbase Hguard Hnulroot Hquiet Hfits Hfree.
  destruct (resolveSafeTarget_Returned_segs host _ _ _ Hbase Hguard) as (rs & Hrs & -> & _).
  assert (Forall (λ s, Js.nulFree s = true) rs) as Hnul.
  { rewrite <- (absolute_segments rs Hrs). by apply nulFree_segments. }
  rewrite absolute_segments in Hfree by done.
  unfold fitsTogether in Hfits. rewrite !andb_true_iff in Hfits.
  destruct Hfits as [[[[[Hdirs Hfiles] Hnuldirs] Hnulfiles] Hcross] Hapart].
  rewrite forallb_forall in Hdirs, Hfiles, Hnuldirs, Hnulfiles, Hcross.
  pose proof (freeTarget_clearAround _ _ Hfree) as Hc.
  destruct (ensureDirectory_clear rs d Hrs Hnul) as (d1 & Hrun1 & Hadd1).
  { apply Hquiet. unfold requests. left. }
  { intros k bytes Hk. apply (clearAround_below rs [] d k bytes Hc). by rewrite app_nil_r. }
  destruct (dirLoop_clear rs (directories (PATTERNS patternType)) [] d1 Hrs Hnul)
    as (d2 & Hrun2 & Hadd2).
  { apply Forall_forall. intros dir Hdir.
    split_and!; [by apply Hdirs, list_elem_of_In | by apply Hnuldirs, list_elem_of_In |].
    apply Hquiet. unfold requests. right. apply elem_of_app. left.
    apply list_elem_of_fmap. by exists dir. }
  { eapply adds_dirs_keep_clear; [exact Hadd1 | by intros k n [-> _] | done]. }
  assert (adds (λ k n, n = Dir ∧
                 (k `prefix_of` rs ∨
                  ∃ dir, dir ∈ directories (PATTERNS patternType) ∧
                         k `prefix_of` (rs ++ Js.split dir)%list)) d d2) as [Hsub Hnew].
  { apply (adds_trans _ d d1 d2); [eapply adds_mono; [|exact Hadd1] | eapply adds_mono; [|exact Hadd2]].
    - intros k n [-> Hk]. split; [done | by left].
    - intros k n [-> Hk]. split; [done | by right]. }
  destruct (fileLoop_fresh rs (files (PATTERNS patternType)) [] [] d2 Hrs Hnul)
    as (d3 & Hrun3 & Hcontents).
  { apply Forall_forall. intros f Hf.
    assert (path f ∈ path <$> files (PATTERNS patternType)) as Hpath
      by (apply list_elem_of_fmap; by exists f).
    assert (∀ sc q, (sc, q) ∈ [ (Mkdir, path.dirname (path.join [absolute rs; path f]));
                                (Open, path.join [absolute rs; path f]);
                                (Write, path.join [absolute rs; path f]) ] →
                    fault host sc q = None) as Hcalls.
    { intros sc q Hq. apply Hquiet. unfold requests. right. apply elem_of_app. right.
      apply list_elem_of_bind. by exists f. }
    split_and!; [by apply Hfiles, list_elem_of_In | by apply Hnulfiles, list_elem_of_In | ..];
      apply Hcalls; [left | right; left | right; right; left]. }
  { done. }
  { intros f Hf.
    assert (plainRelative (path f) = true) as Hplain.
    { apply Hfiles, list_elem_of_In, list_elem_of_fmap. by exists f. }
    pose proof (split_not_nil (path f)) as Hne. split.
    - intros k bytes. apply (clearAround_below rs _ d2 k bytes).
      eapply adds_dirs_keep_clear; [split; [exact Hsub | exact Hnew] | by intros q n [-> _] | done].
    - assert (d !! (rs ++ Js.split (path f))%list = None) as Hnone.
      { apply Hfree; [by apply prefix_app_r |]. intros Heq.
        rewrite <- (app_nil_r rs) in Heq at 2. by apply app_inv_head in Heq. }
      destruct (d2 !! (rs ++ Js.split (path f))%list) as [n|] eqn:Hk; [|done]. exfalso.
      destruct (Hnew _ _ Hnone Hk) as [_ [Hpre | (dir & Hdir & Hpre)]].
      + apply prefix_length in Hpre. rewrite length_app in Hpre.
        destruct (Js.split (path f)); [done |]. simpl in Hpre. lia.
      + apply prefix_app_inv, segsPrefix_spec in Hpre.
        specialize (Hcross (path f)). rewrite forallb_forall in Hcross.
        specialize (Hcross ltac:(apply list_elem_of_In, list_elem_of_fmap; by exists f)
                      dir ltac:(by apply list_elem_of_In)).
        rewrite Hpre in Hcross. done. }
  exists d3. split.
  - unfold scaffoldProject. rewrite bind_run. unfold liftOutcome at 1. rewrite Hguard.
    rewrite bind_run, Hrun1, bind_run, Hrun2, bind_run, Hrun3. done.
  - intros f Hf.
    assert (plainRelative (path f) = true) as Hplain.
    { apply Hfiles, list_elem_of_In, list_elem_of_fmap. by exists f. }
    destruct (join_plain rs (path f) Hrs Hplain) as (_ & Hnames & ->).
    unfold readFile. rewrite absolute_segments by by apply Forall_app.
    by rewrite (Hcontents f Hf).
Qed.

End Fresh.

(** ** The catalogue *)

Section Catalogue.

Context (contents : PatternType → nat → string).

Lemma fmap_path_imap (c : nat → string) (l : list string) :
  path <$> imap (λ i p, {| path := p; content := c i |}) l = l.
Proof.
  revert c. induction l as [|p l IH]; intros c; [done |]. csimpl. f_equal.
  apply (IH (c ∘ S)).
Qed.

Lemma PATTERNS_paths patternType :
  path <$> files (PATTERNS contents patternType) = patternFilePaths patternType.
Proof. apply fmap_path_imap. Qed.

Lemma PATTERNS_file patternType i p :
  patternFilePaths patternType !! i = Some p →
  {| path := p; content := contents patternType i |} ∈ files (PATTERNS contents patternType).
Proof.
  intros Hi. apply list_elem_of_lookup. exists i. unfold PATTERNS. simpl.
  by rewrite list_lookup_imap, Hi.
Qed.

(** The paths of the four patterns are plain and do not collide. *)
Lemma PATTERNS_fitsTogether patternType :
  fitsTogether (PATTERNS contents patternType) = true.
Proof.
  unfold fitsTogether. rewrite PATTERNS_paths.
  change (directories (PATTERNS contents patternType)) with (patternDirectories patternType).
  destruct patternType; vm_compute; reflexivity.
Qed.

Lemma PATTERNS_plain patternType :
  forallb plainRelative (directories (PATTERNS contents patternType)) = true ∧
  forallb plainRelative (path <$> files (PATTERNS contents patternType)) = true.
Proof.
  pose proof (PATTERNS_fitsTogether patternType) as Hfits. unfold fitsTogether in Hfits.
  rewrite !andb_true_iff in Hfits. by destruct Hfits as [[[[[? ?] _] _] _] _].
Qed.

End Catalogue.

(** ** [path.basename] *)

Section Basename.

Import PathFacts PathMore.

Lemma takeWhile_app f l x rest :
  Forall (λ c, f c = true) l → f x = false → posix.takeWhile f (l ++ x :: rest) = l.
Proof.
  intros Hall Hx. induction Hall as [|c l Hc _ IH]; simpl; [by rewrite Hx |].
  by rewrite Hc, IH.
Qed.

Lemma basename_after_slash pre last :
  isName last → posix.basename (pre +:+ String "/" last) = last.
Proof.
  intros (Hne & _ & _ & Hfree). pose proof (slashFree_chars last Hfree) as Hchars.
  unfold posix.basename. rewrite list_ascii_app.
  change (list_ascii_of_string (String "/" last)) with ("/"%char :: list_ascii_of_string last).
  rewrite rev_app_distr.
  change (rev ("/"%char :: list_ascii_of_string last))
    with (rev (list_ascii_of_string last) ++ ["/"%char])%list.
  rewrite <- app_assoc.
  assert (Forall (λ c, Js.isSlash c = false) (rev (list_ascii_of_string last))) as Hall
    by by apply Forall_rev.
  destruct (rev (list_ascii_of_string last)) as [|c cs] eqn:Hrev.
  { apply (f_equal (@rev ascii)) in Hrev. rewrite rev_involutive in Hrev.
    destruct last; [done | discriminate]. }
  change (((c :: cs) ++ ["/"%char] ++ rev (list_ascii_of_string pre))%list)
    with (c :: (cs ++ "/"%char :: rev (list_ascii_of_string pre)))%list.
  cbn [path.dropWhile]. inversion Hall as [|?? Hc Hcs]; subst. rewrite Hc.
  change (c :: (cs ++ "/"%char :: rev (list_ascii_of_string pre)))%list
    with ((c :: cs) ++ "/"%char :: rev (list_ascii_of_string pre))%list.
  rewrite takeWhile_app.
  - by rewrite <- Hrev, rev_involutive, string_of_list_ascii_of_string.
  - eapply Forall_impl; [exact Hall |]. intros x Hx. by rewrite Hx.
  - done.
Qed.

(** The base name of an absolute path in normal form is its last segment. *)
Lemma basename_absolute_snoc r last :
  Forall isName r → isName last → posix.basename (absolute (r ++ [last])) = last.
Proof.
  intros Hr Hlast. destruct r as [|s r].
  - by apply (basename_after_slash "" last).
  - unfold absolute. rewrite concat_snoc by done.
    by apply (basename_after_slash ("/" +:+ String.concat "/" (s :: r)) last).
Qed.

End Basename.

(** ** The tool handler *)

Section Handler.

Import PathFacts PathMore.
Context (zodMessage : gmap string Mcp.Json → string) (host : Host).
Context (PATTERNS : PatternType → PatternDefinition).

Lemma callTool_scaffold arguments d :
  callTool zodMessage host PATTERNS "scaffold_react_project" arguments d =
    match ScaffoldInputSchema_parseObject (default ∅ arguments) with
    | None => (errorResult (zodMessage (default ∅ arguments)), d)
    | Some input =>
        match scaffoldProject host PATTERNS input.1 input.2 (cwd host) d with
        | (Returned result, d') => (textResult (String.concat LF (responseParts result)), d')
        | (Thrown error, d') => (errorResult (message error), d')
        end
    end.
Proof.
  unfold callTool. cbv zeta.
  change (String.eqb "scaffold_react_project" "describe_architectures") with false.
  change (String.eqb "scaffold_react_project" "scaffold_react_project") with true.
  cbv iota. rewrite bind_run. unfold liftOutcome at 1.
  destruct (ScaffoldInputSchema_parseObject (default ∅ arguments)) as [input|]; [|done].
  rewrite bind_run.
  by destruct (scaffoldProject host PATTERNS input.1 input.2 (cwd host) d) as [[r|e] d'].
Qed.

Lemma callTool_other toolName arguments d :
  toolName ≠ "scaffold_react_project" →
  (callTool zodMessage host PATTERNS toolName arguments d).2 = d.
Proof.
  intros Hname. unfold callTool. cbv zeta.
  destruct (String.eqb toolName "describe_architectures"); [done |].
  destruct (String.eqb_spec toolName "scaffold_react_project"); done.
Qed.

Lemma PatternTypeSchema_parse_Some v patternType :
  PatternTypeSchema_parse v = Some patternType ↔ v = Mcp.JString (patternKey patternType).
Proof.
  split.
  - destruct v as [| | |s| |]; try done. unfold PatternTypeSchema_parse.
    destruct (String.eqb_spec s "layered") as [->|_]; [by intros [= <-] |].
    destruct (String.eqb_spec s "feature") as [->|_]; [by intros [= <-] |].
    destruct (String.eqb_spec s "atomic") as [->|_]; [by intros [= <-] |].
    destruct (String.eqb_spec s "clean") as [->|_]; [by intros [= <-] | done].
  - intros ->. by destruct patternType.
Qed.

(** The arguments the schema accepts. *)
Lemma parseObject_Some args p patternType :
  ScaffoldInputSchema_parseObject args = Some (p, patternType) ↔
  args !! "path" = Some (Mcp.JString p) ∧ p ≠ "" ∧
  args !! "pattern_type" = Some (Mcp.JString (patternKey patternType)).
Proof.
  unfold ScaffoldInputSchema_parseObject, ScaffoldInputSchema_parse. split.
  - destruct (args !! "path") as [[| | |s| |]|]; try done.
    destruct (args !! "pattern_type") as [v|]; [|done].
    case_bool_decide as Hlen; [|done].
    destruct (PatternTypeSchema_parse v) as [t|] eqn:Hv; [|done].
    intros [= -> ->]. apply PatternTypeSchema_parse_Some in Hv as ->.
    split_and!; [done | | done]. intros ->. simpl in Hlen. lia.
  - intros (-> & Hne & ->). rewrite bool_decide_eq_true_2.
    + by rewrite (proj2 (PatternTypeSchema_parse_Some _ patternType) eq_refl).
    + destruct p; [done | simpl; lia].
Qed.

Lemma callTool_invalid arguments d :
  (∀ p patternType,
     ¬ (default ∅ arguments !! "path" = Some (Mcp.JString p) ∧ p ≠ "" ∧
        default ∅ arguments !! "pattern_type" = Some (Mcp.JString (patternKey patternType)))) →
  callTool zodMessage host PATTERNS "scaffold_react_project" arguments d =
    (errorResult (zodMessage (default ∅ arguments)), d).
Proof.
  intros Hbad. rewrite callTool_scaffold.
  destruct (ScaffoldInputSchema_parseObject (default ∅ arguments)) as [[p t]|] eqn:Hparse; [|done].
  apply parseObject_Some in Hparse. by destruct (Hbad p t).
Qed.

Lemma callTool_valid args p patternType d :
  args !! "path" = Some (Mcp.JString p) → p ≠ "" →
  args !! "pattern_type" = Some (Mcp.JString (patternKey patternType)) →
  callTool zodMessage host PATTERNS "scaffold_react_project" (Some args) d =
    match scaffoldProject host PATTERNS p patternType (cwd host) d with
    | (Returned result, d') => (textResult (String.concat LF (responseParts result)), d')
    | (Thrown error, d') => (errorResult (message error), d')
    end.
Proof.
  intros Hp Hne Ht. rewrite callTool_scaffold. simpl.
  by rewrite (proj2 (parseObject_Some args p patternType)).
Qed.

End Handler.

(** ** A failure on a directory *)

Section Partial.

Context (host : Host) (PATTERNS : PatternType → PatternDefinition).

(** A call that fails on a directory has made directories only. *)
Lemma scaffoldProject_directory_failure inputPath patternType baseDir d e d' :
  scaffoldProject host PATTERNS inputPath patternType baseDir d = (Thrown e, d') →
  kindOfMessage (message e) = Some DirectoryKind →
  adds (λ k n, n = Dir) d d'.
Proof.
  unfold scaffoldProject. rewrite bind_run. unfold liftOutcome at 1.
  destruct (resolveSafeTarget host inputPath baseDir) as [root|e0];
    [|intros [= <- <-] _; apply adds_refl].
  rewrite bind_run.
  destruct (ensureDirectory host root d) as [o1 d1] eqn:Hroot.
  assert (adds (λ k n, n = Dir) d d1) as Hadd1.
  { eapply (ensureDirectory_keeps_adds host (λ k n, n = Dir) d root);
      [done | apply adds_refl | exact Hroot]. }
  destruct o1 as [[]|e1]; [|by intros [= <- <-] _].
  rewrite bind_run.
  destruct (dirLoop host root (directories (PATTERNS patternType)) [] d1) as [o2 d2] eqn:Hdirs.
  assert (adds (λ k n, n = Dir) d d2) as Hadd2.
  { eapply (dirLoop_keeps_adds host (λ k n, n = Dir) d root);
      [done | exact Hadd1 | exact Hdirs]. }
  destruct o2 as [dirs|e2]; [|by intros [= <- <-] _].
  rewrite bind_run.
  destruct (fileLoop host root (files (PATTERNS patternType)) [] [] d2)
    as [[[cr sk]|e3] d3] eqn:Hfiles; [done |].
  intros [= <- <-] Hkind.
  apply fileLoop_Thrown in Hfiles as (f & cause & di & _ & _ & _ & _ & ->).
  by rewrite kindOfMessage_file in Hkind.
Qed.

End Partial.

Lemma freeTarget_empty target : freeTarget ∅ target.
Proof. split; [by intros k bytes _ | intros k _ _; apply lookup_empty]. Qed.

Lemma freeTarget_emptyBase name : freeTarget emptyBase ["tmp"; "X"; name].
Proof.
  unfold emptyBase. split.
  - intros k bytes _ Hk.
    apply lookup_insert_Some in Hk as [[_ [=]] | [_ Hk]].
    apply lookup_insert_Some in Hk as [[_ [=]] | [_ Hk]]. done.
  - intros k [rest ->] Hne. rewrite !lookup_insert_ne by done. apply lookup_empty.
Qed.

(** X8: on a disk of directories and regular files, with an absolute
    [baseDir], when the guard returns a target without a NUL character, the
    host fails none of the calls the scaffolding makes for it (the [mkdir]
    of the target, of each directory and of the directory of each file, and
    the open and the write of each file), the paths of the pattern are plain,
    hold no NUL character and do not collide, and the target is missing or an
    empty directory with no file above it: [scaffoldProject] returns,
    reports every file as created and none as skipped, and every file of the
    pattern holds its content. *)
Theorem scaffold_free_target_written_whole (host : Host)
    (PATTERNS : PatternType → PatternDefinition)
    (inputPath : string) (patternType : PatternType) (baseDir root : string) (d : Disk) :
  path.isAbsolute baseDir = true →
  resolveSafeTarget host inputPath baseDir = Returned root →
  Js.nulFree root = true →
  (∀ sc q, (sc, q) ∈ requests root (PATTERNS patternType) → fault host sc q = None) →
  fitsTogether (PATTERNS patternType) = true →
  freeTarget d (path.segments root) →
  ∃ d', scaffoldProject host PATTERNS inputPath patternType baseDir d =
          (Returned {| resolvedTarget := root;
                       createdDirs := directories (PATTERNS patternType);
                       createdFiles := path <$> files (PATTERNS patternType);
                       skippedFiles := [];
                       resultLabel := label (PATTERNS patternType) |}, d') ∧
        ∀ f, f ∈ files (PATTERNS patternType) →
             readFile d' (path.join [root; path f]) = Some (content f).
Proof. apply scaffoldProject_fresh. Qed.

Lemma scaffold_free_target_written_whole_witness :
  ∃ d', scaffoldProject quietHost scenarioCatalogue "app" layered "/tmp/X" emptyBase =
          (Returned {| resolvedTarget := "/tmp/X/app";
                       createdDirs := ["src/components"];
                       createdFiles := ["src/app.ts"];
                       skippedFiles := [];
                       resultLabel := "Scenario" |}, d') ∧
        readFile d' "/tmp/X/app/src/app.ts" = Some "export {}".
Proof.
  destruct (scaffold_free_target_written_whole quietHost scenarioCatalogue "app" layered
              "/tmp/X" "/tmp/X/app" emptyBase eq_refl eq_refl eq_refl (λ _ _ _, eq_refl) eq_refl
              (freeTarget_emptyBase "app")) as (d' & Hrun & Hfiles).
  exists d'. split; [exact Hrun |].
  exact (Hfiles {| path := "src/app.ts"; content := "export {}" |} (list_elem_of_here _ _)).
Defined.

(** X9: when [scaffoldProject] fails on a directory, it has written no
    file: what was on the disk is still there, and every file on the disk
    was there before the call. *)
Theorem directory_failure_writes_no_file (host : Host)
    (PATTERNS : PatternType → PatternDefinition)
    (inputPath : string) (patternType : PatternType) (baseDir : string)
    (d d' : Disk) (e : JsError) :
  scaffoldProject host PATTERNS inputPath patternType baseDir d = (Thrown e, d') →
  kindOfMessage (message e) = Some DirectoryKind →
  d ⊆ d' ∧ ∀ k bytes, d' !! k = Some (File bytes) → d !! k = Some (File bytes).
Proof.
  intros Hrun Hkind.
  destruct (scaffoldProject_directory_failure _ _ _ _ _ _ _ _ Hrun Hkind) as [Hsub Hnew].
  split; [done |]. intros k bytes Hk. destruct (d !! k) as [n|] eqn:Hd.
  - by rewrite (lookup_weaken _ _ _ _ Hd Hsub) in Hk.
  - by specialize (Hnew _ _ Hd Hk).
Qed.

Lemma directory_failure_writes_no_file_witness :
  let run := scaffoldProject quietHost scenarioCatalogue "app" layered "/tmp/X" srcIsFile in
  ∃ e, run.1 = Thrown e ∧
       kindOfMessage (message e) = Some DirectoryKind ∧
       srcIsFile ⊆ run.2 ∧
       ∀ k bytes, run.2 !! k = Some (File bytes) → srcIsFile !! k = Some (File bytes).
Proof.
  intros run.
  assert (∃ e, run.1 = Thrown e ∧ kindOfMessage (message e) = Some DirectoryKind)
    as (e & H1 & Hkind) by (vm_compute; eexists; split; reflexivity).
  assert (run = (Thrown e, run.2)) as Hrun by (rewrite <- H1; apply surjective_pairing).
  destruct (directory_failure_writes_no_file quietHost scenarioCatalogue "app" layered "/tmp/X"
              srcIsFile run.2 e Hrun Hkind) as [Hsub Hfiles].
  exists e. split; [exact H1 |]. split; [exact Hkind |]. split; [exact Hsub | exact Hfiles].
Defined.

(** X10: on a disk of directories and regular files, without symbolic
    links (the code resolves none, and the containment is one of path
    names), with the catalogue of [PATTERNS] and an absolute working
    directory: whatever the tool and its arguments, the handler only adds to
    the disk; a tool other than [scaffold_react_project] adds nothing; and
    every entry added is in the working directory, or is a directory above
    it that was missing. *)
Theorem callTool_stays_in_cwd (zodMessage : gmap string Mcp.Json → string)
    (contents : PatternType → nat → string) (host : Host)
    (toolName : string) (arguments : option (gmap string Mcp.Json))
    (d d' : Disk) (response : Mcp.CallToolResult) :
  path.isAbsolute (cwd host) = true →
  callTool zodMessage host (PATTERNS contents) toolName arguments d = (response, d') →
  d ⊆ d' ∧
  (toolName ≠ "scaffold_react_project" → d' = d) ∧
  ∀ k n, d !! k = None → d' !! k = Some n →
    path.segments (path.resolve (cwd host) [cwd host]) `prefix_of` k ∨
    (k `prefix_of` path.segments (path.resolve (cwd host) [cwd host]) ∧ n = Dir).
Proof.
  intros Habs Hrun.
  destruct (decide (toolName = "scaffold_react_project")) as [->|Hother].
  - rewrite callTool_scaffold in Hrun.
    destruct (ScaffoldInputSchema_parseObject (default ∅ arguments)) as [[p t]|].
    + simpl in Hrun.
      destruct (scaffoldProject host (PATTERNS contents) p t (cwd host) d) as [o d1] eqn:Hs.
      assert (d' = d1) as -> by (destruct o; by injection Hrun).
      destruct (PATTERNS_plain contents t) as [Hdirs Hfiles].
      split_and!; [by eapply scaffoldProject_subseteq | done |].
      intros k n. by eapply scaffoldProject_in_base.
    + injection Hrun as _ <-. split_and!; [done | done | congruence].
  - pose proof (callTool_other zodMessage host (PATTERNS contents) toolName arguments d Hother)
      as Hsame.
    rewrite Hrun in Hsame. simpl in Hsame. subst d'. split_and!; [done | done | congruence].
Qed.

Lemma callTool_stays_in_cwd_witness :
  let run := callTool (λ _, "Invalid input") quietHost (PATTERNS (λ _ _, "")) "scaffold_react_project"
               (Some (<["path" := Mcp.JString "app"]> {["pattern_type" := Mcp.JString "clean"]})) ∅ in
  ∅ ⊆ run.2 ∧
  ∀ k n, (∅ : Disk) !! k = None → run.2 !! k = Some n →
    ["home"; "user"] `prefix_of` k ∨ (k `prefix_of` ["home"; "user"] ∧ n = Dir).
Proof.
  intros run.
  destruct (callTool_stays_in_cwd (λ _, "Invalid input") (λ _ _, "") quietHost
              "scaffold_react_project"
              (Some (<["path" := Mcp.JString "app"]> {["pattern_type" := Mcp.JString "clean"]}))
              ∅ run.2 run.1 eq_refl (surjective_pairing run)) as (Hsub & _ & Hin).
  split; [exact Hsub | exact Hin].
Defined.

(** X11: unless [path] is a string of one character at least and
    [pattern_type] one of the four keys, [scaffold_react_project] answers
    with [isError] and the message of the schema's error, and leaves the
    disk alone; a request without arguments counts as one with none. *)
Theorem callTool_refuses_invalid_arguments (zodMessage : gmap string Mcp.Json → string)
    (host : Host) (PATTERNS : PatternType → PatternDefinition)
    (arguments : option (gmap string Mcp.Json)) (d : Disk) :
  (∀ p patternType,
     ¬ (default ∅ arguments !! "path" = Some (Mcp.JString p) ∧ p ≠ "" ∧
        default ∅ arguments !! "pattern_type" = Some (Mcp.JString (patternKey patternType)))) →
  callTool zodMessage host PATTERNS "scaffold_react_project" arguments d =
    ({| Mcp.content := [ {| Mcp.type := "text";
                            Mcp.text := "❌ Error: " +:+ zodMessage (default ∅ arguments) |} ];
        Mcp.isError := Some true |}, d).
Proof. apply callTool_invalid. Qed.

Lemma callTool_refuses_invalid_arguments_witness :
  callTool (λ _, "Invalid input") quietHost scenarioCatalogue "scaffold_react_project" None emptyBase =
    ({| Mcp.content := [ {| Mcp.type := "text"; Mcp.text := "❌ Error: Invalid input" |} ];
        Mcp.isError := Some true |}, emptyBase).
Proof.
  apply (callTool_refuses_invalid_arguments (λ _, "Invalid input") quietHost scenarioCatalogue
           None emptyBase).
  intros p patternType (Hpath & _). simpl in Hpath. by rewrite lookup_empty in Hpath.
Defined.

(** X12: with an absolute working directory, valid arguments whose path
    resolves outside of it are answered with [isError] and the text of the
    security violation, and the disk is left alone. *)
Theorem callTool_refuses_escape (zodMessage : gmap string Mcp.Json → string)
    (host : Host) (PATTERNS : PatternType → PatternDefinition)
    (args : gmap string Mcp.Json) (p : string) (patternType : PatternType) (d : Disk) :
  path.isAbsolute (cwd host) = true →
  args !! "path" = Some (Mcp.JString p) → p ≠ "" →
  args !! "pattern_type" = Some (Mcp.JString (patternKey patternType)) →
  inside (cwd host) (cwd host) p = false →
  callTool zodMessage host PATTERNS "scaffold_react_project" (Some args) d =
    ({| Mcp.content :=
          [ {| Mcp.type := "text";
               Mcp.text := "❌ Error: Security violation: Target path '" +:+ p +:+
                           "' must be within the current working directory." |} ];
        Mcp.isError := Some true |}, d).
Proof.
  intros Habs Hp Hne Ht Hout.
  rewrite (callTool_valid zodMessage host PATTERNS args p patternType d Hp Hne Ht).
  by rewrite (scaffoldProject_guard_Thrown host PATTERNS p patternType (cwd host) _ d
                (resolveSafeTarget_outside host p (cwd host) Habs Hout)).
Qed.

Lemma callTool_refuses_escape_witness :
  callTool (λ _, "Invalid input") quietHost scenarioCatalogue "scaffold_react_project"
    (Some (<["path" := Mcp.JString "../etc"]> {["pattern_type" := Mcp.JString "clean"]}))
    emptyBase =
    ({| Mcp.content :=
          [ {| Mcp.type := "text";
               Mcp.text := "❌ Error: Security violation: Target path '../etc' must be within the current working directory." |} ];
        Mcp.isError := Some true |}, emptyBase).
Proof.
  apply (callTool_refuses_escape (λ _, "Invalid input") quietHost scenarioCatalogue
           (<["path" := Mcp.JString "../etc"]> {["pattern_type" := Mcp.JString "clean"]})
           "../etc" clean emptyBase); [reflexivity | by vm_compute | done | by vm_compute | reflexivity].
Defined.

(** X13: on a disk of directories and regular files, on a host whose
    working directory is an absolute path in normal form without a NUL
    character and which fails none of the calls the scaffolding makes for
    the target, for a [path] of plain names that holds no NUL character and
    does not begin with two dots and a target that is missing or an empty
    directory with no file above it: [scaffold_react_project] answers,
    without [isError], with the label, the target, the numbers of
    directories and files of the pattern, no line on skipped files and the
    next steps, and every file of the pattern is on the disk with its
    content. *)
Theorem callTool_scaffolds_free_target (zodMessage : gmap string Mcp.Json → string)
    (contents : PatternType → nat → string) (host : Host)
    (args : gmap string Mcp.Json) (p : string) (patternType : PatternType) (d : Disk) :
  path.isAbsolute (cwd host) = true →
  path.resolve (cwd host) [cwd host] = cwd host →
  Js.nulFree (cwd host) = true →
  args !! "path" = Some (Mcp.JString p) →
  args !! "pattern_type" = Some (Mcp.JString (patternKey patternType)) →
  plainRelative p = true →
  Js.nulFree p = true →
  Js.startsWith p ".." = false →
  (∀ sc q, (sc, q) ∈ requests (path.join [cwd host; p]) (PATTERNS contents patternType) →
           fault host sc q = None) →
  freeTarget d (path.segments (path.join [cwd host; p])) →
  ∃ d', callTool zodMessage host (PATTERNS contents) "scaffold_react_project" (Some args) d =
          ({| Mcp.content :=
                [ {| Mcp.type := "text";
                     Mcp.text := String.concat LF
                       [ "✅ Successfully scaffolded: " +:+ patternLabel patternType;
                         "📁 Target: " +:+ path.join [cwd host; p];
                         "📂 Created " +:+ pretty (length (patternDirectories patternType))
                           +:+ " directories";
                         "📄 Created " +:+ pretty (length (patternFilePaths patternType))
                           +:+ " files";
                         LF +:+ "🚀 Next steps:";
                         "  cd " +:+ List.last (Js.split p) "";
                         "  npm install";
                         "  npm run dev" ] |} ];
              Mcp.isError := None |}, d') ∧
        ∀ i q, patternFilePaths patternType !! i = Some q →
               readFile d' (path.join [path.join [cwd host; p]; q]) = Some (contents patternType i).
Proof.
  intros Habs Hnormal Hnulcwd Hp Ht Hplain Hnulp Hdots Hquiet Hfree.
  assert (p ≠ "") as Hne by (by intros ->).
  pose proof (resolveSafeTarget_plain host p (cwd host) Habs Hnormal Hplain Hdots) as Hguard.
  destruct (PathFacts.resolve_absolute (cwd host) [cwd host]) as (cs & Hcs & Hres).
  { apply Exists_cons_tl, Exists_cons_hd, Habs. }
  rewrite Hnormal in Hres.
  destruct (join_plain cs p Hcs Hplain) as (Hsome & Hnames & Hjoin).
  destruct (names_snoc _ Hsome Hnames) as (Hsnoc & Hinit & Hlast).
  assert (Js.nulFree (path.join [cwd host; p]) = true) as Hnulroot.
  { rewrite Hres, Hjoin. apply nulFree_absolute, Forall_app. split.
    - rewrite <- (PathFacts.absolute_segments cs Hcs), <- Hres. by apply nulFree_segments.
    - by apply nulFree_split. }
  destruct (scaffoldProject_fresh host (PATTERNS contents) p patternType (cwd host) _ d
              Habs Hguard Hnulroot Hquiet (PATTERNS_fitsTogether contents patternType) Hfree)
    as (d' & Hrun & Hfiles).
  exists d'. split.
  - rewrite (callTool_valid zodMessage host (PATTERNS contents) args p patternType d Hp Hne Ht).
    rewrite Hrun. unfold textResult, responseParts.
    cbn [resolvedTarget createdDirs createdFiles skippedFiles resultLabel].
    rewrite PATTERNS_paths.
    assert (posix.basename (path.join [cwd host; p]) = List.last (Js.split p) "") as ->.
    { rewrite Hres, Hjoin. rewrite Hsnoc at 1.
      rewrite app_assoc. apply basename_absolute_snoc; [by apply Forall_app | done]. }
    done.
  - intros i q Hi. apply (Hfiles _ (PATTERNS_file contents patternType i q Hi)).
Qed.

Lemma callTool_scaffolds_free_target_witness :
  ∃ d', callTool (λ _, "Invalid input") quietHost (PATTERNS (λ _ i, pretty i))
          "scaffold_react_project"
          (Some (<["path" := Mcp.JString "apps/shop"]> {["pattern_type" := Mcp.JString "clean"]}))
          ∅ =
          ({| Mcp.content :=
                [ {| Mcp.type := "text";
                     Mcp.text := String.concat LF
                       [ "✅ Successfully scaffolded: Clean Architecture (Backend-Agnostic)";
                         "📁 Target: /home/user/apps/shop";
                         "📂 Created 17 directories";
                         "📄 Created 26 files";
                         LF +:+ "🚀 Next steps:";
                         "  cd shop";
                         "  npm install";
                         "  npm run dev" ] |} ];
              Mcp.isError := None |}, d') ∧
        readFile d' "/home/user/apps/shop/package.json" = Some "18".
Proof.
  destruct (callTool_scaffolds_free_target (λ _, "Invalid input") (λ _ i, pretty i) quietHost
              (<["path" := Mcp.JString "apps/shop"]> {["pattern_type" := Mcp.JString "clean"]})
              "apps/shop" clean ∅ eq_refl eq_refl eq_refl)
    as (d' & Hrun & Hfiles);
    [by vm_compute | by vm_compute | reflexivity | reflexivity | reflexivity
    | by intros sc q _ | apply freeTarget_empty |].
  exists d'. split; [exact Hrun |]. by apply (Hfiles 18%nat "package.json").
Defined.
